(** * Recruitment Email Agent: the composition and delivery pipeline

    A shallow embedding of [ollama_client.py], [utils.py],
    [config_manager.py] and [email_agent.py], and the properties of the
    pipeline: subject generation with fallback, template rendering,
    SMTP delivery and the activity log.

    Conventions.
    - A Python [str] is a [string]; every [ascii] stands for one code
      point below 256, so [len] is [String.length].
    - A Python [dict] with string keys is an association list in
      insertion order; [Optional[str]] is [option string].
    - Effects (HTTP, SMTP, files, clock, console) go through the monad
      [M], a state-and-exception monad over [World].  The world carries
      the behaviour of every collaborator, so a statement quantified
      over worlds is quantified over everything they can do.
    - The pictographs of the console messages, and the blanks that
      follow them, are left out of the printed text.
    - What the operating system and the libraries decide is given by
      the world: the answers of the HTTP service and of the SMTP relay,
      the state of every file, the outcome of every write with the
      exception it raises. *)

From Stdlib Require Import String Ascii List Bool Arith NArith ZArith Lia DecimalString.
Import ListNotations.

Open Scope list_scope.
Open Scope string_scope.
Open Scope nat_scope.

(* ===================================================================== *)
(** ** Python strings *)
(* ===================================================================== *)

Module PyStr.

(** The empty [str]. *)
Definition empty : string := EmptyString.

Definition chr (n : nat) : string := String (ascii_of_nat n) EmptyString.

(** ["\n"], ["\r"], the double quote and the single quote. *)
Definition LF : ascii := ascii_of_nat 10.
Definition CR : ascii := ascii_of_nat 13.
Definition DQUOTE : ascii := ascii_of_nat 34.
Definition SQUOTE : ascii := ascii_of_nat 39.
Definition nl : string := String LF EmptyString.
Definition dq : string := String DQUOTE EmptyString.

(** [bool(s)]: a string is true when it is not empty. *)
Definition truthy (s : string) : bool :=
  match s with EmptyString => false | String _ _ => true end.

(** [str.isspace] on one code point below 256. *)
Definition isspace (c : ascii) : bool :=
  let n := nat_of_ascii c in
  ((9 <=? n) && (n <=? 13)) || ((28 <=? n) && (n <=? 32))
  || (n =? 133) || (n =? 160).

Fixpoint lstrip (s : string) : string :=
  match s with
  | EmptyString => EmptyString
  | String c r => if isspace c then lstrip r else s
  end.

Fixpoint rstrip (s : string) : string :=
  match s with
  | EmptyString => EmptyString
  | String c r =>
      match rstrip r with
      | EmptyString => if isspace c then EmptyString else String c EmptyString
      | r' => String c r'
      end
  end.

(** [s.strip()]. *)
Definition strip (s : string) : string := rstrip (lstrip s).

(** [s.replace(c, by)] for a one-character pattern [c]. *)
Fixpoint replace (c : ascii) (by_ : string) (s : string) : string :=
  match s with
  | EmptyString => EmptyString
  | String d r =>
      if Ascii.eqb d c then by_ ++ replace c by_ r
      else String d (replace c by_ r)
  end.

(** [str.lower] on one code point below 256: the ASCII capitals and
    the Latin-1 capitals other than the multiplication sign. *)
Definition lower_char (c : ascii) : ascii :=
  let n := nat_of_ascii c in
  if ((65 <=? n) && (n <=? 90))
     || ((192 <=? n) && (n <=? 222) && negb (n =? 215))
  then ascii_of_nat (n + 32) else c.

Fixpoint lower (s : string) : string :=
  match s with
  | EmptyString => EmptyString
  | String c r => String (lower_char c) (lower r)
  end.

(** [s.startswith(p)]. *)
Definition startswith (s p : string) : bool := String.prefix p s.

(** [s[:n]] and [s[n:]] for [n >= 0]. *)
Fixpoint take (n : nat) (s : string) : string :=
  match n, s with
  | S n', String c r => String c (take n' r)
  | _, _ => EmptyString
  end.

Fixpoint drop (n : nat) (s : string) : string :=
  match n, s with
  | S n', String _ r => drop n' r
  | _, _ => s
  end.

(** [p in s]. *)
Fixpoint contains (s p : string) : bool :=
  String.prefix p s
  || match s with
     | EmptyString => false
     | String _ r => contains r p
     end.

(** [s.endswith(p)]. *)
Definition endswith (s p : string) : bool :=
  (String.length p <=? String.length s)
  && String.eqb (drop (String.length s - String.length p) s) p.

(** [s.split(c)[0]]: the text before the first [c]. *)
Fixpoint split_head (c : ascii) (s : string) : string :=
  match s with
  | EmptyString => EmptyString
  | String d r => if Ascii.eqb d c then EmptyString else String d (split_head c r)
  end.

(** [sep.join(parts)]. *)
Definition join (sep : string) (parts : list string) : string :=
  String.concat sep parts.

(** [x or default] on an optional string: [None] and the empty
    string are both false. *)
Definition or_else (x : option string) (default : string) : string :=
  match x with
  | Some s => if truthy s then s else default
  | None => default
  end.

(** [bool(x)] on an optional string. *)
Definition truthy_opt (x : option string) : bool :=
  match x with Some s => truthy s | None => false end.

(** [repr(s)].  Python quotes with a single quote, unless the string
    holds one and no double quote; it escapes the quote in use, the
    backslash, tab, line feed and carriage return, and writes every
    other character that is not printable as [\xhh]. *)
Definition BACKSLASH : ascii := ascii_of_nat 92.

Fixpoint has (c : ascii) (s : string) : bool :=
  match s with
  | EmptyString => false
  | String d r => Ascii.eqb d c || has c r
  end.

(** [str.isprintable] on one code point below 256. *)
Definition isprintable (c : ascii) : bool :=
  let n := nat_of_ascii c in
  ((32 <=? n) && (n <=? 126)) || ((161 <=? n) && negb (n =? 173)).

Definition hex_digit (n : nat) : ascii :=
  if n <? 10 then ascii_of_nat (48 + n) else ascii_of_nat (87 + n).

Definition repr_char (quote c : ascii) : string :=
  let n := nat_of_ascii c in
  if Ascii.eqb c quote || Ascii.eqb c BACKSLASH
  then String BACKSLASH (String c EmptyString)
  else if n =? 9 then String BACKSLASH "t"
  else if n =? 10 then String BACKSLASH "n"
  else if n =? 13 then String BACKSLASH "r"
  else if isprintable c then String c EmptyString
  else String BACKSLASH
         (String "x" (String (hex_digit (n / 16))
                        (String (hex_digit (n mod 16)) EmptyString))).

Fixpoint repr_body (quote : ascii) (s : string) : string :=
  match s with
  | EmptyString => EmptyString
  | String c r => repr_char quote c ++ repr_body quote r
  end.

Definition repr (s : string) : string :=
  let quote := if has SQUOTE s && negb (has DQUOTE s) then DQUOTE else SQUOTE in
  String quote (repr_body quote s ++ String quote EmptyString).

End PyStr.

(* ===================================================================== *)
(** ** ollama_client.py: the pure part *)
(* ===================================================================== *)

(** [OllamaClient._clean_subject], up to the length limit: quotes
    removed, line breaks turned into spaces, a leading "Subject:"
    label dropped. *)
Definition cleaned_form (subject : string) : string :=
  let subject := PyStr.strip subject in
  let subject := PyStr.replace PyStr.SQUOTE PyStr.empty
                   (PyStr.replace PyStr.DQUOTE PyStr.empty subject) in
  let subject := PyStr.replace PyStr.CR " "
                   (PyStr.replace PyStr.LF " " subject) in
  if PyStr.startswith (PyStr.lower subject) "subject:"
  then PyStr.strip (PyStr.drop 8 subject)
  else subject.

(** [OllamaClient._clean_subject]. *)
Definition _clean_subject (subject : string) : string :=
  if negb (PyStr.truthy subject) then PyStr.empty
  else
    let subject := cleaned_form subject in
    if 80 <? String.length subject
    then PyStr.take 77 subject ++ "..."
    else subject.

Definition bad_indicators : list string :=
  [ "i cannot"; "i can't"; "as an ai"; "sorry";
    "inappropriate"; "unable to"; "```"; "here is";
    "here's a"; "here are" ].

(** [OllamaClient._is_valid_subject]. *)
Definition _is_valid_subject (subject : string) : bool :=
  if negb (PyStr.truthy subject) || (String.length (PyStr.strip subject) <? 5)
  then false
  else
    let subject_lower := PyStr.lower subject in
    negb (existsb (fun bad => PyStr.contains subject_lower bad) bad_indicators).

(** [company_name and company_name != "your organization"]. *)
Definition real_company (company_name : option string) : bool :=
  match company_name with
  | Some c => PyStr.truthy c && negb (String.eqb c "your organization")
  | None => false
  end.

(** [OllamaClient._default_subject]. *)
Definition _default_subject (sender_name : string) (company_name : option string)
  : string :=
  match company_name with
  | Some c =>
      if real_company company_name
      then "Application for Position at " ++ c ++ " - " ++ sender_name
      else "Software Engineer Application - " ++ sender_name
  | None => "Software Engineer Application - " ++ sender_name
  end.

(* ===================================================================== *)
(** ** Values, exceptions and the world *)
(* ===================================================================== *)

(** A parsed JSON document, which is also the shape of the Python
    values [json.load] and [response.json()] return.  A number keeps
    its literal; an object keeps its keys in order. *)
#[warnings="-register-all"]
Inductive json : Type :=
| JNull
| JBool (b : bool)
| JNum (literal : string)
| JStr (s : string)
| JArr (items : list json)
| JObj (fields : list (string * json)).

(** [dict] with string keys. *)
Definition dict (V : Type) : Type := list (string * V).

Fixpoint lookup {V : Type} (k : string) (d : dict V) : option V :=
  match d with
  | [] => None
  | (k', v) :: d' => if String.eqb k k' then Some v else lookup k d'
  end.

(** The exception classes the code can meet. *)
Inductive exn_class : Type :=
| ConnectionError            (* requests.exceptions.ConnectionError *)
| Timeout                    (* requests.exceptions.Timeout *)
| RequestException           (* any other requests.exceptions.RequestException *)
| RequestsJSONDecodeError    (* requests.exceptions.JSONDecodeError *)
| JSONDecodeError            (* json.JSONDecodeError *)
| KeyError
| IndexError
| ValueError
| UnicodeDecodeError         (* a ValueError; bytes that are not text *)
| RecursionError
| TypeError
| AttributeError
| FileNotFoundError
| PermissionError
| OSError
| SMTPAuthenticationError
| SMTPRecipientsRefused
| SMTPServerDisconnected
| SMTPException.

(** An exception: its class and [str(e)]. *)
Record exn : Type := Exn { cls : exn_class; text : string }.

(** [isinstance(e, requests.exceptions.RequestException)]; the JSON
    error of [response.json()] is one of them (requests 2.27 and later). *)
Definition is_RequestException (e : exn) : bool :=
  match cls e with
  | ConnectionError | Timeout | RequestException | RequestsJSONDecodeError => true
  | _ => false
  end.

Definition is_Timeout (e : exn) : bool :=
  match cls e with Timeout => true | _ => false end.

Definition is_JSONDecodeError (e : exn) : bool :=
  match cls e with JSONDecodeError => true | _ => false end.

Definition is_FileNotFoundError (e : exn) : bool :=
  match cls e with FileNotFoundError => true | _ => false end.

Inductive result (A : Type) : Type :=
| Ok (a : A)
| Raise (e : exn).
Arguments Ok {A} a.
Arguments Raise {A} e.

(** *** The text-generation HTTP service *)

Inductive http_request : Type :=
| GET (url : string) (timeout : nat)
| POST (url : string) (payload : json) (timeout : nat).

(** A response: its status and its body, [None] when the body is not
    JSON. *)
Record response : Type := Response { status_code : nat; body : option json }.

(** What [requests.get] and [requests.post] can do: fail with a
    [RequestException], or hand back a response. *)
Inductive request_failure : Type := Refused | TimedOut | OtherFailure.

Inductive http_outcome : Type :=
| Unreachable (f : request_failure)
| Responds (r : response).

(** *** The SMTP relay *)

(** The states of the delivery session. *)
Inductive conn_state : Type :=
| Disconnected | Connected | Encrypted | Authenticated | Sent | Closed.

(** The relay: for every step of a session, the exception it raises,
    if any. *)
Record smtp_behaviour : Type := Relay {
  on_connect : option exn;
  on_starttls : option exn;
  on_login : option exn;
  (* send_message depends on the envelope: see [refusing] *)
  on_send_message : list string -> option exn;
  on_quit : option exn
}.

(** [send_message] towards a server that refuses the addresses in
    [refused] and nothing else.  [smtplib] raises
    [SMTPRecipientsRefused], whose text is [why], when every address of
    the envelope is refused; when one address at least is accepted it
    sends the message and returns the refused ones. *)
Definition refusing (refused : string -> bool) (why : string)
  (to_addrs : list string) : option exn :=
  if forallb refused to_addrs then Some (Exn SMTPRecipientsRefused why) else None.


(** [MIMEMultipart] as [_create_email_message] fills it. *)
Record ComposedMessage : Type := Message {
  msg_from : string;
  msg_to : string;
  msg_subject : string;
  msg_bcc : option string;
  msg_body : string;
  msg_attachment : string * string   (* Content-Disposition, payload *)
}.

(** The calls made on [smtplib]. *)
Inductive smtp_call : Type :=
| CallSMTP (host : string) (port : nat)
| CallStarttls
| CallLogin (user password : string)
| CallSendMessage (m : ComposedMessage) (to_addrs : list string)
| CallQuit.

(** *** Files *)

(** A file as [os.path.exists], [open(.., 'r')] and [json.load] see
    it.
    - [Unreadable e]: the file exists and [open] or [json.load] raises
      [e], an exception other than [JSONDecodeError]: no permission,
      bytes that are not text ([UnicodeDecodeError]), a document nested
      too deep ([RecursionError]), a number of too many digits
      ([ValueError]).
    - [Corrupt why]: the file exists and holds text that is not a JSON
      document, an empty file for one; [json.load] raises
      [JSONDecodeError] with the text [why].
    - [Document j]: the file exists and holds the JSON document [j]. *)
Inductive file_state : Type :=
| Absent
| Unreadable (e : exn)
| Corrupt (why : string)
| Document (j : json).

(** What [with open(path, 'w') as f: json.dump(.., f, indent=2)] does
    to a file.
    - [Written]: the file holds the document.
    - [NotOpened e]: [open] raises [e]; the file is as it was.
    - [Broken e remains]: [open] has emptied the file, then the writing
      or the closing raises [e]; [remains] is what the file is
      afterwards. *)
Inductive write_outcome : Type :=
| Written
| NotOpened (e : exn)
| Broken (e : exn) (remains : file_state).

(** [pathlib.Path]: the path and its final component. *)
Record Path : Type := mkPath { path_str : string; name : string }.

(** *** The world *)

Record World : Type := mkWorld {
  (* the HTTP service: its answer to the n-th request *)
  http_service : nat -> http_request -> http_outcome;
  http_calls : list http_request;
  (* the SMTP relay, the session and the calls made so far *)
  smtp_relay : smtp_behaviour;
  smtp_conn : conn_state;
  smtp_calls : list smtp_call;
  (* the disk *)
  open_rb : string -> result string;        (* open(path, 'rb').read() *)
  files : string -> file_state;
  on_write : string -> write_outcome;       (* open(path, 'w') and the dump *)
  (* datetime.now().isoformat(): the n-th reading *)
  clock : nat -> string;
  clock_reads : nat;
  (* str.format on a replacement field with attribute or index access,
     a conversion or a format spec: left to the runtime *)
  format_field : string -> dict string -> result string;
  (* the console *)
  stdout : list string
}.

Definition set_http_calls (v : list http_request) (w : World) : World :=
  mkWorld (http_service w) v (smtp_relay w) (smtp_conn w) (smtp_calls w)
          (open_rb w) (files w) (on_write w) (clock w) (clock_reads w)
          (format_field w) (stdout w).

Definition set_smtp (c : conn_state) (calls : list smtp_call) (w : World) : World :=
  mkWorld (http_service w) (http_calls w) (smtp_relay w) c calls
          (open_rb w) (files w) (on_write w) (clock w) (clock_reads w)
          (format_field w) (stdout w).

Definition set_files (v : string -> file_state) (w : World) : World :=
  mkWorld (http_service w) (http_calls w) (smtp_relay w) (smtp_conn w) (smtp_calls w)
          (open_rb w) v (on_write w) (clock w) (clock_reads w)
          (format_field w) (stdout w).

Definition set_clock_reads (v : nat) (w : World) : World :=
  mkWorld (http_service w) (http_calls w) (smtp_relay w) (smtp_conn w) (smtp_calls w)
          (open_rb w) (files w) (on_write w) (clock w) v
          (format_field w) (stdout w).

Definition set_stdout (v : list string) (w : World) : World :=
  mkWorld (http_service w) (http_calls w) (smtp_relay w) (smtp_conn w) (smtp_calls w)
          (open_rb w) (files w) (on_write w) (clock w) (clock_reads w)
          (format_field w) v.

(* ===================================================================== *)
(** ** The monad of effects *)
(* ===================================================================== *)

Definition M (A : Type) : Type := World -> result A * World.

Definition ret {A : Type} (a : A) : M A := fun w => (Ok a, w).

Definition raise {A : Type} (e : exn) : M A := fun w => (Raise e, w).

Definition bind {A B : Type} (m : M A) (k : A -> M B) : M B :=
  fun w =>
    match m w with
    | (Ok a, w') => k a w'
    | (Raise e, w') => (Raise e, w')
    end.

(** [try: body  except ...: handler]; a handler that does not know the
    exception raises it again. *)
Definition try_except {A : Type} (body : M A) (handler : exn -> M A) : M A :=
  fun w =>
    match body w with
    | (Ok a, w') => (Ok a, w')
    | (Raise e, w') => handler e w'
    end.

(** A pure computation that may raise. *)
Definition lift {A : Type} (r : result A) : M A := fun w => (r, w).

Declare Scope py_scope.
Delimit Scope py_scope with py.
Notation "x <- m ;; k" := (bind m (fun x => k))
  (at level 100, m at next level, right associativity) : py_scope.
Notation "m ;; k" := (bind m (fun _ => k))
  (at level 100, right associativity) : py_scope.
Open Scope py_scope.

(** [print(s)]. *)
Definition print (s : string) : M unit :=
  fun w => (Ok tt, set_stdout (stdout w ++ [s])%list w).

(** The value and the world a computation ends in. *)
Definition value_of {A : Type} (r : result A * World) : result A := fst r.
Definition world_of {A : Type} (r : result A * World) : World := snd r.

(* ===================================================================== *)
(** ** Python operations on parsed JSON *)
(* ===================================================================== *)

(** A number is loaded as a [float] when its literal has a fraction
    or an exponent, or is one of [NaN], [Infinity], [-Infinity]. *)
Definition float_literal (literal : string) : bool :=
  PyStr.has "." literal || PyStr.has "e" literal || PyStr.has "E" literal
  || PyStr.has "N" literal || PyStr.has "I" literal.

(** [type(v).__name__]. *)
Definition type_name (v : json) : string :=
  match v with
  | JNull => "NoneType" | JBool _ => "bool"
  | JNum literal => if float_literal literal then "float" else "int"
  | JStr _ => "str" | JArr _ => "list" | JObj _ => "dict"
  end.

Definition no_attribute (v : json) (attr : string) : exn :=
  Exn AttributeError
      ("'" ++ type_name v ++ "' object has no attribute '" ++ attr ++ "'").

(** [KeyError(k)]; its [str] is [repr(k)]. *)
Definition key_error (k : string) : exn := Exn KeyError (PyStr.repr k).

(** [v.get(key, default)]. *)
Definition py_get (v : json) (key : string) (default : json) : result json :=
  match v with
  | JObj d => Ok (match lookup key d with Some x => x | None => default end)
  | _ => Raise (no_attribute v "get")
  end.

(** The items [for x in v] runs through. *)
Definition py_iter (v : json) : result (list json) :=
  match v with
  | JArr l => Ok l
  | JObj d => Ok (map (fun kv => JStr (fst kv)) d)
  | JStr s => Ok (map (fun c => JStr (String c EmptyString)) (list_ascii_of_string s))
  | _ => Raise (Exn TypeError ("'" ++ type_name v ++ "' object is not iterable"))
  end.

(** [v[key]] for a string [key]. *)
Definition py_getitem (v : json) (key : string) : result json :=
  match v with
  | JObj d =>
      match lookup key d with
      | Some x => Ok x
      | None => Raise (key_error key)
      end
  | JArr _ => Raise (Exn TypeError "list indices must be integers or slices, not str")
  | JStr _ => Raise (Exn TypeError "string indices must be integers, not 'str'")
  | _ => Raise (Exn TypeError ("'" ++ type_name v ++ "' object is not subscriptable"))
  end.

(** [v.split(':')[0]]. *)
Definition py_split_head (v : json) : result string :=
  match v with
  | JStr s => Ok (PyStr.split_head ":" s)
  | _ => Raise (no_attribute v "split")
  end.

(** [v.strip()]. *)
Definition py_strip (v : json) : result string :=
  match v with
  | JStr s => Ok (PyStr.strip s)
  | _ => Raise (no_attribute v "strip")
  end.

(** [[f(x) for x in l]], stopping at the first exception. *)
Fixpoint comprehension {A B : Type} (f : A -> result B) (l : list A)
  : result (list B) :=
  match l with
  | [] => Ok []
  | x :: l' =>
      match f x with
      | Raise e => Raise e
      | Ok y =>
          match comprehension f l' with
          | Raise e => Raise e
          | Ok ys => Ok (y :: ys)
          end
      end
  end.

(** [sep.join(items)]: every item has to be a [str]. *)
Definition py_join (sep : string) (items : list json) : result string :=
  match comprehension
          (fun v => match v with
                    | JStr s => Ok s
                    | _ => Raise (Exn TypeError
                             ("sequence item: expected str instance, "
                              ++ type_name v ++ " found"))
                    end) items with
  | Ok parts => Ok (PyStr.join sep parts)
  | Raise e => Raise e
  end.

Definition str_of_nat (n : nat) : string := NilZero.string_of_uint (Nat.to_uint n).

(* ===================================================================== *)
(** ** requests *)
(* ===================================================================== *)

Definition exn_of_failure (f : request_failure) : exn :=
  match f with
  | Refused => Exn ConnectionError "Connection refused"
  | TimedOut => Exn Timeout "Read timed out"
  | OtherFailure => Exn RequestException "Request failed"
  end.

(** One HTTP exchange: the request is recorded and the service answers. *)
Definition http_exchange (req : http_request) : M response :=
  fun w =>
    let w' := set_http_calls (http_calls w ++ [req])%list w in
    match http_service w (length (http_calls w)) req with
    | Unreachable f => (Raise (exn_of_failure f), w')
    | Responds r => (Ok r, w')
    end.

Definition requests_get (url : string) (timeout : nat) : M response :=
  http_exchange (GET url timeout).

Definition requests_post (url : string) (payload : json) (timeout : nat) : M response :=
  http_exchange (POST url payload timeout).

(** [response.json()]. *)
Definition response_json (r : response) : result json :=
  match body r with
  | Some j => Ok j
  | None => Raise (Exn RequestsJSONDecodeError "Expecting value: line 1 column 1 (char 0)")
  end.

(* ===================================================================== *)
(** ** ollama_client.py: OllamaClient *)
(* ===================================================================== *)

Record OllamaClient : Type := mkOllamaClient {
  base_url : string;
  model : string;
  generate_url : string;
  models_url : string
}.

(** [OllamaClient.__init__]. *)
Definition OllamaClient_init (base_url model : string) : OllamaClient :=
  mkOllamaClient base_url model (base_url ++ "/api/generate") (base_url ++ "/api/tags").

Definition default_ollama : OllamaClient :=
  OllamaClient_init "http://localhost:11434" "mistral".

(** [except requests.exceptions.RequestException: return v]. *)
Definition except_RequestException {A : Type} (v : A) (e : exn) : M A :=
  if is_RequestException e then ret v else raise e.

(** [OllamaClient.is_ollama_running]. *)
Definition is_ollama_running (self : OllamaClient) : M bool :=
  try_except
    (response <- requests_get (models_url self) 5 ;;
     ret (status_code response =? 200))
    (except_RequestException false).

(** [OllamaClient.is_model_available]. *)
Definition is_model_available (self : OllamaClient) (model_name : option string)
  : M bool :=
  let model_name := PyStr.or_else model_name (model self) in
  try_except
    (response <- requests_get (models_url self) 5 ;;
     if status_code response =? 200 then
       models_data <- lift (response_json response) ;;
       models <- lift (py_get models_data "models" (JArr [])) ;;
       items <- lift (py_iter models) ;;
       available_models <-
         lift (comprehension
                 (fun model => match py_getitem model "name" with
                               | Ok n => py_split_head n
                               | Raise e => Raise e
                               end) items) ;;
       ret (existsb (String.eqb model_name) available_models)
     else ret false)
    (except_RequestException false).

(** [OllamaClient.get_available_models]. *)
Definition get_available_models (self : OllamaClient) : M (list json) :=
  try_except
    (response <- requests_get (models_url self) 5 ;;
     if status_code response =? 200 then
       models_data <- lift (response_json response) ;;
       models <- lift (py_get models_data "models" (JArr [])) ;;
       items <- lift (py_iter models) ;;
       lift (comprehension (fun model => py_getitem model "name") items)
     else ret [])
    (except_RequestException []).

(** [OllamaClient._create_subject_prompt]. *)
Definition _create_subject_prompt (recipient_name company_name : option string)
  (sender_name : string) : string :=
  let company_part :=
    if real_company company_name
    then ["Company: " ++ PyStr.or_else company_name PyStr.empty] else [] in
  let recipient_part :=
    match recipient_name with
    | Some r => if PyStr.truthy r && negb (String.eqb r "Hiring Manager")
                then ["Recipient: " ++ r] else []
    | None => []
    end in
  let context_parts :=
    List.app company_part (List.app recipient_part ["Applicant: " ++ sender_name]) in
  let context := PyStr.join PyStr.nl context_parts in
  let quoted (s : string) : string := "- " ++ PyStr.dq ++ s ++ PyStr.dq in
  PyStr.join PyStr.nl
    [ "Generate a professional email subject line for a job application. ";
      PyStr.empty;
      "Context:";
      context;
      PyStr.empty;
      "Requirements:";
      "- Professional and engaging";
      "- 50 characters or less";
      "- No quotes or special formatting";
      "- Include applicant name";
      "- Make it stand out in an inbox";
      PyStr.empty;
      "Examples of good subjects:";
      quoted "Software Engineer Application - John Smith";
      quoted "Experienced Developer Seeking Opportunities - Jane Doe";
      quoted "Application for Python Developer Role - John Smith";
      quoted "Senior Engineer Position - John Smith";
      (if real_company company_name
       then "- Application for Position at "
            ++ PyStr.or_else company_name PyStr.empty ++ " - John Smith"
       else PyStr.empty);
      PyStr.empty;
      "Generate only the subject line, nothing else:" ].

(** The body of the generation request. *)
Definition generation_payload (self : OllamaClient) (prompt : string) : json :=
  JObj [ ("model", JStr (model self));
         ("prompt", JStr prompt);
         ("stream", JBool false);
         ("options", JObj [ ("temperature", JNum "0.7");
                            ("top_p", JNum "0.9");
                            ("max_tokens", JNum "50") ]) ].

(** The [try] block of [generate_subject_line]: the generation request
    and the treatment of its answer. *)
Definition generation_call (self : OllamaClient) (prompt sender_name : string)
  (company_name : option string) : M string :=
  try_except
    (let payload := generation_payload self prompt in
     print ("Generating subject line with " ++ model self ++ "...") ;;
     response <- requests_post (generate_url self) payload 30 ;;
     if status_code response =? 200 then
       result <- lift (response_json response) ;;
       raw <- lift (py_get result "response" (JStr PyStr.empty)) ;;
       subject <- lift (py_strip raw) ;;
       let subject := _clean_subject subject in
       if _is_valid_subject subject then
         print ("AI generated: " ++ subject) ;;
         ret subject
       else
         print "Generated subject seems invalid. Using default." ;;
         ret (_default_subject sender_name company_name)
     else
       print ("Ollama API error (" ++ str_of_nat (status_code response)
              ++ "). Using default subject.") ;;
       ret (_default_subject sender_name company_name))
    (fun e =>
       if is_Timeout e then
         print "Ollama request timeout. Using default subject." ;;
         ret (_default_subject sender_name company_name)
       else if is_RequestException e then
         print ("Ollama request failed: " ++ text e ++ ". Using default subject.") ;;
         ret (_default_subject sender_name company_name)
       else
         print ("Unexpected error: " ++ text e ++ ". Using default subject.") ;;
         ret (_default_subject sender_name company_name)).

(** [OllamaClient.generate_subject_line]. *)
Definition generate_subject_line (self : OllamaClient)
  (recipient_name company_name : option string) (sender_name : string) : M string :=
  running <- is_ollama_running self ;;
  if negb running then
    print "Ollama service not running. Using default subject." ;;
    ret (_default_subject sender_name company_name)
  else
  available <- is_model_available self None ;;
  if negb available then
    print ("Model '" ++ model self ++ "' not found. Using default subject.") ;;
    available <- get_available_models self ;;
    (match available with
     | [] => ret tt
     | _ :: _ =>
         shown <- lift (py_join ", " (firstn 3 available)) ;;
         print ("Available models: " ++ shown) ;;
         print ("Install with: ollama pull " ++ model self)
     end) ;;
    ret (_default_subject sender_name company_name)
  else
  let prompt := _create_subject_prompt recipient_name company_name sender_name in
  generation_call self prompt sender_name company_name.

(* ===================================================================== *)
(** ** str.format with keyword arguments *)
(* ===================================================================== *)

Definition LBRACE : ascii := ascii_of_nat 123.
Definition RBRACE : ascii := ascii_of_nat 125.

Definition is_digit (c : ascii) : bool :=
  (48 <=? nat_of_ascii c) && (nat_of_ascii c <=? 57).

(** The characters that open the richer field syntax: a nested brace,
    an index, a format spec, a conversion, an attribute. *)
Definition opens_field_syntax (c : ascii) : bool :=
  Ascii.eqb c LBRACE || Ascii.eqb c "[" || Ascii.eqb c ":"
  || Ascii.eqb c "!" || Ascii.eqb c ".".

Fixpoint all_digits (s : string) : bool :=
  match s with
  | EmptyString => true
  | String c r => is_digit c && all_digits r
  end.

(** The largest index a field numeral may denote. *)
Definition PY_SSIZE_T_MAX : N := 9223372036854775807%N.

(** The index a numeral denotes, [None] once it outgrows the machine
    integer. *)
Fixpoint field_index (acc : N) (s : string) : option N :=
  match s with
  | EmptyString => Some acc
  | String c r =>
      let digit := N.of_nat (nat_of_ascii c - 48) in
      if ((PY_SSIZE_T_MAX - digit) / 10 <? acc)%N then None
      else field_index (acc * 10 + digit)%N r
  end.

Definition out_of_range (i : N) : exn :=
  Exn IndexError ("Replacement index " ++ NilZero.string_of_uint (N.to_uint i)
                  ++ " out of range for positional args tuple").

(** The value of a plain field: a name is looked up among the keyword
    arguments; an empty or numeric field asks for a positional argument,
    and the calls here pass none. *)
Definition field_value (kwargs : dict string) (field : string) : result string :=
  match field with
  | EmptyString => Raise (out_of_range 0%N)
  | String _ _ =>
      if all_digits field then
        match field_index 0%N field with
        | Some i => Raise (out_of_range i)
        | None => Raise (Exn ValueError "Too many decimal digits in format string")
        end
      else
        match lookup field kwargs with
        | Some v => Ok v
        | None => Raise (key_error field)
        end
  end.

(** Where the scan of a template stands: in literal text, or inside a
    replacement field whose text so far is [acc]. *)
Inductive scan_state : Type :=
| InText
| InField (acc : string).

Definition snoc (s : string) (c : ascii) : string := s ++ String c EmptyString.

(** [template.format(k=v, ...)] from a scanning state on, [out] being
    the text produced so far.  The scan goes left to right and stops at
    the first error.  A field that uses more than a plain name is
    handed, with the rest of the template, to [runtime]. *)
Fixpoint format_scan (runtime : string -> dict string -> result string)
  (kwargs : dict string) (st : scan_state) (s : string) (out : string)
  : result string :=
  match s with
  | EmptyString =>
      match st with
      | InText => Ok out
      | InField _ => Raise (Exn ValueError "expected '}' before end of string")
      end
  | String c r =>
      match st with
      | InText =>
          if Ascii.eqb c LBRACE then
            match r with
            | EmptyString =>
                Raise (Exn ValueError "Single '{' encountered in format string")
            | String d r' =>
                if Ascii.eqb d LBRACE
                then format_scan runtime kwargs InText r' (snoc out LBRACE)
                else format_scan runtime kwargs (InField EmptyString) r out
            end
          else if Ascii.eqb c RBRACE then
            match r with
            | EmptyString =>
                Raise (Exn ValueError "Single '}' encountered in format string")
            | String d r' =>
                if Ascii.eqb d RBRACE
                then format_scan runtime kwargs InText r' (snoc out RBRACE)
                else Raise (Exn ValueError "Single '}' encountered in format string")
            end
          else format_scan runtime kwargs InText r (snoc out c)
      | InField acc =>
          if opens_field_syntax c then
            match runtime (acc ++ s) kwargs with
            | Ok tail => Ok (out ++ tail)
            | Raise e => Raise e
            end
          else if Ascii.eqb c RBRACE then
            match field_value kwargs acc with
            | Ok v => format_scan runtime kwargs InText r (out ++ v)
            | Raise e => Raise e
            end
          else format_scan runtime kwargs (InField (snoc acc c)) r out
      end
  end.

(** [template.format(k=v, ...)]. *)
Definition str_format (runtime : string -> dict string -> result string)
  (template : string) (kwargs : dict string) : result string :=
  format_scan runtime kwargs InText template EmptyString.

Definition is_name (field : string) : bool :=
  PyStr.truthy field && negb (all_digits field).

(** The placeholders of a template, in order of appearance, when the
    template is made of literal text (a literal brace written twice)
    and of fields that are plain names; [None] for any other text. *)
Fixpoint placeholders_scan (st : scan_state) (s : string) : option (list string) :=
  match s with
  | EmptyString =>
      match st with
      | InText => Some []
      | InField _ => None
      end
  | String c r =>
      match st with
      | InText =>
          if Ascii.eqb c LBRACE then
            match r with
            | EmptyString => None
            | String d r' =>
                if Ascii.eqb d LBRACE then placeholders_scan InText r'
                else placeholders_scan (InField EmptyString) r
            end
          else if Ascii.eqb c RBRACE then
            match r with
            | EmptyString => None
            | String d r' =>
                if Ascii.eqb d RBRACE then placeholders_scan InText r' else None
            end
          else placeholders_scan InText r
      | InField acc =>
          if opens_field_syntax c then None
          else if Ascii.eqb c RBRACE then
            if is_name acc then
              match placeholders_scan InText r with
              | Some fs => Some (acc :: fs)
              | None => None
              end
            else None
          else placeholders_scan (InField (snoc acc c)) r
      end
  end.

Definition placeholders (template : string) : option (list string) :=
  placeholders_scan InText template.

(* ===================================================================== *)
(** ** utils.py: the activity log *)
(* ===================================================================== *)

(** [datetime.now().isoformat()]. *)
Definition now_isoformat : M string :=
  fun w => (Ok (clock w (clock_reads w)), set_clock_reads (S (clock_reads w)) w).

(** [os.path.exists(path)]. *)
Definition os_path_exists (path : string) : M bool :=
  fun w => (Ok (match files w path with Absent => false | _ => true end), w).

(** [str(e)] of the [OSError] that [open] raises. *)
Definition errno_text (errno : nat) (strerror path : string) : string :=
  "[Errno " ++ str_of_nat errno ++ "] " ++ strerror ++ ": " ++ PyStr.repr path.

(** [with open(path, 'r') as f: json.load(f)]. *)
Definition json_load (path : string) : M json :=
  fun w =>
    match files w path with
    | Absent =>
        (Raise (Exn FileNotFoundError (errno_text 2 "No such file or directory" path)), w)
    | Unreadable e => (Raise e, w)
    | Corrupt why => (Raise (Exn JSONDecodeError why), w)
    | Document j => (Ok j, w)
    end.

(** [with open(path, 'w') as f: json.dump(j, f, indent=2)]. *)
Definition json_dump (j : json) (path : string) : M unit :=
  fun w =>
    match on_write w path with
    | Written =>
        (Ok tt, set_files (fun q => if String.eqb q path then Document j
                                    else files w q) w)
    | NotOpened e => (Raise e, w)
    | Broken e remains =>
        (Raise e, set_files (fun q => if String.eqb q path then remains
                                      else files w q) w)
    end.

(** [logs.append(x)]. *)
Definition py_append (logs : json) (x : json) : result json :=
  match logs with
  | JArr l => Ok (JArr (l ++ [x])%list)
  | _ => Raise (no_attribute logs "append")
  end.

Definition json_of_option (x : option string) : json :=
  match x with Some s => JStr s | None => JNull end.

(** The [log_entry] of [log_email_activity]. *)
Definition log_entry (timestamp recipient_email : string) (company_name : option string)
  (subject : string) (success : bool) (error_msg : option string) : json :=
  JObj [ ("timestamp", JStr timestamp);
         ("recipient", JStr recipient_email);
         ("company", JStr (PyStr.or_else company_name "Not specified"));
         ("subject", JStr subject);
         ("success", JBool success);
         ("error", json_of_option error_msg) ].

(** [log_email_activity]. *)
Definition log_email_activity (log_file recipient_email : string)
  (company_name : option string) (subject : string) (success : bool)
  (error_msg : option string) : M unit :=
  timestamp <- now_isoformat ;;
  let entry := log_entry timestamp recipient_email company_name subject success error_msg in
  present <- os_path_exists log_file ;;
  logs <- (if present then
             try_except (json_load log_file)
               (fun e => if is_JSONDecodeError e
                         then print "Log file corrupted. Starting fresh log." ;;
                              ret (JArr [])
                         else raise e)
           else ret (JArr [])) ;;
  logs <- lift (py_append logs entry) ;;
  try_except (json_dump logs log_file)
    (fun e => print ("Failed to write to log file: " ++ text e)).

(** [s * n]. *)
Fixpoint times (s : string) (n : nat) : string :=
  match n with
  | 0 => EmptyString
  | S n' => s ++ times s n'
  end.

(** [bool(v)] of a loaded value; a number is false when it is zero,
    that is when its literal has nothing but a sign, zeros and a point
    before the exponent. *)
Fixpoint zero_literal (literal : string) : bool :=
  match literal with
  | EmptyString => true
  | String c r =>
      if Ascii.eqb c "e" || Ascii.eqb c "E" then true
      else if Ascii.eqb c "0" || Ascii.eqb c "." || Ascii.eqb c "-" then zero_literal r
      else false
  end.

Definition py_bool (v : json) : bool :=
  match v with
  | JNull => false
  | JBool b => b
  | JNum literal => negb (zero_literal literal)
  | JStr s => PyStr.truthy s
  | JArr [] => false
  | JArr (_ :: _) => true
  | JObj [] => false
  | JObj (_ :: _) => true
  end.

(** [l[-count:]]: the last [count] items for a positive [count], the
    whole list for [count = 0], the list without its first [-count]
    items for a negative one. *)
Definition last_items {A : Type} (count : Z) (l : list A) : list A :=
  let n := Z.of_nat (length l) in
  let start := if (0 <? count)%Z then Z.max 0 (n - count) else Z.min n (- count) in
  skipn (Z.to_nat start) l.

(** [reversed(v[-count:])] with its length, for a list or a string.
    On a [dict] the subscript raises [TypeError] up to Python 3.11 and
    a [KeyError] from 3.12 on; the text here is the one of 3.11. *)
Definition recent_reversed (count : Z) (v : json) : result (list json) :=
  match v with
  | JArr l => Ok (rev (last_items count l))
  | JStr s =>
      Ok (rev (map (fun c => JStr (String c EmptyString))
                   (last_items count (list_ascii_of_string s))))
  | JObj _ => Raise (Exn TypeError "unhashable type: 'slice'")
  | _ => Raise (Exn TypeError ("'" ++ type_name v ++ "' object is not subscriptable"))
  end.

(** [v != "Not specified"]. *)
Definition differs_from (v : json) (s : string) : bool :=
  match v with
  | JStr t => negb (String.eqb t s)
  | _ => true
  end.

Section ShowRecentEmails.

(** Left to the runtime: [datetime.fromisoformat(ts).strftime("%Y-%m-%d
    %H:%M")] for a string [ts], and [str(v)] for a number, a list or a
    dictionary. *)
Variable strftime_minutes : string -> result string.
Variable str_of_other : json -> string.

(** [str(v)], as an f-string formats a loaded value. *)
Definition py_str (v : json) : string :=
  match v with
  | JStr s => s
  | JNull => "None"
  | JBool true => "True"
  | JBool false => "False"
  | _ => str_of_other v
  end.

Definition fromisoformat_strftime (v : json) : result string :=
  match v with
  | JStr ts => strftime_minutes ts
  | _ => Raise (Exn TypeError "fromisoformat: argument must be str")
  end.

(** The body of the loop of [show_recent_emails]. *)
Definition show_email (log : json) : M unit :=
  ts <- lift (py_getitem log "timestamp") ;;
  timestamp <- lift (fromisoformat_strftime ts) ;;
  success <- lift (py_getitem log "success") ;;
  let status := if py_bool success then "Sent" else "Failed" in
  print (timestamp ++ " | " ++ status) ;;
  recipient <- lift (py_getitem log "recipient") ;;
  print ("   To: " ++ py_str recipient) ;;
  company <- lift (py_getitem log "company") ;;
  (if differs_from company "Not specified" then
     company <- lift (py_getitem log "company") ;;
     print ("   Company: " ++ py_str company)
   else ret tt) ;;
  subject <- lift (py_getitem log "subject") ;;
  print ("   Subject: " ++ py_str subject) ;;
  success <- lift (py_getitem log "success") ;;
  (if negb (py_bool success) then
     error <- lift (py_get log "error" JNull) ;;
     if py_bool error then
       error <- lift (py_getitem log "error") ;;
       print ("   Error: " ++ py_str error)
     else ret tt
   else ret tt) ;;
  print EmptyString.

Fixpoint show_emails (logs : list json) : M unit :=
  match logs with
  | [] => ret tt
  | log :: rest => show_email log ;; show_emails rest
  end.

(** [show_recent_emails]. *)
Definition show_recent_emails (log_file : string) (count : Z) : M unit :=
  present <- os_path_exists log_file ;;
  if negb present then print "No email history found."
  else
    try_except
      (logs <- json_load log_file ;;
       if negb (py_bool logs) then print "No emails logged yet."
       else
         recent <- lift (recent_reversed count logs) ;;
         print (PyStr.nl ++ "Last " ++ str_of_nat (length recent) ++ " emails:") ;;
         print (times "-" 50) ;;
         show_emails recent)
      (fun e => print ("Failed to read log file: " ++ text e)).

End ShowRecentEmails.

(** One request to the logger. *)
Record LogRequest : Type := mkLogRequest {
  req_recipient : string;
  req_company : option string;
  req_subject : string;
  req_success : bool;
  req_error : option string
}.

(** A run of calls to [log_email_activity], one after the other. *)
Fixpoint log_all (log_file : string) (reqs : list LogRequest) : M unit :=
  match reqs with
  | [] => ret tt
  | r :: reqs' =>
      log_email_activity log_file (req_recipient r) (req_company r)
        (req_subject r) (req_success r) (req_error r) ;;
      log_all log_file reqs'
  end.

(* ===================================================================== *)
(** ** config_manager.py and email_agent.py *)
(* ===================================================================== *)

(** [ConfigManager]; the configuration is a dictionary of strings. *)
Record ConfigManager : Type := mkConfigManager {
  config_file : string;
  config : option (dict string)
}.

(** [ConfigManager.get_config]. *)
Definition get_config (self : ConfigManager) : option (dict string) := config self.

(** [bool(config)]: [None] and the empty dictionary are false. *)
Definition truthy_config (c : option (dict string)) : bool :=
  match c with
  | Some (_ :: _) => true
  | _ => false
  end.

(** [config[key]]. *)
Definition subscript (c : option (dict string)) (key : string) : result string :=
  match c with
  | None => Raise (Exn TypeError "'NoneType' object is not subscriptable")
  | Some d =>
      match lookup key d with
      | Some v => Ok v
      | None => Raise (key_error key)
      end
  end.

(** [config.get(key)]. *)
Definition config_get (c : option (dict string)) (key : string)
  : result (option string) :=
  match c with
  | None => Raise (Exn AttributeError "'NoneType' object has no attribute 'get'")
  | Some d => Ok (lookup key d)
  end.

(** [preference == 'person_only']. *)
Definition is_person_only (preference : option string) : bool :=
  match preference with
  | Some p => String.eqb p "person_only"
  | None => false
  end.

Record RecruitmentEmailAgent : Type := mkAgent {
  config_manager : ConfigManager;
  ollama_client : OllamaClient;
  resume_folder : string;
  log_file : string
}.

(** [RecruitmentEmailAgent.__init__], the folder creation apart. *)
Definition RecruitmentEmailAgent_init (cm : ConfigManager) : RecruitmentEmailAgent :=
  mkAgent cm default_ollama "resume" "sent_emails.json".

(** [open(resume_file, "rb").read()]. *)
Definition read_binary (p : Path) : M string :=
  fun w => (open_rb w (path_str p), w).

(** [RecruitmentEmailAgent._create_email_message]; the transfer
    encoding of the attachment and the size shown on the console are
    left out. *)
Definition _create_email_message (self : RecruitmentEmailAgent)
  (recipient_email : string) (recipient_name company_name bcc_email : option string)
  (subject body : string) (resume_file : Path) : M ComposedMessage :=
  let config := get_config (config_manager self) in
  sender_name <- lift (subscript config "sender_name") ;;
  sender_email <- lift (subscript config "sender_email") ;;
  let from := sender_name ++ " <" ++ sender_email ++ ">" in
  let bcc := if PyStr.truthy_opt bcc_email then bcc_email else None in
  try_except
    (payload <- read_binary resume_file ;;
     let part := ("attachment; filename= " ++ name resume_file, payload) in
     print ("Attached: " ++ name resume_file) ;;
     ret (Message from recipient_email subject bcc body part))
    (fun e => print ("Failed to attach resume: " ++ text e) ;; raise e).

(** The session after a failed step: [smtplib] drops the socket when
    the server has gone, and leaves it as it is otherwise. *)
Definition after_failure (e : exn) (c : conn_state) : conn_state :=
  match cls e with
  | SMTPServerDisconnected => Closed
  | _ => c
  end.

(** One call on the session: it is recorded, then the relay decides. *)
Definition smtp_step (call : smtp_call) (outcome : smtp_behaviour -> option exn)
  (next : conn_state) : M unit :=
  fun w =>
    let calls := (smtp_calls w ++ [call])%list in
    match outcome (smtp_relay w) with
    | None => (Ok tt, set_smtp next calls w)
    | Some e => (Raise e, set_smtp (after_failure e (smtp_conn w)) calls w)
    end.

(** [smtplib.SMTP(host, port)]: a new session; no socket is left when
    the connection fails. *)
Definition SMTP (host : string) (port : nat) : M unit :=
  fun w =>
    let calls := (smtp_calls w ++ [CallSMTP host port])%list in
    match on_connect (smtp_relay w) with
    | None => (Ok tt, set_smtp Connected calls w)
    | Some e => (Raise e, set_smtp Disconnected calls w)
    end.

Definition starttls : M unit := smtp_step CallStarttls on_starttls Encrypted.
Definition login (user password : string) : M unit :=
  smtp_step (CallLogin user password) on_login Authenticated.
Definition send_message (m : ComposedMessage) (to_addrs : list string) : M unit :=
  smtp_step (CallSendMessage m to_addrs) (fun relay => on_send_message relay to_addrs) Sent.
Definition quit : M unit := smtp_step CallQuit on_quit Closed.

(** The [except] clauses of [_send_via_smtp]. *)
Definition smtp_handlers (e : exn) : M bool :=
  match cls e with
  | SMTPAuthenticationError =>
      print "Gmail authentication failed!" ;;
      print "Check your Gmail App Password (not regular password)" ;;
      print "Help: https://support.google.com/accounts/answer/185833" ;;
      ret false
  | SMTPRecipientsRefused =>
      print "Recipient email address rejected by server!" ;; ret false
  | SMTPServerDisconnected =>
      print "SMTP server disconnected unexpectedly!" ;; ret false
  | _ =>
      print ("SMTP error: " ++ text e) ;; ret false
  end.

(** [RecruitmentEmailAgent._send_via_smtp]. *)
Definition _send_via_smtp (self : RecruitmentEmailAgent) (message : ComposedMessage)
  (recipients : list string) : M bool :=
  let config := get_config (config_manager self) in
  try_except
    (print "Connecting to Gmail SMTP..." ;;
     SMTP "smtp.gmail.com" 587 ;;
     starttls ;;
     print "Authenticating..." ;;
     sender_email <- lift (subscript config "sender_email") ;;
     sender_password <- lift (subscript config "sender_password") ;;
     login sender_email sender_password ;;
     print "Sending email..." ;;
     send_message message recipients ;;
     quit ;;
     ret true)
    smtp_handlers.

(** [template.format(...)] in the running interpreter. *)
Definition render (template : string) (kwargs : dict string) : M string :=
  fun w => (str_format (format_field w) template kwargs, w).

(** The first half of the [try] block of [send_recruitment_email]:
    subject, body, message and recipient list. *)
Definition compose_email (self : RecruitmentEmailAgent) (config : option (dict string))
  (recipient_email : string) (recipient_name company_name bcc_email : option string)
  (resume_file : Path) (custom_subject : option string)
  : M (string * ComposedMessage * list string) :=
  subject <-
    (if PyStr.truthy_opt custom_subject then
       let custom := PyStr.or_else custom_subject PyStr.empty in
       print ("Using custom subject: " ++ custom) ;;
       ret custom
     else
       print "Generating personalized subject line..." ;;
       sender_name <- lift (subscript config "sender_name") ;;
       generate_subject_line (ollama_client self) recipient_name company_name sender_name) ;;
  print "Preparing email content..." ;;
  template <- lift (subscript config "email_template") ;;
  let display_name := PyStr.or_else recipient_name "Hiring Manager" in
  let display_company := PyStr.or_else company_name "your organization" in
  preference <- lift (config_get config "template_preference") ;;
  email_body <-
    (if is_person_only preference then
       sender_name <- lift (subscript config "sender_name") ;;
       render template [ ("name", display_name); ("sender_name", sender_name) ]
     else
       sender_name <- lift (subscript config "sender_name") ;;
       render template [ ("name", display_name); ("company", display_company);
                         ("sender_name", sender_name) ]) ;;
  print "Composing email..." ;;
  message <- _create_email_message self recipient_email recipient_name company_name
               bcc_email subject email_body resume_file ;;
  let recipients :=
    match bcc_email with
    | Some b => if PyStr.truthy b then [recipient_email; b] else [recipient_email]
    | None => [recipient_email]
    end in
  (if PyStr.truthy_opt bcc_email
   then print ("BCC: " ++ PyStr.or_else bcc_email PyStr.empty) else ret tt) ;;
  ret (subject, message, recipients).

(** The second half: delivery, the log entry, the report. *)
Definition deliver_and_log (self : RecruitmentEmailAgent) (recipient_email : string)
  (company_name bcc_email : option string) (resume_file : Path)
  (subject : string) (message : ComposedMessage) (recipients : list string) : M bool :=
  success <- _send_via_smtp self message recipients ;;
  log_email_activity (log_file self) recipient_email company_name subject success
    (if success then None else Some "SMTP sending failed") ;;
  (if success then
     print "Email sent successfully!" ;;
     print ("Subject: " ++ subject) ;;
     print ("To: " ++ recipient_email) ;;
     (if PyStr.truthy_opt bcc_email
      then print ("BCC: " ++ PyStr.or_else bcc_email PyStr.empty) else ret tt) ;;
     print ("Attachment: " ++ name resume_file)
   else ret tt) ;;
  ret success.

(** The [try] block of [send_recruitment_email]. *)
Definition send_attempt (self : RecruitmentEmailAgent) (config : option (dict string))
  (recipient_email : string) (recipient_name company_name bcc_email : option string)
  (resume_file : Path) (custom_subject : option string) : M bool :=
  composed <- compose_email self config recipient_email recipient_name company_name
                bcc_email resume_file custom_subject ;;
  let '(subject, message, recipients) := composed in
  deliver_and_log self recipient_email company_name bcc_email resume_file
    subject message recipients.

(** [RecruitmentEmailAgent.send_recruitment_email]. *)
Definition send_recruitment_email (self : RecruitmentEmailAgent)
  (recipient_email : string) (recipient_name company_name bcc_email : option string)
  (resume_file : Path) (custom_subject : option string) : M bool :=
  let config := get_config (config_manager self) in
  if negb (truthy_config config) then
    print "No configuration found!" ;;
    ret false
  else
    try_except
      (send_attempt self config recipient_email recipient_name company_name
         bcc_email resume_file custom_subject)
      (fun e =>
         if is_FileNotFoundError e then
           let error_msg := "Resume file not found: " ++ path_str resume_file in
           print error_msg ;;
           log_email_activity (log_file self) recipient_email company_name
             "Failed - File Not Found" false (Some error_msg) ;;
           ret false
         else
           let error_msg := "Unexpected error: " ++ text e in
           print error_msg ;;
           log_email_activity (log_file self) recipient_email company_name
             "Failed - Unexpected Error" false (Some error_msg) ;;
           ret false).

(* ===================================================================== *)
(** ** What a computation leaves alone *)
(* ===================================================================== *)

(** [m] never changes the observation [f] of the world. *)
Definition preserves {A X : Type} (f : World -> X) (m : M A) : Prop :=
  forall w, f (world_of (m w)) = f w.

(** Every exception [m] can end with satisfies [P]. *)
Definition raises_only {A : Type} (P : exn -> Prop) (m : M A) : Prop :=
  forall w e, value_of (m w) = Raise e -> P e.

(** [m] always ends with a value. *)
Definition never_raises {A : Type} (m : M A) : Prop :=
  raises_only (fun _ => False) m.

(** Observations that do not look at the console, the HTTP traffic, the
    SMTP session. *)
Definition console_blind {X : Type} (f : World -> X) : Prop :=
  forall v w, f (set_stdout v w) = f w.

Definition http_blind {X : Type} (f : World -> X) : Prop :=
  forall v w, f (set_http_calls v w) = f w.

Definition smtp_blind {X : Type} (f : World -> X) : Prop :=
  forall c v w, f (set_smtp c v w) = f w.

(** Observations that do not look at the disk or at the number of
    clock readings. *)
Definition disk_blind {X : Type} (f : World -> X) : Prop :=
  (forall v w, f (set_files v w) = f w)
  /\ (forall v w, f (set_clock_reads v w) = f w).

(* ===================================================================== *)
(** ** The log as a list of records *)
(* ===================================================================== *)

(** The states of the log file [log_email_activity] can append to: no
    file, a file of text that is not JSON, a JSON array. *)
Definition appendable (st : file_state) : bool :=
  match st with
  | Absent | Corrupt _ | Document (JArr _) => true
  | _ => false
  end.

(** The records [log_email_activity] keeps from the file it finds. *)
Definition prior_records (st : file_state) : list json :=
  match st with
  | Document (JArr l) => l
  | _ => []
  end.

(** A body of the model listing as the service documents it: no JSON
    at all, or an object whose [models], when present, is an array of
    objects with a string [name]. *)
Definition entry_ok (model : json) : bool :=
  match model with
  | JObj f => match lookup "name" f with
              | Some (JStr _) => true
              | _ => false
              end
  | _ => false
  end.

Definition listing_ok (b : option json) : bool :=
  match b with
  | None => true
  | Some (JObj d) =>
      match lookup "models" d with
      | None => true
      | Some (JArr l) => forallb entry_ok l
      | Some _ => false
      end
  | Some _ => false
  end.

(** Every successful answer to a [GET] carries such a body. *)
Definition sound_listings (w : World) : Prop :=
  forall n url t r,
    http_service w n (GET url t) = Responds r ->
    status_code r = 200 -> listing_ok (body r) = true.

Definition is_JStr (v : json) : bool :=
  match v with JStr _ => true | _ => false end.

(** What the display of [show_recent_emails] owes to one logged request
    whose timestamp reads [minute]: the time and the outcome, the
    recipient, the company unless it is the sentinel, the subject, the
    error of a failed attempt, an empty line. *)
Definition shown_record (minute : string) (q : LogRequest) : list string :=
  let company := PyStr.or_else (req_company q) "Not specified" in
  let outcome := minute ++ " | " ++ (if req_success q then "Sent" else "Failed") in
  let company_line :=
    if String.eqb company "Not specified" then [] else ["   Company: " ++ company] in
  let error_line :=
    if req_success q then []
    else match req_error q with
         | Some error => if PyStr.truthy error then ["   Error: " ++ error] else []
         | None => []
         end in
  ([ outcome; "   To: " ++ req_recipient q ]%string
   ++ company_line
   ++ [ "   Subject: " ++ req_subject q ]%string
   ++ error_line
   ++ [ EmptyString ])%list.

(** The lines of a display that name a recipient. *)
Definition recipient_lines (out : list string) : list string :=
  filter (fun line => PyStr.startswith line "   To: ") out.

(** The field [key] of a record. *)
Definition field (key : string) (record : json) : option json :=
  match record with
  | JObj d => lookup key d
  | _ => None
  end.

(** The entries a run of requests writes when the clock has been read
    [n] times before. *)
Fixpoint entries_from (clock : nat -> string) (n : nat) (reqs : list LogRequest)
  : list json :=
  match reqs with
  | [] => []
  | r :: reqs' =>
      log_entry (clock n) (req_recipient r) (req_company r) (req_subject r)
        (req_success r) (req_error r)
      :: entries_from clock (S n) reqs'
  end.

Definition count_connects (calls : list smtp_call) : nat :=
  length (filter (fun c => match c with CallSMTP _ _ => true | _ => false end) calls).

Definition quits (calls : list smtp_call) : bool :=
  existsb (fun c => match c with CallQuit => true | _ => false end) calls.

(* ===================================================================== *)
(** ** Sample worlds *)
(* ===================================================================== *)

Definition sample_clock (n : nat) : string := "2024-05-01T09:00:00.00000" ++ str_of_nat n.

(** A runtime for the samples: the minute of a timestamp in ISO form,
    and [str] of a number. *)
Definition sample_strftime (ts : string) : result string :=
  Ok (PyStr.take 10 ts ++ " " ++ PyStr.take 5 (PyStr.drop 11 ts)).

Definition sample_str (v : json) : string :=
  match v with
  | JNum literal => literal
  | _ => EmptyString
  end.

(** Six requests to the logger. *)
Definition six_requests : list LogRequest :=
  [ mkLogRequest "a@b.com" (Some "Acme") "Application - Jane Doe" true None;
    mkLogRequest "c@d.org" None "Failed - File Not Found" false
      (Some "Resume file not found: resume/cv.pdf");
    mkLogRequest "e@f.net" None "Application - Jane Doe" true None;
    mkLogRequest "g@h.io" (Some "Initech") "Application - Jane Doe" false
      (Some "SMTP sending failed");
    mkLogRequest "i@j.dev" None "Application - Jane Doe" true None;
    mkLogRequest "k@l.com" None "Application - Jane Doe" true None ].

(** Nothing listens on the HTTP port, the relay accepts everything,
    the resume can be read, there is no log file yet. *)
Definition plain_world : World :=
  mkWorld (fun _ _ => Unreachable Refused) []
          (Relay None None None (fun _ => None) None) Disconnected []
          (fun _ => Ok "%PDF-1.4") (fun _ => Absent) (fun _ => Written)
          sample_clock 0
          (fun _ _ => Raise (Exn ValueError "Invalid format specifier"))
          [].

Definition with_service (service : nat -> http_request -> http_outcome) (w : World)
  : World :=
  mkWorld service (http_calls w) (smtp_relay w) (smtp_conn w) (smtp_calls w)
          (open_rb w) (files w) (on_write w) (clock w) (clock_reads w)
          (format_field w) (stdout w).

Definition with_relay (relay : smtp_behaviour) (w : World) : World :=
  mkWorld (http_service w) (http_calls w) relay (smtp_conn w) (smtp_calls w)
          (open_rb w) (files w) (on_write w) (clock w) (clock_reads w)
          (format_field w) (stdout w).

(** The service lists one model whose entry has no [name]. *)
Definition listing_without_name : json :=
  JObj [ ("models", JArr [ JObj [ ("model", JStr "mistral:latest") ] ]) ].

Definition world_listing_without_name : World :=
  with_service (fun _ _ => Responds (Response 200 (Some listing_without_name)))
    plain_world.

(** The service lists the model [mistral] and answers the generation
    request with a subject. *)
Definition world_model_ready : World :=
  with_service
    (fun _ request =>
       match request with
       | GET _ _ =>
           Responds (Response 200
                       (Some (JObj [ ("models",
                                      JArr [ JObj [ ("name", JStr "mistral:latest") ] ]) ])))
       | POST _ _ _ =>
           Responds (Response 200
                       (Some (JObj [ ("response",
                                      JStr "Backend Engineer Application - Jane Doe") ])))
       end)
    plain_world.

(** The relay refuses the credentials. *)
Definition world_bad_password : World :=
  with_relay (Relay None None
                (Some (Exn SMTPAuthenticationError "(535, b'5.7.8 Username and Password not accepted')"))
                (fun _ => None) None) plain_world.

(** The relay refuses every recipient. *)
Definition world_recipient_refused : World :=
  with_relay (Relay None None None
                (refusing (fun _ => true)
                   "{'a@b.com': (550, b'5.1.1 No such user'), 'x@y.com': (550, b'5.1.1 No such user')}")
                None) plain_world.


(** The log file holds a JSON object, not an array. *)
Definition world_object_log : World :=
  set_files (fun p => if String.eqb p "sent_emails.json" then Document (JObj []) else Absent)
    plain_world.

Definition sample_config : dict string :=
  [ ("sender_email", "jane@example.com");
    ("sender_password", "abcd efgh ijkl mnop");
    ("sender_name", "Jane Doe");
    ("email_template", "Dear {name}, I would like to join {company}. Regards, {sender_name}");
    ("template_preference", "person_company");
    ("setup_date", "2024-04-30 18:00:00.000000") ].

Definition sample_agent : RecruitmentEmailAgent :=
  RecruitmentEmailAgent_init (mkConfigManager "email_config.json" (Some sample_config)).

Definition unconfigured_agent : RecruitmentEmailAgent :=
  RecruitmentEmailAgent_init (mkConfigManager "email_config.json" None).

Definition sample_resume : Path := mkPath "resume/jane_doe.pdf" "jane_doe.pdf".

Definition sample_message : ComposedMessage :=
  Message "Jane Doe <jane@example.com>" "a@b.com" "Software Engineer Application - Jane Doe"
          (Some "x@y.com") "Dear Hiring Manager" ("attachment; filename= jane_doe.pdf", "%PDF-1.4").

Definition long_raw_subject : string :=
  "Subject: Application for the Senior Software Engineer opening in your platform team - Jane Doe".

(** A configuration that prefers the person-only template, with a
    template that still names the company. *)
Definition person_only_config : dict string :=
  [ ("sender_email", "jane@example.com");
    ("sender_password", "abcd efgh ijkl mnop");
    ("sender_name", "Jane Doe");
    ("email_template", "Dear {name}, I admire {company}. Regards, {sender_name}");
    ("template_preference", "person_only");
    ("setup_date", "2024-04-30 18:00:00.000000") ].

Definition person_only_agent : RecruitmentEmailAgent :=
  RecruitmentEmailAgent_init (mkConfigManager "email_config.json" (Some person_only_config)).

(** A template with one placeholder and a closing brace of its own. *)
Definition smiley_template : string := "Dear {name}, see you soon :-}".

(** What one call of the logger with [record] in hand leaves behind,
    from a world [w] to a world [w']: the record added at the end of
    the log when the file is written; the files untouched and the
    failure on the console when the file cannot be opened; what the
    write has left of the log, and the failure on the console, when
    the write breaks. *)
Definition logged (log_file : string) (w w' : World) (record : json) : Prop :=
  match on_write w log_file with
  | Written =>
      files w' log_file
      = Document (JArr (prior_records (files w log_file) ++ [record])%list)
  | NotOpened e =>
      files w' = files w
      /\ In ("Failed to write to log file: " ++ text e) (stdout w')
  | Broken e remains =>
      files w' log_file = remains
      /\ In ("Failed to write to log file: " ++ text e) (stdout w')
  end.

(** Whether a write to [path] succeeds, and what the dump of [j] makes
    of the file there. *)
Definition written (w : World) (path : string) : bool :=
  match on_write w path with
  | Written => true
  | _ => false
  end.

Definition file_after_write (w : World) (path : string) (j : json) : file_state :=
  match on_write w path with
  | Written => Document j
  | NotOpened _ => files w path
  | Broken _ remains => remains
  end.


(* ===================================================================== *)
(** ** Observations on strings and on runs *)
(* ===================================================================== *)

(** [c in s] for a character. *)
Fixpoint occurs (c : ascii) (s : string) : bool :=
  match s with
  | EmptyString => false
  | String d r => Ascii.eqb d c || occurs c r
  end.

(** The number of occurrences of [c] in [s]: [s.count(c)]. *)
Fixpoint count_char (c : ascii) (s : string) : nat :=
  match s with
  | EmptyString => 0
  | String d r => (if Ascii.eqb d c then 1 else 0) + count_char c r
  end.

(** Every character of [s] satisfies [p]. *)
Fixpoint all_chars (p : ascii -> bool) (s : string) : bool :=
  match s with
  | EmptyString => true
  | String c r => p c && all_chars p r
  end.

(** Every value [m] can end with satisfies [Q]. *)
Definition returns_only {A : Type} (Q : A -> Prop) (m : M A) : Prop :=
  forall w a, value_of (m w) = Ok a -> Q a.

(** [m] only adds HTTP requests to those already made, at most [n]. *)
Definition adds_requests {A : Type} (n : nat) (m : M A) : Prop :=
  forall w, exists extra,
    http_calls (world_of (m w)) = (http_calls w ++ extra)%list /\ length extra <= n.

(** The service answers every request with status 503 and no body. *)
Definition world_service_unavailable : World :=
  with_service (fun _ _ => Responds (Response 503 None)) plain_world.

(** The calls that carry the credentials or the message. *)
Definition carries_secret (c : smtp_call) : bool :=
  match c with
  | CallLogin _ _ | CallSendMessage _ _ => true
  | _ => false
  end.

(** The relay takes the message and then drops the connection on QUIT. *)
Definition world_quit_fails : World :=
  with_relay (Relay None None None (fun _ => None)
                (Some (Exn SMTPServerDisconnected "Connection unexpectedly closed")))
    plain_world.

(** The relay does not offer STARTTLS. *)
Definition world_no_starttls : World :=
  with_relay (Relay None
                (Some (Exn SMTPException "STARTTLS extension not supported by server."))
                None (fun _ => None) None) plain_world.

(** Nothing can be written to the disk: [open(.., 'w')] is denied. *)
Definition world_read_only : World :=
  mkWorld (http_service plain_world) (http_calls plain_world)
          (smtp_relay plain_world) (smtp_conn plain_world) (smtp_calls plain_world)
          (open_rb plain_world) (files plain_world)
          (fun path => NotOpened (Exn PermissionError
                                    (errno_text 13 "Permission denied" path)))
          (clock plain_world) (clock_reads plain_world)
          (format_field plain_world) (stdout plain_world).

(** The log file exists and is empty, which is not JSON. *)
Definition world_corrupt_log : World :=
  set_files (fun p => if String.eqb p "sent_emails.json"
                      then Corrupt "Expecting value: line 1 column 1 (char 0)"
                      else Absent)
    plain_world.

(** The resume has been removed. *)
Definition world_without_resume : World :=
  mkWorld (http_service plain_world) (http_calls plain_world)
          (smtp_relay plain_world) (smtp_conn plain_world) (smtp_calls plain_world)
          (fun p => Raise (Exn FileNotFoundError
                             (errno_text 2 "No such file or directory" p)))
          (files plain_world) (on_write plain_world)
          (clock plain_world) (clock_reads plain_world)
          (format_field plain_world) (stdout plain_world).

(** [m] started in a world where [I] holds never ends with a value. *)
Definition never_returns {A : Type} (I : World -> Prop) (m : M A) : Prop :=
  forall w, I w -> exists e, value_of (m w) = Raise e.

(** [m] keeps [I]. *)
Definition keeps {A : Type} (I : World -> Prop) (m : M A) : Prop :=
  forall w, I w -> I (world_of (m w)).

(* ===================================================================== *)
(** ** utils.py: validate_email and clean_string_for_filename *)
(* ===================================================================== *)

(** Regular expressions, as far as the pattern of [validate_email]
    needs them. *)
Inductive regex : Type :=
| Nothing                          (* no string *)
| Epsilon                          (* the empty string *)
| Class (p : ascii -> bool)        (* one character of a class *)
| Cat (r1 r2 : regex)
| Alt (r1 r2 : regex)
| Star (r : regex).

(** [r+], [r{2,}] and a literal character. *)
Definition Plus (r : regex) : regex := Cat r (Star r).
Definition AtLeast2 (r : regex) : regex := Cat r (Cat r (Star r)).
Definition Lit (c : ascii) : regex := Class (Ascii.eqb c).

(** The strings a regular expression denotes. *)
Inductive matches : regex -> string -> Prop :=
| MEpsilon : matches Epsilon EmptyString
| MClass (p : ascii -> bool) (c : ascii) :
    p c = true -> matches (Class p) (String c EmptyString)
| MCat (r1 r2 : regex) (s1 s2 : string) :
    matches r1 s1 -> matches r2 s2 -> matches (Cat r1 r2) (s1 ++ s2)
| MAltL (r1 r2 : regex) (s : string) : matches r1 s -> matches (Alt r1 r2) s
| MAltR (r1 r2 : regex) (s : string) : matches r2 s -> matches (Alt r1 r2) s
| MStarNil (r : regex) : matches (Star r) EmptyString
| MStarApp (r : regex) (s1 s2 : string) :
    matches r s1 -> matches (Star r) s2 -> matches (Star r) (s1 ++ s2).

Fixpoint nullable (r : regex) : bool :=
  match r with
  | Nothing => false
  | Epsilon => true
  | Class _ => false
  | Cat r1 r2 => nullable r1 && nullable r2
  | Alt r1 r2 => nullable r1 || nullable r2
  | Star _ => true
  end.

(** What is left of [r] after the character [c]. *)
Fixpoint derivative (c : ascii) (r : regex) : regex :=
  match r with
  | Nothing => Nothing
  | Epsilon => Nothing
  | Class p => if p c then Epsilon else Nothing
  | Cat r1 r2 =>
      if nullable r1
      then Alt (Cat (derivative c r1) r2) (derivative c r2)
      else Cat (derivative c r1) r2
  | Alt r1 r2 => Alt (derivative c r1) (derivative c r2)
  | Star r1 => Cat (derivative c r1) (Star r1)
  end.

(** [re.match('^' r '$', s) is not None] for a string [s] that does
    not end in a line feed. *)
Fixpoint re_match (r : regex) (s : string) : bool :=
  match s with
  | EmptyString => nullable r
  | String c s' => re_match (derivative c r) s'
  end.

Definition in_range (lo hi : nat) (c : ascii) : bool :=
  (lo <=? nat_of_ascii c) && (nat_of_ascii c <=? hi).

(** [[a-zA-Z]], [[a-zA-Z0-9.-]] and [[a-zA-Z0-9._%+-]]. *)
Definition is_letter (c : ascii) : bool := in_range 97 122 c || in_range 65 90 c.

Definition is_domain_char (c : ascii) : bool :=
  is_letter c || in_range 48 57 c || Ascii.eqb c "." || Ascii.eqb c "-".

Definition is_local_char (c : ascii) : bool :=
  is_letter c || in_range 48 57 c || Ascii.eqb c "." || Ascii.eqb c "_"
  || Ascii.eqb c "%" || Ascii.eqb c "+" || Ascii.eqb c "-".

(** [^[a-zA-Z0-9._%+-]+@[a-zA-Z0-9.-]+\.[a-zA-Z]{2,}$]. *)
Definition email_pattern : regex :=
  Cat (Plus (Class is_local_char))
      (Cat (Lit "@")
           (Cat (Plus (Class is_domain_char))
                (Cat (Lit ".") (AtLeast2 (Class is_letter))))).

(** [validate_email]. *)
Definition validate_email (email : string) : bool :=
  if negb (PyStr.truthy email) then false
  else re_match email_pattern (PyStr.strip email).

(** The characters [clean_string_for_filename] replaces. *)
Definition invalid_chars : string := "<>:" ++ PyStr.dq ++ "/\|?*".

(** [clean_string_for_filename]. *)
Definition clean_string_for_filename (text : string) : string :=
  let text := fold_left (fun text char => PyStr.replace char "_" text)
                (list_ascii_of_string invalid_chars) text in
  PyStr.take 50 (PyStr.strip text).

(* ===================================================================== *)
(** ** email_agent.py: test_email_setup *)
(* ===================================================================== *)

(** The [except] clauses of [test_email_setup]. *)
Definition test_handlers (e : exn) : M bool :=
  match cls e with
  | SMTPAuthenticationError =>
      print "Authentication failed!" ;;
      print "Check your Gmail App Password" ;;
      ret false
  | _ =>
      print ("Connection test failed: " ++ text e) ;; ret false
  end.

(** [RecruitmentEmailAgent.test_email_setup]. *)
Definition test_email_setup (self : RecruitmentEmailAgent) : M bool :=
  let config := get_config (config_manager self) in
  if negb (truthy_config config) then
    print "No email configuration found!" ;; ret false
  else
    print "Testing email setup..." ;;
    try_except
      (print "Testing Gmail SMTP connection..." ;;
       SMTP "smtp.gmail.com" 587 ;;
       starttls ;;
       sender_email <- lift (subscript config "sender_email") ;;
       sender_password <- lift (subscript config "sender_password") ;;
       login sender_email sender_password ;;
       quit ;;
       ret true)
      test_handlers.

(** The call that hands over a message. *)
Definition sends_message (c : smtp_call) : bool :=
  match c with
  | CallSendMessage _ _ => true
  | _ => false
  end.

(* ===================================================================== *)
(** ** utils.py: questions on the console *)
(* ===================================================================== *)

(** What an interactive function puts on the console: the prompt of an
    [input] call, or a printed line. *)
Inductive console_event : Type :=
| Prompt (s : string)
| Printed (s : string).

(** The end of a function that calls [input], given the lines waiting
    on standard input (without their line ends): a value and the lines
    left unread, the [EOFError] of an [input] call on an exhausted
    input, which none of these functions catches, or another
    exception. *)
Inductive asked (A : Type) : Type :=
| Answered (a : A) (unread : list string)
| EOFError
| Raised (e : exn).
Arguments Answered {A} a unread.
Arguments EOFError {A}.
Arguments Raised {A} e.

(** One more turn of a [while True] loop: what the turn has shown comes
    before what the rest of the loop shows. *)
Definition again {A : Type} (shown : list console_event)
  (rest : asked A * list console_event) : asked A * list console_event :=
  (fst rest, (shown ++ snd rest)%list).

(** [get_user_input]. *)
Fixpoint get_user_input (prompt : string) (validator : option (string -> bool))
  (error_msg : string) (stdin : list string) : asked string * list console_event :=
  match stdin with
  | [] => (EOFError, [Prompt prompt])
  | line :: stdin' =>
      let user_input := PyStr.strip line in
      match validator with
      | None => (Answered user_input stdin', [Prompt prompt])
      | Some validate =>
          if validate user_input then (Answered user_input stdin', [Prompt prompt])
          else again [Prompt prompt; Printed error_msg]
                     (get_user_input prompt validator error_msg stdin')
      end
  end.

(** [x in items] for strings. *)
Definition among (x : string) (items : list string) : bool :=
  existsb (String.eqb x) items.

(** [confirm_action]. *)
Fixpoint confirm_action (message : string) (stdin : list string)
  : asked bool * list console_event :=
  let prompt := Prompt (message ++ " (y/N): ") in
  match stdin with
  | [] => (EOFError, [prompt])
  | line :: stdin' =>
      let response := PyStr.strip (PyStr.lower line) in
      if among response ["y"; "yes"] then (Answered true stdin', [prompt])
      else if among response ["n"; "no"; ""] then (Answered false stdin', [prompt])
      else again [prompt; Printed "Please enter 'y' for yes or 'n' for no."]
                 (confirm_action message stdin')
  end.

Section SelectResumeFile.

(** [int(choice)], [None] when it raises [ValueError]; and the line of
    size and modification time that the listing shows for a file,
    unless [file.stat()] raises. *)
Variable py_int : string -> option Z.
Variable stat_line : Path -> result string.

(** The listing: [for i, file in enumerate(resume_files, 1)]. *)
Fixpoint show_files (i : nat) (resume_files : list Path)
  : option exn * list console_event :=
  match resume_files with
  | [] => (None, [])
  | file :: rest =>
      match stat_line file with
      | Raise e => (Some e, [])
      | Ok line =>
          let shown := [Printed (str_of_nat i ++ ". " ++ name file); Printed line] in
          (fst (show_files (S i) rest), (shown ++ snd (show_files (S i) rest))%list)
      end
  end.

(** The [while True] loop of [select_resume_file]. *)
Fixpoint ask_choice (resume_files : list Path) (stdin : list string)
  : asked (option Path) * list console_event :=
  let count := str_of_nat (length resume_files) in
  let prompt := Prompt ("Select resume file (1-" ++ count ++ "): ") in
  match stdin with
  | [] => (EOFError, [prompt])
  | line :: stdin' =>
      let choice := PyStr.strip line in
      if String.eqb choice "" then
        again [prompt; Printed "Please make a selection."]
              (ask_choice resume_files stdin')
      else
        match py_int choice with
        | None =>
            again [prompt; Printed "Please enter a valid number."]
                  (ask_choice resume_files stdin')
        | Some number =>
            let index := (number - 1)%Z in
            if ((0 <=? index) && (index <? Z.of_nat (length resume_files)))%Z then
              match nth_error resume_files (Z.to_nat index) with
              | Some file => (Answered (Some file) stdin', [prompt])
              | None => (Raised (Exn IndexError "list index out of range"), [prompt])
              end
            else
              again [prompt;
                     Printed ("Please enter a number between 1 and " ++ count ++ ".")]
                    (ask_choice resume_files stdin')
        end
  end.

(** [select_resume_file]. *)
Definition select_resume_file (resume_files : list Path) (stdin : list string)
  : asked (option Path) * list console_event :=
  match resume_files with
  | [] => (Answered None stdin, [])
  | [file] => (Answered (Some file) stdin, [])
  | _ =>
      let header :=
        [ Printed (PyStr.nl ++ "Found " ++ str_of_nat (length resume_files)
                   ++ " resume files:");
          Printed "----------------------------------------" ] in
      match show_files 1 resume_files with
      | (Some e, shown) => (Raised e, (header ++ shown)%list)
      | (None, shown) =>
          again (header ++ shown ++ [Printed "----------------------------------------"])
                (ask_choice resume_files stdin)
      end
  end.

End SelectResumeFile.

(* ===================================================================== *)
(** ** config_manager.py: the setup from files *)
(* ===================================================================== *)

(** A text file as [os.path.exists] and [open(.., 'r')] see it; the
    text is what [f.read()] gives. *)
Inductive text_file : Type :=
| NoFile
| NoAccess (e : exn)          (* exists, [open] or the reading raises *)
| Text (content : string).

(** The lines that iterating over a text file gives, each with its
    line end, the last one perhaps without. *)
Fixpoint lines_from (line : string) (content : string) : list string :=
  match content with
  | EmptyString => if PyStr.truthy line then [line] else []
  | String c rest =>
      if Ascii.eqb c PyStr.LF then snoc line c :: lines_from EmptyString rest
      else lines_from (snoc line c) rest
  end.

Definition file_lines (content : string) : list string :=
  lines_from EmptyString content.

(** [s.split(c, 1)[1]] when [c] occurs in [s]: the text after the
    first [c]. *)
Fixpoint split_rest (c : ascii) (s : string) : string :=
  match s with
  | EmptyString => EmptyString
  | String d r => if Ascii.eqb d c then r else split_rest c r
  end.

(** [d[k] = v]: the value of an existing key is replaced where it
    stands, a new key goes to the end. *)
Fixpoint dict_set {V : Type} (k : string) (v : V) (d : dict V) : dict V :=
  match d with
  | [] => [(k, v)]
  | (k', v') :: d' =>
      if String.eqb k k' then (k', v) :: d' else (k', v') :: dict_set k v d'
  end.

(** [d.get(k, default)]. *)
Definition get_default (d : dict string) (k default : string) : string :=
  match lookup k d with
  | Some v => v
  | None => default
  end.

(** The body of the loop over the lines of [setup_details.txt]. *)
Definition setup_line (details : dict string) (line : string) : dict string :=
  let line := PyStr.strip line in
  if PyStr.truthy line && negb (PyStr.startswith line "#") && occurs "=" line
  then
    let key := PyStr.split_head "=" line in
    let value := split_rest "=" line in
    dict_set (PyStr.strip key) (PyStr.strip value) details
  else details.

Definition required_fields : list string :=
  ["GMAIL_EMAIL"; "GMAIL_APP_PASSWORD"; "SENDER_NAME"].

(** [ConfigManager.read_setup_details]; [texts] is the text files of
    the working directory. *)
Definition read_setup_details (texts : string -> text_file)
  : M (option (dict string)) :=
  let setup_file := "setup_details.txt" in
  match texts setup_file with
  | NoFile =>
      print (setup_file ++ " not found!") ;;
      print "Please create and fill out setup_details.txt with your Gmail credentials." ;;
      print "See setup_details.txt template in the repository." ;;
      ret None
  | NoAccess e =>
      print ("Error reading " ++ setup_file ++ ": " ++ text e) ;; ret None
  | Text content =>
      let details := fold_left setup_line (file_lines content) [] in
      let missing_fields :=
        filter (fun field => negb (PyStr.truthy_opt (lookup field details)))
               required_fields in
      match missing_fields with
      | [] => ret (Some details)
      | _ :: _ =>
          print ("Missing required fields in " ++ setup_file ++ ": "
                 ++ PyStr.join ", " missing_fields) ;;
          ret None
      end
  end.

Definition template_files : dict string :=
  [ ("person_only", "template_person_only.txt");
    ("person_company", "template_person_company.txt") ].

Fixpoint print_each (lines : list string) : M unit :=
  match lines with
  | [] => ret tt
  | line :: rest => print line ;; print_each rest
  end.

(** [ConfigManager.read_email_template]. *)
Definition read_email_template (texts : string -> text_file)
  (template_preference : string) : M (option string) :=
  let template_file :=
    get_default template_files template_preference "template_person_company.txt" in
  match texts template_file with
  | NoFile =>
      print ("Template file " ++ template_file ++ " not found!") ;;
      print "Please create the template files:" ;;
      print_each (map (fun kf => "   - " ++ snd kf ++ " (for " ++ fst kf ++ " emails)")
                      template_files) ;;
      ret None
  | NoAccess e =>
      print ("Error reading template file " ++ template_file ++ ": " ++ text e) ;;
      ret None
  | Text content =>
      let template := PyStr.strip content in
      if negb (PyStr.truthy template) then
        print ("Template file " ++ template_file ++ " is empty!") ;; ret None
      else ret (Some template)
  end.

(** The configuration as [json.dump] writes it. *)
Definition json_of_dict (d : dict string) : json :=
  JObj (map (fun kv => (fst kv, JStr (snd kv))) d).

(** [str(datetime.now())]: the ISO form with a blank for the [T]. *)
Definition now_str : M string :=
  stamp <- now_isoformat ;; ret (PyStr.replace "T" " " stamp).

(** [ConfigManager.setup_first_time]; the manager is handed back with
    the value of [self.config] after the call. *)
Definition setup_first_time (self : ConfigManager) (texts : string -> text_file)
  : M (option (dict string) * ConfigManager) :=
  print (PyStr.nl ++ times "=" 50) ;;
  print "FIRST-TIME SETUP FROM FILES" ;;
  print (times "=" 50) ;;
  print "Reading setup details..." ;;
  details <- read_setup_details texts ;;
  if negb (truthy_config details) then ret (None, self)
  else
    let template_preference :=
      match details with
      | Some d => get_default d "PREFERRED_TEMPLATE" "person_company"
      | None => "person_company"
      end in
    print ("Loading email template (" ++ template_preference ++ ")...") ;;
    email_template <- read_email_template texts template_preference ;;
    match email_template with
    | None => ret (None, self)
    | Some email_template =>
        sender_email <- lift (subscript details "GMAIL_EMAIL") ;;
        sender_password <- lift (subscript details "GMAIL_APP_PASSWORD") ;;
        sender_name <- lift (subscript details "SENDER_NAME") ;;
        setup_date <- now_str ;;
        let config :=
          [ ("sender_email", sender_email);
            ("sender_password", sender_password);
            ("sender_name", sender_name);
            ("email_template", email_template);
            ("template_preference", template_preference);
            ("setup_date", setup_date) ] in
        try_except
          (json_dump (json_of_dict config) (config_file self) ;;
           print (PyStr.nl ++ "Configuration loaded successfully!") ;;
           email <- lift (subscript details "GMAIL_EMAIL") ;;
           print ("Email: " ++ email) ;;
           name <- lift (subscript details "SENDER_NAME") ;;
           print ("Name: " ++ name) ;;
           print ("Template: " ++ template_preference) ;;
           print ("Config saved to: " ++ config_file self) ;;
           ret (Some config, mkConfigManager (config_file self) (Some config)))
          (fun e =>
             print ("Failed to save configuration: " ++ text e) ;;
             ret (None, self))
    end.

(** [ConfigManager.update_template]; the manager is handed back with
    the value of [self.config] after the call. *)
Definition update_template (self : ConfigManager) (new_template : string)
  : M (bool * ConfigManager) :=
  match config self with
  | None | Some [] => print "No configuration loaded." ;; ret (false, self)
  | Some c =>
      let c' := dict_set "email_template" new_template c in
      let self' := mkConfigManager (config_file self) (Some c') in
      try_except
        (json_dump (json_of_dict c') (config_file self) ;;
         print "Email template updated successfully!" ;;
         ret (true, self'))
        (fun e =>
           print ("Failed to update template: " ++ text e) ;;
           ret (false, self'))
  end.

(** Samples. *)
Definition sample_setup_details : string :=
  "# Gmail account" ++ PyStr.nl
  ++ "GMAIL_EMAIL = jane@example.com" ++ PyStr.nl
  ++ "GMAIL_APP_PASSWORD=abcd efgh ijkl mnop" ++ PyStr.nl
  ++ PyStr.nl
  ++ "SENDER_NAME=Jane Doe" ++ PyStr.nl
  ++ "PREFERRED_TEMPLATE=person_only".

Definition sample_texts (path : string) : text_file :=
  if String.eqb path "setup_details.txt" then Text sample_setup_details
  else if String.eqb path "template_person_only.txt"
       then Text ("Dear {name}, regards, {sender_name}" ++ PyStr.nl)
  else NoFile.

(* ===================================================================== *)
(** * Properties *)
(* ===================================================================== *)

(** ** Strings *)

Lemma length_append (a b : string) :
  String.length (a ++ b) = String.length a + String.length b.
Proof. induction a as [|c a IH]; simpl; [reflexivity | now rewrite IH]. Qed.

Lemma length_take (n : nat) (s : string) :
  String.length (PyStr.take n s) = Nat.min n (String.length s).
Proof.
  revert s; induction n as [|n IH]; intros [|c s]; simpl; try reflexivity.
  now rewrite IH.
Qed.

Lemma drop_append (a b : string) : PyStr.drop (String.length a) (a ++ b) = b.
Proof. induction a as [|c a IH]; simpl; [now destruct b | exact IH]. Qed.

Lemma endswith_append (a b : string) : PyStr.endswith (a ++ b) b = true.
Proof.
  unfold PyStr.endswith. rewrite length_append.
  replace (String.length a + String.length b - String.length b)
    with (String.length a) by lia.
  rewrite drop_append, String.eqb_refl, andb_true_r.
  apply Nat.leb_le; lia.
Qed.

Example clean_subject_label :
  _clean_subject "Subject: 'Hello there'" = "Hello there".
Proof. reflexivity. Qed.

Lemma clean_subject_short (s : string) :
  String.length (cleaned_form s) <= 80 -> PyStr.truthy s = true ->
  _clean_subject s = cleaned_form s.
Proof.
  intros Hlen Ht. unfold _clean_subject. rewrite Ht. simpl.
  destruct (Nat.ltb_spec 80 (String.length (cleaned_form s))); [lia | reflexivity].
Qed.

(** ** Subject cleaning *)

(** C7. A generated subject whose cleaned form is longer than 80
    characters comes back as the first 77 characters of that form
    followed by "...": at most 80 characters, ending in "...". *)
Theorem clean_subject_truncates (raw : string) :
  80 < String.length (cleaned_form raw) ->
  _clean_subject raw = PyStr.take 77 (cleaned_form raw) ++ "..."
  /\ String.length (_clean_subject raw) <= 80
  /\ PyStr.endswith (_clean_subject raw) "..." = true.
Proof.
  intros Hlong.
  assert (Hcut : _clean_subject raw = PyStr.take 77 (cleaned_form raw) ++ "...").
  { unfold _clean_subject. destruct raw as [|c raw].
    - exfalso. vm_compute in Hlong. lia.
    - cbn [PyStr.truthy negb].
      destruct (Nat.ltb_spec 80 (String.length (cleaned_form (String c raw))));
        [reflexivity | lia]. }
  rewrite Hcut. split; [reflexivity | split].
  - rewrite length_append, length_take. cbn [String.length]. lia.
  - apply endswith_append.
Qed.

Lemma clean_subject_truncates_witness :
  80 < String.length (cleaned_form long_raw_subject)
  /\ _clean_subject long_raw_subject
     = "Application for the Senior Software Engineer opening in your platform team - ...".
Proof.
  split.
  - vm_compute. lia.
  - etransitivity.
    + apply (clean_subject_truncates long_raw_subject). vm_compute. lia.
    + reflexivity.
Defined.

(** ** Running the monad *)

Lemma bind_ok {A B : Type} (m : M A) (k : A -> M B) (w w' : World) (a : A) :
  m w = (Ok a, w') -> bind m k w = k a w'.
Proof. intros H. unfold bind. now rewrite H. Qed.

Lemma bind_raise {A B : Type} (m : M A) (k : A -> M B) (w w' : World) (e : exn) :
  m w = (Raise e, w') -> bind m k w = (Raise e, w').
Proof. intros H. unfold bind. now rewrite H. Qed.

Lemma try_ok {A : Type} (m : M A) (h : exn -> M A) (w w' : World) (a : A) :
  m w = (Ok a, w') -> try_except m h w = (Ok a, w').
Proof. intros H. unfold try_except. now rewrite H. Qed.

Lemma try_raise {A : Type} (m : M A) (h : exn -> M A) (w w' : World) (e : exn) :
  m w = (Raise e, w') -> try_except m h w = h e w'.
Proof. intros H. unfold try_except. now rewrite H. Qed.

Lemma bind_print {A : Type} (s : string) (k : unit -> M A) (w : World) :
  bind (print s) k w = k tt (set_stdout (stdout w ++ [s])%list w).
Proof. reflexivity. Qed.

Lemma bind_lift_ok {A B : Type} (a : A) (k : A -> M B) (w : World) :
  bind (lift (Ok a)) k w = k a w.
Proof. reflexivity. Qed.

Lemma bind_ret {A B : Type} (a : A) (k : A -> M B) (w : World) :
  bind (ret a) k w = k a w.
Proof. reflexivity. Qed.

Lemma bind_assoc {A B C : Type} (m : M A) (k1 : A -> M B) (k2 : B -> M C) (w : World) :
  bind (bind m k1) k2 w = bind m (fun a => bind (k1 a) k2) w.
Proof. unfold bind. now destruct (m w) as [[a|e] w']. Qed.

(** ** Frames *)

Section Preserves.
Context {X : Type} (f : World -> X).

Lemma preserves_ret {A : Type} (a : A) : preserves f (ret a).
Proof. intros w. reflexivity. Qed.

Lemma preserves_raise {A : Type} (e : exn) : preserves f (@raise A e).
Proof. intros w. reflexivity. Qed.

Lemma preserves_lift {A : Type} (r : result A) : preserves f (lift r).
Proof. intros w. reflexivity. Qed.

Lemma preserves_bind {A B : Type} (m : M A) (k : A -> M B) :
  preserves f m -> (forall a, preserves f (k a)) -> preserves f (bind m k).
Proof.
  intros Hm Hk w. unfold bind. specialize (Hm w).
  destruct (m w) as [[a|e] w']; simpl in *.
  - now rewrite Hk.
  - exact Hm.
Qed.

Lemma preserves_try_except {A : Type} (m : M A) (h : exn -> M A) :
  preserves f m -> (forall e, preserves f (h e)) -> preserves f (try_except m h).
Proof.
  intros Hm Hh w. unfold try_except. specialize (Hm w).
  destruct (m w) as [[a|e] w']; simpl in *.
  - exact Hm.
  - now rewrite Hh.
Qed.

Lemma preserves_print (s : string) : console_blind f -> preserves f (print s).
Proof. intros Hf w. apply Hf. Qed.

Lemma preserves_http_exchange (req : http_request) :
  http_blind f -> preserves f (http_exchange req).
Proof.
  intros Hf w. unfold http_exchange.
  destruct (http_service w _ req); apply Hf.
Qed.

Lemma preserves_render (t : string) (kw : dict string) : preserves f (render t kw).
Proof. intros w. reflexivity. Qed.

Lemma preserves_read_binary (p : Path) : preserves f (read_binary p).
Proof. intros w. reflexivity. Qed.

Lemma preserves_smtp_step (c : smtp_call) (o : smtp_behaviour -> option exn)
  (n : conn_state) : smtp_blind f -> preserves f (smtp_step c o n).
Proof.
  intros Hf w. unfold smtp_step. destruct (o (smtp_relay w)); apply Hf.
Qed.

Lemma preserves_SMTP (host : string) (port : nat) :
  smtp_blind f -> preserves f (SMTP host port).
Proof.
  intros Hf w. unfold SMTP. destruct (on_connect (smtp_relay w)); apply Hf.
Qed.
End Preserves.

(** Frame goals are solved by following the shape of the program. *)
Ltac frame_step :=
  first
    [ apply preserves_ret | apply preserves_raise | apply preserves_lift
    | apply preserves_render | apply preserves_read_binary
    | apply preserves_print; assumption
    | apply preserves_http_exchange; assumption
    | apply preserves_smtp_step; assumption
    | apply preserves_SMTP; assumption
    | apply preserves_bind; [ | intros ? ]
    | apply preserves_try_except; [ | intros ? ]
    | match goal with
      | |- preserves _ (if ?b then _ else _) => destruct b
      | |- preserves _ (match ?x with _ => _ end) => destruct x
      end ].

Ltac frame := repeat frame_step.

(** The observations used below do not look at what a step touches. *)
Ltac blind := first [ now intros ? ? | now intros ? ? ? | now split; intros ? ? ].

Lemma generate_subject_line_preserves {X : Type} (f : World -> X)
  (self : OllamaClient) (recipient company : option string) (sender : string) :
  console_blind f -> http_blind f ->
  preserves f (generate_subject_line self recipient company sender).
Proof.
  intros Hc Hh.
  unfold generate_subject_line, generation_call, is_ollama_running,
    is_model_available, get_available_models, except_RequestException,
    requests_get, requests_post.
  frame.
Qed.

Lemma create_email_message_preserves {X : Type} (f : World -> X)
  (self : RecruitmentEmailAgent) (to : string) (rn cn bcc : option string)
  (subject body : string) (resume : Path) :
  console_blind f ->
  preserves f (_create_email_message self to rn cn bcc subject body resume).
Proof. intros Hc. unfold _create_email_message. frame. Qed.

Lemma compose_email_preserves {X : Type} (f : World -> X)
  (self : RecruitmentEmailAgent) (config : option (dict string)) (to : string)
  (rn cn bcc : option string) (resume : Path) (custom : option string) :
  console_blind f -> http_blind f ->
  preserves f (compose_email self config to rn cn bcc resume custom).
Proof.
  intros Hc Hh. unfold compose_email.
  repeat first
    [ apply generate_subject_line_preserves; assumption
    | apply create_email_message_preserves; assumption
    | frame_step ].
Qed.

Lemma send_via_smtp_preserves {X : Type} (f : World -> X)
  (self : RecruitmentEmailAgent) (m : ComposedMessage) (to : list string) :
  console_blind f -> smtp_blind f -> preserves f (_send_via_smtp self m to).
Proof.
  intros Hc Hs.
  unfold _send_via_smtp, smtp_handlers, starttls, login, send_message, quit.
  frame.
Qed.

(** ** Which exceptions get out *)

Section RaisesOnly.
Context (P : exn -> Prop).

Lemma raises_only_ret {A : Type} (a : A) : raises_only P (ret a).
Proof. intros w e H. discriminate H. Qed.

Lemma raises_only_print (s : string) : raises_only P (print s).
Proof. intros w e H. discriminate H. Qed.

Lemma raises_only_raise {A : Type} (e : exn) : P e -> raises_only P (@raise A e).
Proof. intros He w e' H. injection H as <-. exact He. Qed.

Lemma raises_only_lift {A : Type} (r : result A) :
  (forall e, r = Raise e -> P e) -> raises_only P (lift r).
Proof. intros Hr w e H. apply Hr. exact H. Qed.

Lemma raises_only_bind {A B : Type} (m : M A) (k : A -> M B) :
  raises_only P m -> (forall a, raises_only P (k a)) -> raises_only P (bind m k).
Proof.
  intros Hm Hk w e. unfold bind. specialize (Hm w).
  destruct (m w) as [[a|e'] w']; simpl in *.
  - apply Hk.
  - intros H. injection H as <-. now apply Hm.
Qed.

(** Whatever the body raises goes to the handler. *)
Lemma raises_only_try_except {A : Type} (m : M A) (h : exn -> M A) :
  (forall e, raises_only P (h e)) -> raises_only P (try_except m h).
Proof.
  intros Hh w e. unfold try_except.
  destruct (m w) as [[a|e'] w']; simpl.
  - discriminate.
  - apply Hh.
Qed.
End RaisesOnly.

Lemma never_raises_value {A : Type} (m : M A) (w : World) :
  never_raises m -> exists a, value_of (m w) = Ok a.
Proof.
  intros H. specialize (H w). destruct (m w) as [[a|e] w']; simpl in *.
  - now exists a.
  - now elim (H e).
Qed.

(** ** Subject generation *)

Lemma is_ollama_running_unreachable (self : OllamaClient) (w : World)
  (f : request_failure) :
  http_service w (length (http_calls w)) (GET (models_url self) 5) = Unreachable f ->
  value_of (is_ollama_running self w) = Ok false.
Proof.
  intros H. unfold is_ollama_running, requests_get, http_exchange, try_except, bind.
  rewrite H. now destruct f.
Qed.

Lemma generate_subject_line_not_running (self : OllamaClient)
  (recipient company : option string) (sender : string) (w : World) :
  value_of (is_ollama_running self w) = Ok false ->
  value_of (generate_subject_line self recipient company sender w)
  = Ok (_default_subject sender company).
Proof.
  intros H. unfold generate_subject_line, bind at 1.
  destruct (is_ollama_running self w) as [[b|e] w1]; simpl in H; [|discriminate].
  injection H as ->. reflexivity.
Qed.

Lemma default_subject_with_company (sender c : string) :
  c <> EmptyString -> c <> "your organization" ->
  _default_subject sender (Some c) = "Application for Position at " ++ c ++ " - " ++ sender.
Proof.
  intros Hne Hdef. unfold _default_subject, real_company.
  destruct c as [|a c]; [now elim Hne|]. cbn [PyStr.truthy andb].
  apply String.eqb_neq in Hdef. now rewrite Hdef.
Qed.

Lemma default_subject_without_company (sender : string) (company : option string) :
  company = None \/ company = Some EmptyString \/ company = Some "your organization" ->
  _default_subject sender company = "Software Engineer Application - " ++ sender.
Proof. intros [-> | [-> | ->]]; reflexivity. Qed.

(** C5. When the generation service cannot be reached, the subject is
    "Application for Position at {company} - {sender_name}" for a
    company name that is present and is not "your organization", and
    "Software Engineer Application - {sender_name}" otherwise. *)
Theorem fallback_when_unreachable (self : OllamaClient)
  (recipient company : option string) (sender : string) (w : World)
  (f : request_failure) :
  http_service w (length (http_calls w)) (GET (models_url self) 5) = Unreachable f ->
  (forall c, company = Some c -> c <> EmptyString -> c <> "your organization" ->
     value_of (generate_subject_line self recipient company sender w)
     = Ok ("Application for Position at " ++ c ++ " - " ++ sender))
  /\ (company = None \/ company = Some EmptyString
      \/ company = Some "your organization" ->
      value_of (generate_subject_line self recipient company sender w)
      = Ok ("Software Engineer Application - " ++ sender)).
Proof.
  intros Hdown.
  pose proof (generate_subject_line_not_running self recipient company sender w
                (is_ollama_running_unreachable self w f Hdown)) as Hgen.
  split.
  - intros c -> Hne Hdef. rewrite Hgen. f_equal.
    now apply default_subject_with_company.
  - intros Hnone. rewrite Hgen. f_equal.
    now apply default_subject_without_company.
Qed.

Lemma fallback_when_unreachable_witness :
  value_of (generate_subject_line default_ollama (Some "Ada") (Some "Acme") "Jane Doe"
              plain_world)
  = Ok "Application for Position at Acme - Jane Doe"
  /\ value_of (generate_subject_line default_ollama None None "Jane Doe" plain_world)
     = Ok "Software Engineer Application - Jane Doe".
Proof.
  split.
  - apply (proj1 (fallback_when_unreachable default_ollama (Some "Ada") (Some "Acme")
                    "Jane Doe" plain_world Refused eq_refl) "Acme" eq_refl);
      discriminate.
  - apply (proj2 (fallback_when_unreachable default_ollama None None
                    "Jane Doe" plain_world Refused eq_refl)).
    left; reflexivity.
Defined.

(** The same fallback when the status probe answers with an error
    status. *)
Lemma fallback_when_probe_fails (self : OllamaClient)
  (recipient company : option string) (sender : string) (w : World) (r : response) :
  http_service w (length (http_calls w)) (GET (models_url self) 5) = Responds r ->
  status_code r <> 200 ->
  value_of (generate_subject_line self recipient company sender w)
  = Ok (_default_subject sender company).
Proof.
  intros H Hs. apply generate_subject_line_not_running.
  unfold is_ollama_running, requests_get, http_exchange, try_except, bind.
  rewrite H. simpl. apply Nat.eqb_neq in Hs. now rewrite Hs.
Qed.

(** Whatever the generation request meets, the [try] block ends with a
    subject. *)
Lemma generation_call_never_raises (self : OllamaClient) (prompt sender : string)
  (company : option string) (w : World) :
  exists subject, value_of (generation_call self prompt sender company w) = Ok subject.
Proof.
  unfold generation_call, try_except.
  match goal with |- context [match ?b w with _ => _ end] => destruct (b w) as [[s|e] w1] end.
  - now exists s.
  - destruct (is_Timeout e); [|destruct (is_RequestException e)];
      eexists; reflexivity.
Qed.

(** C1. A listing whose entries lack the [name] key makes the model
    probe raise [KeyError], and [generate_subject_line] lets it
    through: the probe stands outside the [try] block and catches
    request errors only. *)
Theorem generate_subject_line_lets_key_error_through :
  value_of (is_ollama_running default_ollama world_listing_without_name) = Ok true
  /\ value_of (generate_subject_line default_ollama None None "Jane Doe"
                 world_listing_without_name)
     = Raise (Exn KeyError "'name'").
Proof. split; reflexivity. Qed.

Lemma comprehension_raises {A B : Type} (P : exn -> Prop) (f : A -> result B)
  (l : list A) :
  (forall x e, f x = Raise e -> P e) ->
  forall e, comprehension f l = Raise e -> P e.
Proof.
  intros Hf. induction l as [|x l IH]; simpl; intros e H; [discriminate|].
  destruct (f x) as [y|e'] eqn:Hx.
  - destruct (comprehension f l); [discriminate|]. injection H as <-. now apply IH.
  - injection H as <-. now apply (Hf x).
Qed.

Lemma py_join_raises (sep : string) (items : list json) (e : exn) :
  py_join sep items = Raise e -> cls e = TypeError.
Proof.
  unfold py_join.
  destruct (comprehension _ items) as [parts|e'] eqn:Hc; [discriminate|].
  intros H. injection H as <-.
  apply (comprehension_raises (fun e => cls e = TypeError) _ _) with (e := e') in Hc;
    [exact Hc|].
  intros x e0 Hx. destruct x; inversion Hx; reflexivity.
Qed.

Lemma except_RequestException_raises {A : Type} (v : A) (e : exn) :
  raises_only (fun e => is_RequestException e = false) (except_RequestException v e).
Proof.
  unfold except_RequestException. destruct (is_RequestException e) eqn:He.
  - apply raises_only_ret.
  - now apply raises_only_raise.
Qed.

(** No failure of the requests themselves gets out of
    [generate_subject_line]: a refused connection, a timeout and a body
    that is not JSON all end in a subject.  What can get out comes from
    the shape of the model listing. *)
Lemma generate_subject_line_absorbs_request_errors (self : OllamaClient)
  (recipient company : option string) (sender : string) :
  raises_only (fun e => is_RequestException e = false)
    (generate_subject_line self recipient company sender).
Proof.
  unfold generate_subject_line, is_ollama_running, is_model_available,
    get_available_models.
  repeat first
    [ apply raises_only_ret | apply raises_only_print
    | apply raises_only_try_except; intros ?; apply except_RequestException_raises
    | apply raises_only_bind; [ | intros ? ]
    | match goal with
      | |- raises_only _ (if ?b then _ else _) => destruct b
      | |- raises_only _ (match ?x with _ => _ end) => destruct x
      end ].
  - apply raises_only_lift. intros e H. apply py_join_raises in H.
    unfold is_RequestException. now rewrite H.
  - intros w e H.
    destruct (generation_call_never_raises self
                (_create_subject_prompt recipient company sender) sender company w)
      as [s Hs].
    rewrite Hs in H. discriminate.
Qed.

Lemma names_of_sound_listing (l : list json) :
  forallb entry_ok l = true ->
  (exists names,
     comprehension (fun model => match py_getitem model "name" with
                                 | Ok n => py_split_head n
                                 | Raise e => Raise e
                                 end) l = Ok names)
  /\ (exists vs, comprehension (fun model => py_getitem model "name") l = Ok vs
                 /\ forallb is_JStr vs = true).
Proof.
  induction l as [|x l IH]; cbn [forallb comprehension]; intros H.
  - split; eexists; [reflexivity | split; reflexivity].
  - apply andb_true_iff in H as [Hx Hl].
    destruct (IH Hl) as [[names Hn] [vs [Hv Hs]]].
    destruct x as [| | | | |f]; try discriminate Hx. cbn [entry_ok] in Hx.
    cbn [py_getitem]. destruct (lookup "name" f) as [[| | |n| |]|]; try discriminate Hx.
    cbn [py_split_head]. rewrite Hn, Hv.
    split; eexists; [reflexivity | split; [reflexivity | exact Hs]].
Qed.

Lemma py_join_strings (sep : string) (l : list json) :
  forallb is_JStr l = true -> exists s, py_join sep l = Ok s.
Proof.
  intros H. unfold py_join.
  assert (Hc : exists parts,
             comprehension
               (fun v => match v with
                         | JStr s => Ok s
                         | _ => Raise (Exn TypeError
                                  ("sequence item: expected str instance, "
                                   ++ type_name v ++ " found"))
                         end) l = Ok parts).
  { induction l as [|x l IH]; cbn [forallb comprehension] in *.
    - now eexists.
    - apply andb_true_iff in H as [Hx Hl]. destruct (IH Hl) as [parts Hp].
      destruct x; try discriminate Hx. rewrite Hp. now eexists. }
  destruct Hc as [parts ->]. now eexists.
Qed.

Lemma forallb_firstn {A : Type} (p : A -> bool) (n : nat) (l : list A) :
  forallb p l = true -> forallb p (firstn n l) = true.
Proof.
  revert l; induction n as [|n IH]; intros [|x l]; cbn; try reflexivity.
  intros H. apply andb_true_iff in H as [Hx Hl]. now rewrite Hx, IH.
Qed.

(** The probes on a sound listing. *)
Lemma is_model_available_sound (self : OllamaClient) (mn : option string) (w : World) :
  sound_listings w -> exists b, value_of (is_model_available self mn w) = Ok b.
Proof.
  intros Hs.
  unfold is_model_available, try_except, bind, requests_get, http_exchange,
    except_RequestException, lift, ret, value_of.
  destruct (http_service w (length (http_calls w)) (GET (models_url self) 5))
    as [f|r] eqn:E.
  - destruct f; eexists; reflexivity.
  - cbn beta iota. destruct (status_code r =? 200) eqn:St; [|eexists; reflexivity].
    apply Nat.eqb_eq in St. specialize (Hs _ _ _ _ E St).
    unfold listing_ok in Hs. unfold response_json.
    destruct (body r) as [[| | | | |d]|]; try discriminate Hs;
      [|eexists; reflexivity].
    cbn [py_get]. destruct (lookup "models" d) as [[| | | |l|]|];
      try discriminate Hs; cbn [py_iter comprehension].
    + destruct (names_of_sound_listing l Hs) as [[names ->] _]. eexists; reflexivity.
    + eexists; reflexivity.
Qed.

Lemma get_available_models_sound (self : OllamaClient) (w : World) :
  sound_listings w ->
  exists l, value_of (get_available_models self w) = Ok l /\ forallb is_JStr l = true.
Proof.
  intros Hs.
  unfold get_available_models, try_except, bind, requests_get, http_exchange,
    except_RequestException, lift, ret, value_of.
  destruct (http_service w (length (http_calls w)) (GET (models_url self) 5))
    as [f|r] eqn:E.
  - destruct f; eexists; split; reflexivity.
  - cbn beta iota. destruct (status_code r =? 200) eqn:St;
      [|eexists; split; reflexivity].
    apply Nat.eqb_eq in St. specialize (Hs _ _ _ _ E St).
    unfold listing_ok in Hs. unfold response_json.
    destruct (body r) as [[| | | | |d]|]; try discriminate Hs;
      [|eexists; split; reflexivity].
    cbn [py_get]. destruct (lookup "models" d) as [[| | | |l|]|];
      try discriminate Hs; cbn [py_iter comprehension].
    + destruct (names_of_sound_listing l Hs) as [_ [vs [-> Hv]]].
      eexists; split; [reflexivity | exact Hv].
    + eexists; split; reflexivity.
Qed.

(** With listings of the documented shape, [generate_subject_line]
    always ends with a subject, whatever else the service does. *)
Lemma generate_subject_line_returns_on_sound_listings (self : OllamaClient)
  (recipient company : option string) (sender : string) (w : World) :
  sound_listings w ->
  exists subject,
    value_of (generate_subject_line self recipient company sender w) = Ok subject.
Proof.
  intros Hs. unfold generate_subject_line.
  assert (Hkeep : forall {A : Type} (m : M A) w0,
             preserves http_service m -> sound_listings w0 ->
             sound_listings (world_of (m w0))).
  { intros A m w0 Hm Hw0 n url t r. rewrite Hm. apply Hw0. }
  assert (Hc : console_blind http_service) by blind.
  assert (Hh : http_blind http_service) by blind.
  assert (Hrun : preserves http_service (is_ollama_running self))
    by (unfold is_ollama_running, except_RequestException, requests_get; frame).
  assert (Hav : preserves http_service (is_model_available self None))
    by (unfold is_model_available, except_RequestException, requests_get; frame).
  pose proof (Hkeep _ _ w Hrun Hs) as Hs1.
  destruct (is_ollama_running self w) as [[running|e] w1] eqn:E1.
  2:{ exfalso. revert E1.
      unfold is_ollama_running, try_except, bind, requests_get, http_exchange,
        except_RequestException, ret.
      destruct (http_service w _ _) as [[]|r]; discriminate. }
  rewrite (bind_ok _ _ _ _ _ E1). cbn [world_of snd] in Hs1.
  destruct running; cbn [negb]; [|eexists; reflexivity].
  destruct (is_model_available_sound self None w1 Hs1) as [available Ha].
  pose proof (Hkeep _ _ w1 Hav Hs1) as Hs2.
  destruct (is_model_available self None w1) as [[available'|e] w2] eqn:E2;
    cbn in Ha; [|discriminate]. injection Ha as ->.
  rewrite (bind_ok _ _ _ _ _ E2). cbn [world_of snd] in Hs2.
  destruct available; cbn [negb].
  - apply generation_call_never_raises.
  - rewrite (bind_ok (print _) _ w2 _ tt eq_refl).
    cbv beta. unfold bind at 1.
    match goal with
    | |- context [get_available_models self ?w3] =>
        assert (Hs3 : sound_listings w3) by exact Hs2;
        destruct (get_available_models_sound self w3 Hs3) as (l & Hl & Hstr);
        destruct (get_available_models self w3) as [[l'|e] w4]
    end; cbn in Hl; [|discriminate]. injection Hl as ->.
    destruct l as [|x l]; [eexists; reflexivity|].
    destruct (py_join_strings ", " (firstn 3 (x :: l)) (forallb_firstn _ 3 _ Hstr))
      as [shown Hshown].
    unfold bind, lift. rewrite Hshown. eexists; reflexivity.
Qed.

(** ** The activity log *)

Lemma log_email_activity_preserves {X : Type} (f : World -> X) (lf to : string)
  (company : option string) (subject : string) (ok : bool) (err : option string) :
  console_blind f -> disk_blind f ->
  preserves f (log_email_activity lf to company subject ok err).
Proof.
  intros Hc [Hf Ht]. unfold log_email_activity.
  assert (Hnow : preserves f now_isoformat) by (intros w; apply Ht).
  assert (Hex : forall p, preserves f (os_path_exists p)) by (intros p w; reflexivity).
  assert (Hload : forall p, preserves f (json_load p)).
  { intros p w. unfold json_load. now destruct (files w p). }
  assert (Hdump : forall j p, preserves f (json_dump j p)).
  { intros j p w. unfold json_dump.
    destruct (on_write w p); [apply Hf | reflexivity | apply Hf]. }
  repeat first [ apply Hnow | apply Hex | apply Hload | apply Hdump | frame_step ].
Qed.

(** On a log file that is absent, holds text that is not JSON, or holds
    a JSON array, and that can be written, one call adds one entry
    after those already there. *)
Lemma log_email_activity_appends (lf to : string) (company : option string)
  (subject : string) (ok : bool) (err : option string) (w : World) :
  appendable (files w lf) = true -> on_write w lf = Written ->
  let r := log_email_activity lf to company subject ok err w in
  value_of r = Ok tt
  /\ files (world_of r) lf
     = Document (JArr (prior_records (files w lf)
                       ++ [log_entry (clock w (clock_reads w)) to company subject ok err])%list)
  /\ clock_reads (world_of r) = S (clock_reads w).
Proof.
  intros Ha Hw.
  unfold log_email_activity, bind, try_except, now_isoformat, os_path_exists,
    json_load, json_dump, lift, print, ret; simpl.
  destruct (files w lf) as [|e|why|j] eqn:Hf; try discriminate;
    try (destruct j; try discriminate);
    simpl; rewrite ?Hf; simpl; rewrite Hw; simpl; rewrite String.eqb_refl; auto.
Qed.

(** A log that cannot be opened for writing: the failure is printed,
    the call returns, the files stay as they were. *)
Lemma log_email_activity_not_opened (lf to : string) (company : option string)
  (subject : string) (ok : bool) (err : option string) (w : World) (e : exn) :
  appendable (files w lf) = true -> on_write w lf = NotOpened e ->
  let r := log_email_activity lf to company subject ok err w in
  value_of r = Ok tt
  /\ files (world_of r) = files w
  /\ In ("Failed to write to log file: " ++ text e) (stdout (world_of r)).
Proof.
  intros Ha Hw.
  unfold log_email_activity, bind, try_except, now_isoformat, os_path_exists,
    json_load, json_dump, lift, print, ret; simpl.
  destruct (files w lf) as [|e'|why|j] eqn:Hf; try discriminate;
    try (destruct j; try discriminate);
    simpl; rewrite ?Hf; simpl; rewrite Hw; simpl;
    repeat split; apply in_or_app; right; left; reflexivity.
Qed.

(** A write that breaks after the file was opened: the failure is
    printed, the call returns, and the log file is what the broken
    write has left of it. *)
Lemma log_email_activity_broken (lf to : string) (company : option string)
  (subject : string) (ok : bool) (err : option string) (w : World) (e : exn)
  (remains : file_state) :
  appendable (files w lf) = true -> on_write w lf = Broken e remains ->
  let r := log_email_activity lf to company subject ok err w in
  value_of r = Ok tt
  /\ files (world_of r) lf = remains
  /\ (forall path, path <> lf -> files (world_of r) path = files w path)
  /\ In ("Failed to write to log file: " ++ text e) (stdout (world_of r)).
Proof.
  intros Ha Hw.
  unfold log_email_activity, bind, try_except, now_isoformat, os_path_exists,
    json_load, json_dump, lift, print, ret; simpl.
  destruct (files w lf) as [|e'|why|j] eqn:Hf; try discriminate;
    try (destruct j; try discriminate);
    simpl; rewrite ?Hf; simpl; rewrite Hw; simpl; rewrite String.eqb_refl;
    (split; [reflexivity|]); (split; [reflexivity|]);
    (split; [intros path Hne; apply String.eqb_neq in Hne; now rewrite Hne
            | apply in_or_app; right; left; reflexivity]).
Qed.

(** C9. A log file that holds a JSON document other than an array is
    read without a parse error, and the append that follows raises
    [AttributeError] out of [log_email_activity]. *)
Theorem log_email_activity_raises_on_object_log :
  files world_object_log "sent_emails.json" = Document (JObj [])
  /\ value_of (log_email_activity "sent_emails.json" "a@b.com" None
                 "Software Engineer Application - Jane Doe" true None world_object_log)
     = Raise (Exn AttributeError "'dict' object has no attribute 'append'").
Proof. split; reflexivity. Qed.

Lemma log_all_appends (lf : string) (reqs : list LogRequest) :
  forall w, appendable (files w lf) = true -> on_write w lf = Written ->
  let r := log_all lf reqs w in
  value_of r = Ok tt
  /\ prior_records (files (world_of r) lf)
     = (prior_records (files w lf) ++ entries_from (clock w) (clock_reads w) reqs)%list
  /\ (reqs <> [] -> exists l, files (world_of r) lf = Document (JArr l))
  /\ (reqs = [] -> files (world_of r) = files w).
Proof.
  induction reqs as [|q reqs IH]; intros w Ha Hw; cbn [log_all].
  - simpl. rewrite app_nil_r. repeat split. intros H; now elim H.
  - destruct (log_email_activity_appends lf (req_recipient q) (req_company q)
                (req_subject q) (req_success q) (req_error q) w Ha Hw)
      as (Hv & Hfile & Hticks).
    pose proof (log_email_activity_preserves (fun w => on_write w lf) lf
                  (req_recipient q) (req_company q) (req_subject q) (req_success q)
                  (req_error q) ltac:(blind) ltac:(blind) w) as Hwr.
    pose proof (log_email_activity_preserves clock lf
                  (req_recipient q) (req_company q) (req_subject q) (req_success q)
                  (req_error q) ltac:(blind) ltac:(blind) w) as Hcl.
    unfold bind.
    destruct (log_email_activity lf (req_recipient q) (req_company q) (req_subject q)
                (req_success q) (req_error q) w) as [[[]|e] w1];
      simpl in Hv, Hfile, Hticks, Hwr, Hcl; [|discriminate].
    assert (Ha1 : appendable (files w1 lf) = true) by now rewrite Hfile.
    assert (Hw1 : on_write w1 lf = Written) by now rewrite Hwr.
    destruct (IH w1 Ha1 Hw1) as (IHv & IHrec & IHdoc & IHnone).
    split; [exact IHv|]. split; [|split; [|discriminate]].
    + rewrite IHrec, Hfile, Hcl, Hticks. cbn [prior_records entries_from].
      now rewrite <- app_assoc.
    + intros _. destruct reqs as [|q' reqs'].
      * simpl. eexists. exact Hfile.
      * apply IHdoc. discriminate.
Qed.

(** The entries written, one by one: the timestamp of each is the clock
    reading of its call. *)
Lemma entries_from_explicit (clock : nat -> string) (reqs : list LogRequest) :
  forall n,
    entries_from clock n reqs
    = map (fun iq =>
             JObj [ ("timestamp", JStr (clock (fst iq)));
                    ("recipient", JStr (req_recipient (snd iq)));
                    ("company", JStr (match req_company (snd iq) with
                                      | Some (String c company) => String c company
                                      | _ => "Not specified"
                                      end));
                    ("subject", JStr (req_subject (snd iq)));
                    ("success", JBool (req_success (snd iq)));
                    ("error", match req_error (snd iq) with
                              | Some error => JStr error
                              | None => JNull
                              end) ])
          (combine (seq n (length reqs)) reqs).
Proof.
  induction reqs as [|q reqs IH]; intros n; cbn [entries_from length seq combine map];
    [reflexivity|].
  rewrite IH. f_equal. unfold log_entry, json_of_option, PyStr.or_else. cbn [fst snd].
  destruct (req_company q) as [[|c company]|]; reflexivity.
Qed.

(** *** The display of the log *)

(** What the subscripts of the display find in a record of the
    logger. *)
Lemma log_entry_items (ts recipient : string) (company : option string) (subject : string)
  (success : bool) (error : option string) :
  let log := log_entry ts recipient company subject success error in
  py_getitem log "timestamp" = Ok (JStr ts)
  /\ py_getitem log "success" = Ok (JBool success)
  /\ py_getitem log "recipient" = Ok (JStr recipient)
  /\ py_getitem log "company" = Ok (JStr (PyStr.or_else company "Not specified"))
  /\ py_getitem log "subject" = Ok (JStr subject)
  /\ py_get log "error" JNull = Ok (json_of_option error)
  /\ py_getitem log "error" = Ok (json_of_option error).
Proof. repeat split. Qed.

Section Display.
Variable strftime_minutes : string -> result string.
Variable str_of_other : json -> string.

(** One record of the logger on the display. *)
Lemma show_email_entry (ts minute : string) (q : LogRequest) (w : World) :
  strftime_minutes ts = Ok minute ->
  let r := show_email strftime_minutes str_of_other
             (log_entry ts (req_recipient q) (req_company q) (req_subject q)
                (req_success q) (req_error q)) w in
  value_of r = Ok tt
  /\ world_of r = set_stdout (stdout w ++ shown_record minute q)%list w.
Proof.
  intros Hts. destruct q as [recipient company subject success error].
  cbn [req_recipient req_company req_subject req_success req_error]. cbv zeta.
  destruct (log_entry_items ts recipient company subject success error)
    as (Ht & Hs & Hr & Hc & Hj & He & He').
  set (log := log_entry ts recipient company subject success error) in *.
  unfold show_email, shown_record.
  cbn [req_recipient req_company req_subject req_success req_error].
  rewrite Ht, bind_lift_ok. cbn [fromisoformat_strftime]. rewrite Hts, bind_lift_ok.
  rewrite Hs, bind_lift_ok. rewrite bind_print.
  rewrite Hr, bind_lift_ok, bind_print.
  rewrite Hc, bind_lift_ok. cbn [differs_from py_str py_bool].
  rewrite Hj, He, He'.
  destruct (String.eqb (PyStr.or_else company "Not specified") "Not specified");
    destruct success; try destruct error as [[|c error]|];
    repeat (progress (cbn [negb py_bool py_str json_of_option PyStr.truthy];
                      rewrite ?bind_assoc, ?bind_lift_ok, ?bind_ret, ?bind_print));
    (split; [reflexivity|]);
    unfold print, world_of, set_stdout;
    cbn [snd http_service http_calls smtp_relay smtp_conn smtp_calls open_rb files
         on_write clock clock_reads format_field stdout];
    repeat rewrite <- app_assoc; reflexivity.
Qed.

Lemma show_emails_entries (clock : nat -> string) (minutes : nat -> string)
  (indexed : list (nat * LogRequest)) :
  (forall iq, In iq indexed -> strftime_minutes (clock (fst iq)) = Ok (minutes (fst iq))) ->
  forall w,
    let r := show_emails strftime_minutes str_of_other
               (map (fun iq => log_entry (clock (fst iq)) (req_recipient (snd iq))
                                 (req_company (snd iq)) (req_subject (snd iq))
                                 (req_success (snd iq)) (req_error (snd iq)))
                    indexed) w in
    value_of r = Ok tt
    /\ world_of r
       = set_stdout (stdout w ++ flat_map (fun iq => shown_record (minutes (fst iq)) (snd iq))
                                          indexed)%list w.
Proof.
  induction indexed as [|iq indexed IH]; intros Hall w; cbn [map show_emails flat_map].
  - split; [reflexivity|]. rewrite app_nil_r. unfold ret, world_of, set_stdout.
    now destruct w.
  - destruct (show_email_entry (clock (fst iq)) (minutes (fst iq)) (snd iq) w
                (Hall iq (or_introl eq_refl))) as [Hv Hw].
    destruct (show_email strftime_minutes str_of_other _ w) as [[[]|e] w1] eqn:Hshow;
      cbn [value_of world_of fst snd] in Hv, Hw; [|discriminate].
    rewrite (bind_ok _ _ _ _ _ Hshow).
    destruct (IH (fun x Hx => Hall x (or_intror Hx)) w1) as [IHv IHw].
    split; [exact IHv|]. rewrite IHw, Hw. unfold set_stdout. cbn [stdout].
    now rewrite <- app_assoc.
Qed.

End Display.

Lemma last_items_map {A B : Type} (f : A -> B) (count : Z) (l : list A) :
  last_items count (map f l) = map f (last_items count l).
Proof. unfold last_items. now rewrite length_map, skipn_map. Qed.

Lemma last_items_length {A : Type} (count : Z) (l : list A) :
  (0 < count)%Z ->
  length (last_items count l) = Nat.min (length l) (Z.to_nat count).
Proof.
  intros Hpos. unfold last_items. rewrite length_skipn.
  apply Z.ltb_lt in Hpos as Hpos'. rewrite Hpos'. lia.
Qed.

Lemma last_items_incl {A : Type} (count : Z) (l : list A) (x : A) :
  In x (last_items count l) -> In x l.
Proof.
  unfold last_items. set (start := Z.to_nat _). intros H.
  rewrite <- (firstn_skipn start l). apply in_or_app. now right.
Qed.

(** C8, as the code has it. From a log file that is absent, empty or
    the empty array, and that can be written, [N] calls of
    [log_email_activity] leave in the file exactly [N] records, in the
    order of the calls; each holds the clock reading of its call as
    [timestamp], its [success] flag, and the recipient, company,
    subject and error it was given.  [show_recent_emails] with a
    positive [count] then shows the last [min N count] of them, the
    newest first. *)
Theorem log_round_trip (strftime_minutes : string -> result string)
  (str_of_other : json -> string) (minutes : nat -> string)
  (lf : string) (reqs : list LogRequest) (count : Z) (w : World) :
  files w lf = Absent \/ (exists why, files w lf = Corrupt why)
  \/ files w lf = Document (JArr []) ->
  on_write w lf = Written ->
  (0 < count)%Z ->
  (forall i, clock_reads w <= i < clock_reads w + length reqs ->
             strftime_minutes (clock w i) = Ok (minutes i)) ->
  let written := log_all lf reqs w in
  let indexed := combine (seq (clock_reads w) (length reqs)) reqs in
  let records :=
    map (fun iq =>
           JObj [ ("timestamp", JStr (clock w (fst iq)));
                  ("recipient", JStr (req_recipient (snd iq)));
                  ("company", JStr (match req_company (snd iq) with
                                    | Some (String c company) => String c company
                                    | _ => "Not specified"
                                    end));
                  ("subject", JStr (req_subject (snd iq)));
                  ("success", JBool (req_success (snd iq)));
                  ("error", match req_error (snd iq) with
                            | Some error => JStr error
                            | None => JNull
                            end) ])
        indexed in
  let shown := rev (last_items count indexed) in
  let display := show_recent_emails strftime_minutes str_of_other lf count
                   (world_of written) in
  value_of written = Ok tt
  /\ length records = length reqs
  /\ (reqs = [] -> files (world_of written) = files w)
  /\ (reqs <> [] ->
      files (world_of written) lf = Document (JArr records)
      /\ value_of display = Ok tt
      /\ length shown = Nat.min (length reqs) (Z.to_nat count)
      /\ stdout (world_of display)
         = (stdout (world_of written)
            ++ [ (PyStr.nl ++ "Last " ++ str_of_nat (length shown) ++ " emails:")%string;
                 times "-" 50 ]
            ++ flat_map (fun iq => shown_record (minutes (fst iq)) (snd iq)) shown)%list).
Proof.
  intros Hempty Hw Hcount Hminutes written indexed records shown display.
  subst written.
  assert (Ha : appendable (files w lf) = true)
    by (destruct Hempty as [-> | [[why ->] | ->]]; reflexivity).
  assert (Hprior : prior_records (files w lf) = [])
    by (destruct Hempty as [-> | [[why ->] | ->]]; reflexivity).
  destruct (log_all_appends lf reqs w Ha Hw) as (Hv & Hrec & Hdoc & Hnone).
  assert (Hlen : length indexed = length reqs).
  { subst indexed. rewrite length_combine, length_seq. lia. }
  split; [exact Hv|]. split; [subst records; now rewrite length_map|].
  split; [exact Hnone|].
  intros Hsome. destruct (Hdoc Hsome) as [l Hl].
  rewrite Hl, Hprior in Hrec. cbn [prior_records app] in Hrec. subst l.
  rewrite entries_from_explicit in Hl. fold indexed in Hl. fold records in Hl.
  split; [exact Hl|].
  assert (Hshown : length shown = Nat.min (length reqs) (Z.to_nat count)).
  { subst shown. rewrite length_rev, (last_items_length _ _ Hcount). now rewrite Hlen. }
  assert (Hin : forall iq, In iq shown ->
                  strftime_minutes (clock w (fst iq)) = Ok (minutes (fst iq))).
  { intros [i q] Hiq. apply Hminutes. cbn [fst].
    subst shown. apply in_rev, last_items_incl in Hiq.
    subst indexed. apply in_combine_l in Hiq. apply in_seq in Hiq. lia. }
  assert (Hrecent : recent_reversed count (JArr records)
                    = Ok (map (fun iq => log_entry (clock w (fst iq))
                                           (req_recipient (snd iq)) (req_company (snd iq))
                                           (req_subject (snd iq)) (req_success (snd iq))
                                           (req_error (snd iq))) shown)).
  { cbn [recent_reversed]. subst records shown.
    rewrite last_items_map, <- map_rev. f_equal. apply map_ext. intros [i q].
    unfold log_entry, json_of_option, PyStr.or_else. cbn [fst snd].
    destruct (req_company q) as [[|c company]|]; reflexivity. }
  assert (Hfull : py_bool (JArr records) = true).
  { subst records. destruct indexed as [|iq indexed'] eqn:Hindexed; [|reflexivity].
    destruct reqs; [now elim Hsome | cbn [length] in Hlen; discriminate]. }
  assert (Hrun : display
                 = (Ok tt,
                    set_stdout
                      (stdout (world_of (log_all lf reqs w))
                       ++ [ (PyStr.nl ++ "Last " ++ str_of_nat (length shown)
                             ++ " emails:")%string;
                            times "-" 50 ]
                       ++ flat_map (fun iq => shown_record (minutes (fst iq)) (snd iq))
                                   shown)%list
                      (world_of (log_all lf reqs w)))).
  { subst display. unfold show_recent_emails, os_path_exists, json_load, try_except.
    unfold bind at 1. rewrite Hl. cbn [negb]. unfold bind at 1. rewrite Hl.
    rewrite Hfull. cbn [negb]. unfold bind at 1, lift at 1. rewrite Hrecent.
    rewrite length_map. rewrite !bind_print.
    match goal with
    | |- context [show_emails _ _ _ ?W] =>
        destruct (show_emails_entries strftime_minutes str_of_other (clock w) minutes
                    shown Hin W) as [Hshow_v Hshow_w];
        destruct (show_emails strftime_minutes str_of_other _ W) as [[[]|e] w2]
    end; cbn [value_of world_of fst snd] in Hshow_v, Hshow_w; [|discriminate].
    rewrite Hshow_w. f_equal. unfold set_stdout. cbn [stdout].
    now rewrite <- !app_assoc. }
  rewrite Hrun. split; [reflexivity|]. split; [exact Hshown | reflexivity].
Qed.

Lemma log_round_trip_witness :
  let written := log_all "sent_emails.json" six_requests plain_world in
  value_of written = Ok tt
  /\ recipient_lines
       (stdout (world_of (show_recent_emails sample_strftime sample_str
                            "sent_emails.json" 5 (world_of written))))
     = [ "   To: k@l.com"; "   To: i@j.dev"; "   To: g@h.io"; "   To: e@f.net";
         "   To: c@d.org" ].
Proof.
  destruct (log_round_trip sample_strftime sample_str
              (fun i => "2024-05-01 09:00") "sent_emails.json" six_requests 5 plain_world)
    as (Hv & _ & _ & Hsome).
  - left. reflexivity.
  - reflexivity.
  - reflexivity.
  - intros i [_ Hi]. cbn in Hi.
    do 6 (destruct i as [|i]; [reflexivity|]). lia.
  - split; [exact Hv|].
    destruct (Hsome ltac:(discriminate)) as (_ & _ & _ & Hout).
    rewrite Hout. reflexivity.
Defined.

(** C8, as stated, fails with the reader the code has: after two
    appends the display names the second recipient before the first,
    and after six appends it shows five records. *)
Lemma read_back_is_newest_first_and_cut :
  recipient_lines
    (stdout (world_of (show_recent_emails sample_strftime sample_str "sent_emails.json" 5
                         (world_of (log_all "sent_emails.json" (firstn 2 six_requests)
                                      plain_world)))))
  = [ "   To: c@d.org"; "   To: a@b.com" ]
  /\ map req_recipient (firstn 2 six_requests) = [ "a@b.com"; "c@d.org" ]
  /\ length (recipient_lines
               (stdout (world_of (show_recent_emails sample_strftime sample_str
                                    "sent_emails.json" 5
                                    (world_of (log_all "sent_emails.json" six_requests
                                                 plain_world))))))
     = 5
  /\ length six_requests = 6.
Proof. repeat split. Qed.

(** ** Delivery *)

Lemma smtp_handlers_never_raise (e : exn) : never_raises (smtp_handlers e).
Proof.
  unfold never_raises, smtp_handlers.
  destruct (cls e);
    repeat first [ apply raises_only_ret | apply raises_only_print
                 | apply raises_only_bind; [ | intros ? ] ].
Qed.

(** [_send_via_smtp] hands back a boolean on every path. *)
Lemma send_via_smtp_never_raises (self : RecruitmentEmailAgent)
  (m : ComposedMessage) (to : list string) : never_raises (_send_via_smtp self m to).
Proof.
  unfold never_raises, _send_via_smtp. apply raises_only_try_except.
  exact smtp_handlers_never_raise.
Qed.

Lemma count_connects_app (a b : list smtp_call) :
  count_connects (a ++ b)%list = count_connects a + count_connects b.
Proof. unfold count_connects. now rewrite filter_app, length_app. Qed.

Lemma quits_app (a b : list smtp_call) : quits (a ++ b)%list = quits a || quits b.
Proof. unfold quits. apply existsb_app. Qed.

(** Symbolic execution of a delivery: every step of the session and
    every handler is opened. *)
Ltac run_delivery w :=
  unfold _send_via_smtp, smtp_handlers, try_except, bind, SMTP, starttls, login,
    send_message, quit, smtp_step, print, lift, ret, value_of, world_of;
  cbn [fst snd smtp_relay smtp_calls smtp_conn stdout set_smtp set_stdout];
  repeat
    match goal with
    | |- context [match on_send_message (smtp_relay w) ?t with _ => _ end] =>
        let E := fresh "E" in
        destruct (on_send_message (smtp_relay w) t) as [?e|] eqn:E;
        cbn [fst snd smtp_relay smtp_calls smtp_conn stdout set_smtp set_stdout]
    | |- context [match ?o (smtp_relay w) with _ => _ end] =>
        let E := fresh "E" in
        destruct (o (smtp_relay w)) as [?e|] eqn:E;
        cbn [fst snd smtp_relay smtp_calls smtp_conn stdout set_smtp set_stdout]
    | |- context [match cls ?e with _ => _ end] =>
        let E := fresh "E" in
        destruct (cls e) eqn:E;
        cbn [fst snd smtp_relay smtp_calls smtp_conn stdout set_smtp set_stdout]
    | |- context [match subscript ?c ?k with _ => _ end] =>
        let E := fresh "E" in
        destruct (subscript c k) eqn:E;
        cbn [fst snd smtp_relay smtp_calls smtp_conn stdout set_smtp set_stdout]
    end.

(** One call, one connection attempt: there is no retry. *)
Lemma send_via_smtp_connects_once (self : RecruitmentEmailAgent)
  (m : ComposedMessage) (to : list string) (w : World) :
  count_connects (smtp_calls (world_of (_send_via_smtp self m to w)))
  = S (count_connects (smtp_calls w)).
Proof.
  run_delivery w;
    repeat rewrite count_connects_app; cbn [count_connects filter length]; lia.
Qed.

(** A delivery that succeeds has closed its session. *)
Lemma send_via_smtp_success_closes (self : RecruitmentEmailAgent)
  (m : ComposedMessage) (to : list string) (w : World) :
  value_of (_send_via_smtp self m to w) = Ok true ->
  smtp_conn (world_of (_send_via_smtp self m to w)) = Closed
  /\ quits (smtp_calls (world_of (_send_via_smtp self m to w))) = true.
Proof.
  run_delivery w; intros H; try discriminate H.
  split; [reflexivity|].
  repeat rewrite quits_app. cbn [quits existsb]. now rewrite !orb_true_r.
Qed.

(** A delivery that fails before [quit] never asks for the session to
    be closed. *)
Lemma send_via_smtp_failure_never_quits (self : RecruitmentEmailAgent)
  (m : ComposedMessage) (to : list string) (w : World) :
  on_quit (smtp_relay w) = None ->
  quits (smtp_calls w) = false ->
  value_of (_send_via_smtp self m to w) = Ok false ->
  quits (smtp_calls (world_of (_send_via_smtp self m to w))) = false.
Proof.
  intros Hq Hno. revert Hq.
  run_delivery w; intros Hq H; try discriminate H; try discriminate Hq;
    repeat rewrite quits_app; rewrite Hno; reflexivity.
Qed.

(** C4. With a relay that refuses the credentials, [_send_via_smtp]
    makes its single connection, returns [False], and leaves the
    session open: no [quit] is issued on the failure path. *)
Theorem send_via_smtp_leaves_session_open :
  let r := _send_via_smtp sample_agent sample_message ["a@b.com"; "x@y.com"]
             world_bad_password in
  value_of r = Ok false
  /\ count_connects (smtp_calls (world_of r)) = 1
  /\ smtp_calls (world_of r)
     = [ CallSMTP "smtp.gmail.com" 587; CallStarttls;
         CallLogin "jane@example.com" "abcd efgh ijkl mnop" ]
  /\ smtp_conn (world_of r) = Encrypted.
Proof. repeat split. Qed.

(** ** Delivery and the log *)

(** One call of the logger on a log it can append to. *)
Lemma log_email_activity_logged (lf to : string) (company : option string)
  (subject : string) (ok : bool) (err : option string) (w : World) :
  appendable (files w lf) = true ->
  let r := log_email_activity lf to company subject ok err w in
  value_of r = Ok tt
  /\ logged lf w (world_of r)
       (log_entry (clock w (clock_reads w)) to company subject ok err).
Proof.
  intros Ha. cbv zeta. unfold logged.
  destruct (on_write w lf) as [|e|e remains] eqn:Hw.
  - destruct (log_email_activity_appends lf to company subject ok err w Ha Hw)
      as (Hv & Hfile & _). now split.
  - destruct (log_email_activity_not_opened lf to company subject ok err w e Ha Hw)
      as (Hv & Hfile & Hout). now repeat split.
  - destruct (log_email_activity_broken lf to company subject ok err w e remains Ha Hw)
      as (Hv & Hfile & _ & Hout). now repeat split.
Qed.

(** The logger's trace stays when the run goes on without touching
    the disk. *)
Lemma logged_carried (lf : string) (w w1 w2 w3 : World) (record : json) :
  on_write w1 lf = on_write w lf ->
  files w1 = files w ->
  files w3 = files w2 ->
  (forall line, In line (stdout w2) -> In line (stdout w3)) ->
  logged lf w1 w2 record -> logged lf w w3 record.
Proof.
  unfold logged. intros Hwr Hf Hf3 Hout. rewrite Hwr, Hf, Hf3.
  destruct (on_write w lf); [trivial | |]; intros [H1 H2]; split; auto.
Qed.

(** After the delivery, however it went, the logger is called once
    with its outcome. *)
Lemma deliver_and_log_logged (self : RecruitmentEmailAgent) (to : string)
  (cn bcc : option string) (resume : Path) (subject : string)
  (m : ComposedMessage) (rcpts : list string) (w : World) :
  appendable (files w (log_file self)) = true ->
  let r := deliver_and_log self to cn bcc resume subject m rcpts w in
  exists b : bool,
    value_of (_send_via_smtp self m rcpts w) = Ok b
    /\ value_of r = Ok b
    /\ logged (log_file self) w (world_of r)
         (log_entry (clock w (clock_reads w)) to cn subject b
            (if b then None else Some "SMTP sending failed")).
Proof.
  intros Ha. cbv zeta.
  destruct (never_raises_value _ w (send_via_smtp_never_raises self m rcpts)) as [b Hb].
  pose proof (send_via_smtp_preserves files self m rcpts ltac:(blind) ltac:(blind) w) as Hf.
  pose proof (send_via_smtp_preserves on_write self m rcpts ltac:(blind) ltac:(blind) w) as Hwr.
  pose proof (send_via_smtp_preserves clock self m rcpts ltac:(blind) ltac:(blind) w) as Hcl.
  pose proof (send_via_smtp_preserves clock_reads self m rcpts ltac:(blind) ltac:(blind) w) as Hcr.
  exists b. split; [exact Hb|].
  destruct (_send_via_smtp self m rcpts w) as [[b'|e] w1] eqn:Hsend;
    simpl in Hb, Hf, Hwr, Hcl, Hcr; [|discriminate].
  injection Hb as ->.
  assert (Ha1 : appendable (files w1 (log_file self)) = true) by now rewrite Hf.
  destruct (log_email_activity_logged (log_file self) to cn subject b
              (if b then None else Some "SMTP sending failed") w1 Ha1)
    as (Hv & Hlogged).
  rewrite Hcl, Hcr in Hlogged.
  destruct (log_email_activity (log_file self) to cn subject b
              (if b then None else Some "SMTP sending failed") w1)
    as [[[]|e] w2] eqn:Hlog; simpl in Hv, Hlogged; [|discriminate].
  unfold deliver_and_log.
  rewrite (bind_ok _ _ _ _ _ Hsend), (bind_ok _ _ _ _ _ Hlog).
  destruct b; [destruct (PyStr.truthy_opt bcc)|];
    (split; [reflexivity|]);
    apply (logged_carried (log_file self) w w1 w2 _ _ (f_equal (fun f => f (log_file self)) Hwr)
             Hf); try exact Hlogged; try reflexivity;
    unfold bind, print, ret, world_of; cbn [fst snd stdout set_stdout];
    intros line Hline; repeat (apply in_or_app; left); exact Hline.
Qed.

(** When the run fails before delivery, the handler calls the logger
    once. *)
Lemma failure_is_logged (lf to : string) (cn : option string)
  (subject error_msg : string) (w : World) :
  appendable (files w lf) = true ->
  let r := (print error_msg ;;
            log_email_activity lf to cn subject false (Some error_msg) ;;
            ret false) w in
  value_of r = Ok false
  /\ logged lf w (world_of r)
       (log_entry (clock w (clock_reads w)) to cn subject false (Some error_msg)).
Proof.
  intros Ha. cbv zeta.
  destruct (log_email_activity_logged lf to cn subject false (Some error_msg)
              (set_stdout (stdout w ++ [error_msg])%list w) Ha) as (Hv & Hlogged).
  destruct (log_email_activity lf to cn subject false (Some error_msg)
              (set_stdout (stdout w ++ [error_msg])%list w))
    as [[[]|e] w2] eqn:Hlog; simpl in Hv, Hlogged; [|discriminate].
  rewrite (bind_ok (print error_msg) _ w _ tt eq_refl), (bind_ok _ _ _ _ _ Hlog).
  split; [reflexivity|].
  apply (logged_carried lf w (set_stdout (stdout w ++ [error_msg])%list w) w2 w2);
    auto.
Qed.

(** The record of the logger, field by field. *)
Lemma log_entry_explicit (ts to : string) (cn : option string) (subject : string)
  (b : bool) (err : option string) :
  log_entry ts to cn subject b err
  = JObj [ ("timestamp", JStr ts);
           ("recipient", JStr to);
           ("company", JStr (match cn with
                             | Some (String c company) => String c company
                             | _ => "Not specified"
                             end));
           ("subject", JStr subject);
           ("success", JBool b);
           ("error", match err with
                     | Some error => JStr error
                     | None => JNull
                     end) ].
Proof. unfold log_entry, json_of_option, PyStr.or_else. now destruct cn as [[|c cn]|]. Qed.

(** C2, as the code has it. Every send attempt made with a
    configuration, on a log file that is absent, holds text that is
    not JSON or holds a JSON array, calls the logger exactly once,
    whether it ends in a delivery, in a failed delivery or before the
    delivery.  When the file is written, exactly one record is added
    after those already there: it holds the time of the call, the
    recipient, the company or "Not specified", a subject, the returned
    value as [success], and as [error] null for a success and a text
    for a failure.  When the file cannot be written, the failure is
    printed, no record is added and the attempt returns as it would
    have. *)
Theorem one_record_per_attempt (self : RecruitmentEmailAgent) (to : string)
  (rn cn bcc : option string) (resume : Path) (custom : option string) (w : World) :
  truthy_config (get_config (config_manager self)) = true ->
  appendable (files w (log_file self)) = true ->
  let r := send_recruitment_email self to rn cn bcc resume custom w in
  exists (b : bool) (subject error : string),
    value_of r = Ok b
    /\ error <> EmptyString
    /\ logged (log_file self) w (world_of r)
         (JObj [ ("timestamp", JStr (clock w (clock_reads w)));
                 ("recipient", JStr to);
                 ("company", JStr (match cn with
                                   | Some (String c company) => String c company
                                   | _ => "Not specified"
                                   end));
                 ("subject", JStr subject);
                 ("success", JBool b);
                 ("error", if b then JNull else JStr error) ]).
Proof.
  intros Hcfg Ha. cbv zeta. unfold send_recruitment_email.
  rewrite Hcfg. cbn [negb].
  set (config := get_config (config_manager self)).
  pose proof (compose_email_preserves files self config to rn cn bcc resume custom
                ltac:(blind) ltac:(blind) w) as Hf.
  pose proof (compose_email_preserves on_write self config to rn cn bcc resume custom
                ltac:(blind) ltac:(blind) w) as Hwr.
  pose proof (compose_email_preserves clock self config to rn cn bcc resume custom
                ltac:(blind) ltac:(blind) w) as Hcl.
  pose proof (compose_email_preserves clock_reads self config to rn cn bcc resume custom
                ltac:(blind) ltac:(blind) w) as Hcr.
  destruct (compose_email self config to rn cn bcc resume custom w)
    as [[[[subject m] rcpts]|e] w1] eqn:Hcomp; simpl in Hf, Hwr, Hcl, Hcr;
    assert (Ha1 : appendable (files w1 (log_file self)) = true) by (now rewrite Hf);
    assert (Hwr1 : on_write w1 (log_file self) = on_write w (log_file self))
      by (now rewrite Hwr).
  - (* the message was composed: delivery, then the entry *)
    destruct (deliver_and_log_logged self to cn bcc resume subject m rcpts w1 Ha1)
      as (b & _ & Hv & Hlogged).
    rewrite Hcl, Hcr, log_entry_explicit in Hlogged.
    destruct (deliver_and_log self to cn bcc resume subject m rcpts w1)
      as [[b'|e] w2] eqn:Hdel; simpl in Hv, Hlogged; [|discriminate].
    injection Hv as ->.
    assert (Hrun : send_attempt self config to rn cn bcc resume custom w = (Ok b, w2)).
    { unfold send_attempt. rewrite (bind_ok _ _ _ _ _ Hcomp). exact Hdel. }
    rewrite (try_ok _ _ _ _ _ Hrun).
    exists b, subject, "SMTP sending failed".
    split; [reflexivity|]. split; [discriminate|].
    apply (logged_carried (log_file self) w w1 w2 w2 _ Hwr1 Hf eq_refl (fun _ H => H)).
    now destruct b.
  - (* an exception before delivery: the handler writes the entry *)
    assert (Hrun : send_attempt self config to rn cn bcc resume custom w = (Raise e, w1)).
    { unfold send_attempt. now rewrite (bind_raise _ _ _ _ _ Hcomp). }
    rewrite (try_raise _ _ _ _ _ Hrun).
    destruct (is_FileNotFoundError e).
    + destruct (failure_is_logged (log_file self) to cn "Failed - File Not Found"
                  ("Resume file not found: " ++ path_str resume) w1 Ha1) as [Hv Hlogged].
      rewrite Hcl, Hcr, log_entry_explicit in Hlogged.
      exists false, "Failed - File Not Found",
        ("Resume file not found: " ++ path_str resume).
      split; [exact Hv|]. split; [discriminate|].
      exact (logged_carried (log_file self) w w1 _ _ _ Hwr1 Hf eq_refl (fun _ H => H)
               Hlogged).
    + destruct (failure_is_logged (log_file self) to cn "Failed - Unexpected Error"
                  ("Unexpected error: " ++ text e) w1 Ha1) as [Hv Hlogged].
      rewrite Hcl, Hcr, log_entry_explicit in Hlogged.
      exists false, "Failed - Unexpected Error", ("Unexpected error: " ++ text e).
      split; [exact Hv|]. split; [discriminate|].
      exact (logged_carried (log_file self) w w1 _ _ _ Hwr1 Hf eq_refl (fun _ H => H)
               Hlogged).
Qed.

Lemma one_record_per_attempt_witness :
  exists (b : bool) (subject error : string),
    value_of (send_recruitment_email sample_agent "a@b.com" None None (Some "x@y.com")
                sample_resume None world_recipient_refused) = Ok b
    /\ error <> EmptyString
    /\ files (world_of (send_recruitment_email sample_agent "a@b.com" None None
                          (Some "x@y.com") sample_resume None world_recipient_refused))
             "sent_emails.json"
       = Document (JArr [ JObj [ ("timestamp", JStr "2024-05-01T09:00:00.000000");
                                 ("recipient", JStr "a@b.com");
                                 ("company", JStr "Not specified");
                                 ("subject", JStr subject);
                                 ("success", JBool b);
                                 ("error", if b then JNull else JStr error) ] ]).
Proof.
  apply (one_record_per_attempt sample_agent "a@b.com" None None (Some "x@y.com")
           sample_resume None world_recipient_refused); reflexivity.
Defined.

(** C2, as stated, fails: with a log file that cannot be opened for
    writing the message is handed to the relay, the attempt returns
    [True], and no record is added: there is still no log file. *)
Lemma attempt_not_recorded_on_read_only_log :
  let r := send_recruitment_email sample_agent "a@b.com" None None None
             sample_resume None world_read_only in
  value_of r = Ok true
  /\ existsb sends_message (smtp_calls (world_of r)) = true
  /\ files world_read_only "sent_emails.json" = Absent
  /\ files (world_of r) "sent_emails.json" = Absent
  /\ In "Failed to write to log file: [Errno 13] Permission denied: 'sent_emails.json'"
        (stdout (world_of r)).
Proof. repeat split. cbv. tauto. Qed.






(** ** No configuration *)

(** C10. Without a configuration [send_recruitment_email] returns
    [False] at once: nothing is logged, no request is made, no session
    is opened. *)
Theorem no_configuration_no_attempt (self : RecruitmentEmailAgent) (to : string)
  (rn cn bcc : option string) (resume : Path) (custom : option string) (w : World) :
  get_config (config_manager self) = None ->
  let r := send_recruitment_email self to rn cn bcc resume custom w in
  value_of r = Ok false
  /\ files (world_of r) = files w
  /\ clock_reads (world_of r) = clock_reads w
  /\ http_calls (world_of r) = http_calls w
  /\ smtp_calls (world_of r) = smtp_calls w
  /\ smtp_conn (world_of r) = smtp_conn w
  /\ stdout (world_of r) = (stdout w ++ ["No configuration found!"])%list.
Proof.
  intros Hnone. cbv zeta. unfold send_recruitment_email. rewrite Hnone.
  repeat split.
Qed.

Lemma no_configuration_no_attempt_witness :
  value_of (send_recruitment_email unconfigured_agent "a@b.com" None None None
              sample_resume None plain_world) = Ok false
  /\ files (world_of (send_recruitment_email unconfigured_agent "a@b.com" None None None
                        sample_resume None plain_world)) "sent_emails.json" = Absent
  /\ http_calls (world_of (send_recruitment_email unconfigured_agent "a@b.com" None None
                             None sample_resume None plain_world)) = []
  /\ smtp_calls (world_of (send_recruitment_email unconfigured_agent "a@b.com" None None
                             None sample_resume None plain_world)) = [].
Proof.
  destruct (no_configuration_no_attempt unconfigured_agent "a@b.com" None None None
              sample_resume None plain_world eq_refl)
    as (Hv & Hf & _ & Hh & Hs & _).
  split; [exact Hv|]. split; [now rewrite Hf|]. split; [exact Hh | exact Hs].
Defined.

(** An empty configuration counts as none. *)
Lemma empty_configuration_no_attempt (self : RecruitmentEmailAgent) (to : string)
  (rn cn bcc : option string) (resume : Path) (custom : option string) (w : World) :
  get_config (config_manager self) = Some [] ->
  send_recruitment_email self to rn cn bcc resume custom w
  = (Ok false, set_stdout (stdout w ++ ["No configuration found!"])%list w).
Proof. intros H. unfold send_recruitment_email. now rewrite H. Qed.

(** ** Template rendering *)

Lemma field_value_name (kwargs : dict string) (f : string) :
  is_name f = true ->
  field_value kwargs f
  = match lookup f kwargs with
    | Some v => Ok v
    | None => Raise (key_error f)
    end.
Proof.
  unfold is_name, field_value. destruct f as [|c f]; [discriminate|].
  cbn [PyStr.truthy andb]. intros H. apply negb_true_iff in H. now rewrite H.
Qed.

Section Rendering.
Variable runtime : string -> dict string -> result string.
Variable kwargs : dict string.

(** A template made of text and plain names renders when every
    name is supplied. *)
Lemma format_scan_supplied (n : nat) :
  forall s, String.length s <= n ->
  forall st out fs,
    placeholders_scan st s = Some fs ->
    (forall f, In f fs -> lookup f kwargs <> None) ->
    exists body, format_scan runtime kwargs st s out = Ok body.
Proof.
  induction n as [|n IH]; intros [|c r] Hlen st out fs Hp Hall;
    cbn [String.length] in Hlen; try lia.
  - destruct st; [now eexists | discriminate].
  - destruct st; [now eexists | discriminate].
  - assert (Hr : String.length r <= n) by lia.
    destruct st as [|acc]; cbn [placeholders_scan format_scan] in *.
    + destruct (Ascii.eqb c LBRACE).
      * destruct r as [|d r']; [discriminate|].
        destruct (Ascii.eqb d LBRACE).
        -- apply (IH r' ltac:(cbn [String.length] in Hr; lia) _ _ fs Hp Hall).
        -- apply (IH _ Hr _ _ fs Hp Hall).
      * destruct (Ascii.eqb c RBRACE).
        -- destruct r as [|d r']; [discriminate|].
           destruct (Ascii.eqb d RBRACE); [|discriminate].
           apply (IH r' ltac:(cbn [String.length] in Hr; lia) _ _ fs Hp Hall).
        -- apply (IH _ Hr _ _ fs Hp Hall).
    + destruct (opens_field_syntax c); [discriminate|].
      destruct (Ascii.eqb c RBRACE).
      * destruct (is_name acc) eqn:Hname; [|discriminate].
        destruct (placeholders_scan InText r) as [fs'|] eqn:Hrest; [|discriminate].
        injection Hp as <-. rewrite (field_value_name _ _ Hname).
        destruct (lookup acc kwargs) as [v|] eqn:Hv.
        -- apply (IH _ Hr _ _ fs' Hrest). intros f Hf. apply Hall. now right.
        -- exfalso. apply (Hall acc); [now left | exact Hv].
      * apply (IH _ Hr _ _ fs Hp Hall).
Qed.

(** With a name that is not supplied, the rendering raises
    [KeyError] for the first such name. *)
Lemma format_scan_missing (n : nat) :
  forall s, String.length s <= n ->
  forall st out fs,
    placeholders_scan st s = Some fs ->
    (exists f, In f fs /\ lookup f kwargs = None) ->
    exists before k after,
      fs = (before ++ k :: after)%list
      /\ (forall f, In f before -> lookup f kwargs <> None)
      /\ lookup k kwargs = None
      /\ format_scan runtime kwargs st s out = Raise (key_error k).
Proof.
  induction n as [|n IH]; intros [|c r] Hlen st out fs Hp Hmiss;
    cbn [String.length] in Hlen; try lia.
  - destruct st; [|discriminate]. injection Hp as <-.
    destruct Hmiss as (f & [] & _).
  - destruct st; [|discriminate]. injection Hp as <-.
    destruct Hmiss as (f & [] & _).
  - assert (Hr : String.length r <= n) by lia.
    destruct st as [|acc]; cbn [placeholders_scan format_scan] in *.
    + destruct (Ascii.eqb c LBRACE).
      * destruct r as [|d r']; [discriminate|].
        destruct (Ascii.eqb d LBRACE).
        -- apply (IH r' ltac:(cbn [String.length] in Hr; lia) _ _ fs Hp Hmiss).
        -- apply (IH _ Hr _ _ fs Hp Hmiss).
      * destruct (Ascii.eqb c RBRACE).
        -- destruct r as [|d r']; [discriminate|].
           destruct (Ascii.eqb d RBRACE); [|discriminate].
           apply (IH r' ltac:(cbn [String.length] in Hr; lia) _ _ fs Hp Hmiss).
        -- apply (IH _ Hr _ _ fs Hp Hmiss).
    + destruct (opens_field_syntax c); [discriminate|].
      destruct (Ascii.eqb c RBRACE).
      * destruct (is_name acc) eqn:Hname; [|discriminate].
        destruct (placeholders_scan InText r) as [fs'|] eqn:Hrest; [|discriminate].
        injection Hp as <-. rewrite (field_value_name _ _ Hname).
        destruct (lookup acc kwargs) as [v|] eqn:Hv.
        -- destruct (IH _ Hr InText (out ++ v) fs' Hrest)
             as (before & k & after & -> & Hbefore & Hnone & Hfmt).
           { destruct Hmiss as (f & [<- | Hf] & Hnone); [congruence | eauto]. }
           exists (acc :: before), k, after. split; [reflexivity|].
           split; [|now split].
           intros f [<- | Hf]; [congruence | now apply Hbefore].
        -- exists [], acc, fs'. split; [reflexivity|].
           split; [intros f [] | now split].
      * apply (IH _ Hr _ _ fs Hp Hmiss).
Qed.
End Rendering.

(** C6, as the code has it. For a template made of literal text (a
    literal brace written twice) and of placeholders that are plain
    names: rendered in the person-only way, which supplies [name] and
    [sender_name], a template that names [company] raises [KeyError]
    for the first of its placeholders that is neither of the two;
    rendered with every placeholder supplied, it never fails. *)
Theorem render_plain_template (template : string) (fs : list string)
  (display_name sender_name : string) (kwargs : dict string) (w : World) :
  placeholders template = Some fs ->
  (In "company" fs ->
     exists before k after,
       fs = (before ++ k :: after)%list
       /\ (forall f, In f before -> f = "name" \/ f = "sender_name")
       /\ k <> "name" /\ k <> "sender_name"
       /\ value_of (render template [("name", display_name); ("sender_name", sender_name)] w)
          = Raise (Exn KeyError (PyStr.repr k)))
  /\ ((forall f, In f fs -> lookup f kwargs <> None) ->
      exists body, value_of (render template kwargs w) = Ok body).
Proof.
  intros Hp. split.
  - intros Hin.
    destruct (format_scan_missing (format_field w)
                [("name", display_name); ("sender_name", sender_name)]
                (String.length template) template (le_n _) InText EmptyString fs Hp)
      as (before & k & after & Hfs & Hbefore & Hnone & Hfmt).
    { exists "company". split; [exact Hin | reflexivity]. }
    exists before, k, after. split; [exact Hfs|]. repeat split.
    + intros f Hf. apply Hbefore in Hf. cbn [lookup] in Hf.
      destruct (String.eqb_spec f "name") as [E|_]; [now left|].
      destruct (String.eqb_spec f "sender_name") as [E|_]; [now right | now elim Hf].
    + intros ->. discriminate Hnone.
    + intros ->. discriminate Hnone.
    + exact Hfmt.
  - intros Hall.
    exact (format_scan_supplied (format_field w) kwargs (String.length template)
             template (le_n _) InText EmptyString fs Hp Hall).
Qed.

Lemma render_plain_template_witness :
  (exists before k after,
     ["name"; "company"; "sender_name"] = (before ++ k :: after)%list
     /\ (forall f, In f before -> f = "name" \/ f = "sender_name")
     /\ k <> "name" /\ k <> "sender_name"
     /\ value_of (render "Dear {name}, I admire {company}. Regards, {sender_name}"
                    [("name", "Hiring Manager"); ("sender_name", "Jane Doe")] plain_world)
        = Raise (Exn KeyError (PyStr.repr k)))
  /\ (exists body,
        value_of (render "Dear {name}, I admire {company}. Regards, {sender_name}"
                    [("name", "Hiring Manager"); ("company", "your organization");
                     ("sender_name", "Jane Doe")] plain_world) = Ok body).
Proof.
  destruct (render_plain_template
              "Dear {name}, I admire {company}. Regards, {sender_name}"
              ["name"; "company"; "sender_name"] "Hiring Manager" "Jane Doe"
              [("name", "Hiring Manager"); ("company", "your organization");
               ("sender_name", "Jane Doe")] plain_world eq_refl) as [Hmissing Hsupplied].
  split.
  - apply Hmissing. simpl. auto.
  - apply Hsupplied. intros f [<- | [<- | [<- | []]]]; discriminate.
Defined.

(** The name in the text of the [KeyError] is written as [repr]
    writes it. *)
Example key_error_of_quoted_name :
  value_of (render "{it's} {company}"
              [("name", "Hiring Manager"); ("sender_name", "Jane Doe")] plain_world)
  = Raise (Exn KeyError (String PyStr.DQUOTE ("it's" ++ PyStr.dq))).
Proof. reflexivity. Qed.

(** C6, as stated, fails: the only placeholder of this template is
    [name], it is supplied, and the rendering raises [ValueError] on
    the closing brace that follows. *)
Lemma render_fails_on_single_brace :
  lookup "name" [("name", "Hiring Manager"); ("company", "your organization");
                 ("sender_name", "Jane Doe")] = Some "Hiring Manager"
  /\ PyStr.contains smiley_template "{company}" = false
  /\ PyStr.contains smiley_template "{sender_name}" = false
  /\ value_of (render smiley_template
                 [("name", "Hiring Manager"); ("company", "your organization");
                  ("sender_name", "Jane Doe")] plain_world)
     = Raise (Exn ValueError "Single '}' encountered in format string").
Proof. repeat split. Qed.

(** The missing placeholder reaches the caller of the send as a failed,
    logged attempt: [False], no SMTP session, one entry with the
    error. *)
Example missing_placeholder_fails_the_send :
  let r := send_recruitment_email person_only_agent "a@b.com" (Some "Ada") None None
             sample_resume (Some "Application - Jane Doe") plain_world in
  value_of r = Ok false
  /\ smtp_calls (world_of r) = []
  /\ files (world_of r) "sent_emails.json"
     = Document (JArr [log_entry "2024-05-01T09:00:00.000000" "a@b.com" None
                         "Failed - Unexpected Error" false
                         (Some "Unexpected error: 'company'")]).
Proof. repeat split. Qed.

(* ===================================================================== *)
(** * Further properties *)
(* ===================================================================== *)

(** ** Characters of a string *)

Lemma occurs_append (c : ascii) (a b : string) :
  occurs c (a ++ b) = occurs c a || occurs c b.
Proof. induction a as [|d a IH]; simpl; [reflexivity | now rewrite IH, orb_assoc]. Qed.

Lemma occurs_replace_gone (c : ascii) (by_ s : string) :
  occurs c by_ = false -> occurs c (PyStr.replace c by_ s) = false.
Proof.
  intros Hby. induction s as [|d s IH]; simpl; [reflexivity|].
  destruct (Ascii.eqb d c) eqn:E.
  - now rewrite occurs_append, Hby, IH.
  - simpl. now rewrite E, IH.
Qed.

Lemma occurs_replace_other (c d : ascii) (by_ s : string) :
  occurs c by_ = false -> occurs c s = false ->
  occurs c (PyStr.replace d by_ s) = false.
Proof.
  intros Hby. induction s as [|x s IH]; simpl; [reflexivity|].
  intros H. apply orb_false_iff in H as [Hx Hs].
  destruct (Ascii.eqb x d).
  - now rewrite occurs_append, Hby, IH.
  - simpl. now rewrite Hx, IH.
Qed.

Lemma occurs_lstrip (c : ascii) (s : string) :
  occurs c s = false -> occurs c (PyStr.lstrip s) = false.
Proof.
  induction s as [|d s IH]; simpl; [reflexivity|].
  intros H. destruct (PyStr.isspace d); [|exact H].
  apply orb_false_iff in H as [_ Hs]. now apply IH.
Qed.

Lemma occurs_rstrip (c : ascii) (s : string) :
  occurs c s = false -> occurs c (PyStr.rstrip s) = false.
Proof.
  induction s as [|d s IH]; simpl; [reflexivity|].
  intros H. apply orb_false_iff in H as [Hd Hs]. specialize (IH Hs).
  destruct (PyStr.rstrip s) as [|x r].
  - destruct (PyStr.isspace d); simpl; [reflexivity | now rewrite Hd].
  - cbn [occurs] in *. now rewrite Hd, IH.
Qed.

Lemma occurs_strip (c : ascii) (s : string) :
  occurs c s = false -> occurs c (PyStr.strip s) = false.
Proof. intros H. unfold PyStr.strip. now apply occurs_rstrip, occurs_lstrip. Qed.

Lemma occurs_take (c : ascii) (n : nat) (s : string) :
  occurs c s = false -> occurs c (PyStr.take n s) = false.
Proof.
  revert s; induction n as [|n IH]; intros [|d s]; simpl; try reflexivity.
  intros H. apply orb_false_iff in H as [Hd Hs]. now rewrite Hd, IH.
Qed.

Lemma occurs_drop (c : ascii) (n : nat) (s : string) :
  occurs c s = false -> occurs c (PyStr.drop n s) = false.
Proof.
  revert s; induction n as [|n IH]; intros [|d s]; simpl; auto.
  intros H. apply orb_false_iff in H as [_ Hs]. now apply IH.
Qed.

(** Goals [occurs c (...) = false] follow the string operations down
    to the replacement that removes [c]. *)
Ltac no_occurrence :=
  repeat first
    [ reflexivity
    | apply occurs_strip | apply occurs_take | apply occurs_drop
    | apply occurs_replace_gone; reflexivity
    | apply occurs_replace_other; [reflexivity|]
    | rewrite occurs_append; apply orb_false_iff; split ].

Lemma cleaned_form_removes (c : ascii) (raw : string) :
  c = PyStr.DQUOTE \/ c = PyStr.SQUOTE \/ c = PyStr.LF \/ c = PyStr.CR ->
  occurs c (cleaned_form raw) = false.
Proof.
  intros [-> | [-> | [-> | ->]]]; unfold cleaned_form;
    match goal with |- context [if ?b then _ else _] => destruct b end;
    no_occurrence.
Qed.

(** ** Subject cleaning, on every input *)

Lemma length_clean_subject (raw : string) :
  String.length (_clean_subject raw) <= 80.
Proof.
  unfold _clean_subject. destruct (PyStr.truthy raw); cbn [negb]; [|simpl; lia].
  destruct (Nat.ltb_spec 80 (String.length (cleaned_form raw))) as [Hlong|Hshort].
  - rewrite length_append, length_take. cbn [String.length]. lia.
  - exact Hshort.
Qed.

(** X1. Whatever the generated text, the cleaned subject has at most
    80 characters. *)
Theorem clean_subject_at_most_80 (raw : string) :
  String.length (_clean_subject raw) <= 80.
Proof. apply length_clean_subject. Qed.

(** X2. The cleaned subject holds no double quote, no single quote, no
    line feed and no carriage return. *)
Theorem clean_subject_has_no_quote_or_line_break (raw : string) :
  occurs PyStr.DQUOTE (_clean_subject raw) = false
  /\ occurs PyStr.SQUOTE (_clean_subject raw) = false
  /\ occurs PyStr.LF (_clean_subject raw) = false
  /\ occurs PyStr.CR (_clean_subject raw) = false.
Proof.
  assert (H : forall c,
             c = PyStr.DQUOTE \/ c = PyStr.SQUOTE \/ c = PyStr.LF \/ c = PyStr.CR ->
             occurs c (_clean_subject raw) = false).
  { intros c Hc. unfold _clean_subject.
    destruct (PyStr.truthy raw); cbn [negb]; [|reflexivity].
    pose proof (cleaned_form_removes c raw Hc) as Hclean.
    destruct (80 <? String.length (cleaned_form raw)); [|exact Hclean].
    rewrite occurs_append. apply orb_false_iff. split.
    - now apply occurs_take.
    - destruct Hc as [-> | [-> | [-> | ->]]]; reflexivity. }
  repeat split; apply H; auto.
Qed.

(** ** What a run returns, how many requests it makes *)

Section ReturnsOnly.
Context {A : Type} (Q : A -> Prop).

Lemma returns_only_ret (a : A) : Q a -> returns_only Q (ret a).
Proof. intros Ha w a' H. injection H as <-. exact Ha. Qed.

Lemma returns_only_raise (e : exn) : returns_only Q (@raise A e).
Proof. intros w a H. discriminate H. Qed.

Lemma returns_only_bind {B : Type} (m : M B) (k : B -> M A) :
  (forall b, returns_only Q (k b)) -> returns_only Q (bind m k).
Proof.
  intros Hk w a. unfold bind. destruct (m w) as [[b|e] w']; simpl.
  - apply Hk.
  - discriminate.
Qed.

Lemma returns_only_try_except (m : M A) (h : exn -> M A) :
  returns_only Q m -> (forall e, returns_only Q (h e)) ->
  returns_only Q (try_except m h).
Proof.
  intros Hm Hh w a. unfold try_except. specialize (Hm w).
  destruct (m w) as [[b|e] w']; simpl in *.
  - exact (Hm a).
  - apply Hh.
Qed.
End ReturnsOnly.

Section AddsRequests.

Lemma adds_requests_still {A : Type} (m : M A) (n : nat) :
  preserves http_calls m -> adds_requests n m.
Proof.
  intros Hm w. exists []. rewrite Hm, app_nil_r. split; [reflexivity | simpl; lia].
Qed.

Lemma adds_requests_exchange (req : http_request) : adds_requests 1 (http_exchange req).
Proof.
  intros w. exists [req]. unfold http_exchange.
  destruct (http_service w _ req); split; reflexivity || (simpl; lia).
Qed.

Lemma adds_requests_bind {A B : Type} (n1 n2 : nat) (m : M A) (k : A -> M B) :
  adds_requests n1 m -> (forall a, adds_requests n2 (k a)) ->
  adds_requests (n1 + n2) (bind m k).
Proof.
  intros Hm Hk w. unfold bind. destruct (Hm w) as (x1 & E1 & L1).
  destruct (m w) as [[a|e] w']; simpl in *.
  - destruct (Hk a w') as (x2 & E2 & L2). exists (x1 ++ x2)%list.
    rewrite E2, E1, length_app, app_assoc. split; [reflexivity | lia].
  - exists x1. split; [exact E1 | lia].
Qed.

Lemma adds_requests_try_except {A : Type} (n1 n2 : nat) (m : M A) (h : exn -> M A) :
  adds_requests n1 m -> (forall e, adds_requests n2 (h e)) ->
  adds_requests (n1 + n2) (try_except m h).
Proof.
  intros Hm Hh w. unfold try_except. destruct (Hm w) as (x1 & E1 & L1).
  destruct (m w) as [[a|e] w']; simpl in *.
  - exists x1. split; [exact E1 | lia].
  - destruct (Hh e w') as (x2 & E2 & L2). exists (x1 ++ x2)%list.
    rewrite E2, E1, length_app, app_assoc. split; [reflexivity | lia].
Qed.

Lemma adds_requests_more {A : Type} (n n' : nat) (m : M A) :
  n <= n' -> adds_requests n m -> adds_requests n' m.
Proof.
  intros Hn Hm w. destruct (Hm w) as (x & E & L). exists x. split; [exact E | lia].
Qed.
End AddsRequests.

(** A step that makes no request. *)
Ltac no_request :=
  apply adds_requests_still;
  assert (console_blind http_calls) by blind;
  frame.

Lemma probe_handler_adds_nothing {A : Type} (v : A) (e : exn) :
  adds_requests 0 (except_RequestException v e).
Proof. unfold except_RequestException. no_request. Qed.

Lemma is_model_available_adds_one (self : OllamaClient) (mn : option string) :
  adds_requests 1 (is_model_available self mn).
Proof.
  unfold is_model_available, requests_get.
  apply (adds_requests_try_except 1 0); [|intros e; apply probe_handler_adds_nothing].
  apply (adds_requests_bind 1 0); [apply adds_requests_exchange|].
  intros r. no_request.
Qed.

Lemma get_available_models_adds_one (self : OllamaClient) :
  adds_requests 1 (get_available_models self).
Proof.
  unfold get_available_models, requests_get.
  apply (adds_requests_try_except 1 0); [|intros e; apply probe_handler_adds_nothing].
  apply (adds_requests_bind 1 0); [apply adds_requests_exchange|].
  intros r. no_request.
Qed.

Lemma generation_call_adds_one (self : OllamaClient) (prompt sender : string)
  (company : option string) :
  adds_requests 1 (generation_call self prompt sender company).
Proof.
  unfold generation_call, requests_post.
  apply (adds_requests_try_except 1 0).
  - apply (adds_requests_bind 0 1); [no_request|]. intros _.
    apply (adds_requests_bind 1 0); [apply adds_requests_exchange|].
    intros r. no_request.
  - intros e. no_request.
Qed.

(** The status probe makes exactly one request, whatever the answer. *)
Lemma is_ollama_running_one_request (self : OllamaClient) (w : World) :
  http_calls (world_of (is_ollama_running self w))
  = (http_calls w ++ [GET (models_url self) 5])%list.
Proof.
  unfold is_ollama_running, try_except, bind, requests_get, http_exchange,
    except_RequestException.
  destruct (http_service w _ _) as [[]|r]; reflexivity.
Qed.

(** X3. One call of [generate_subject_line] adds between one and three
    HTTP requests to those made before: the first is the status probe,
    [GET] on the listing of models with a timeout of 5, and at most two
    requests follow it. *)
Theorem generate_subject_line_request_budget (self : OllamaClient)
  (recipient company : option string) (sender : string) (w : World) :
  exists extra,
    http_calls (world_of (generate_subject_line self recipient company sender w))
    = (http_calls w ++ GET (models_url self) 5 :: extra)%list
    /\ length extra <= 2.
Proof.
  unfold generate_subject_line.
  pose proof (is_ollama_running_one_request self w) as Hfirst.
  unfold bind at 1.
  destruct (is_ollama_running self w) as [[running|e] w1]; cbn [world_of snd] in *.
  2:{ exists []. rewrite Hfirst. split; [reflexivity | simpl; lia]. }
  assert (Hrest : adds_requests 2
            (if negb running
             then print "Ollama service not running. Using default subject." ;;
                  ret (_default_subject sender company)
             else
               available <- is_model_available self None ;;
               if negb available
               then
                 print ("Model '" ++ model self ++ "' not found. Using default subject.") ;;
                 available0 <- get_available_models self ;;
                 match available0 with
                 | [] => ret tt
                 | _ :: _ =>
                     shown <- lift (py_join ", " (firstn 3 available0)) ;;
                     print ("Available models: " ++ shown) ;;
                     print ("Install with: ollama pull " ++ model self)
                 end ;;
                 ret (_default_subject sender company)
               else generation_call self
                      (_create_subject_prompt recipient company sender) sender company)).
  { destruct running; cbn [negb]; [|no_request].
    apply (adds_requests_bind 1 1); [apply is_model_available_adds_one|].
    intros available. destruct available; cbn [negb].
    - apply generation_call_adds_one.
    - apply (adds_requests_bind 0 1); [no_request|]. intros _.
      apply (adds_requests_bind 1 0); [apply get_available_models_adds_one|].
      intros l. no_request. }
  destruct (Hrest w1) as (extra & E & L).
  exists extra. split; [|exact L].
  rewrite E, Hfirst, <- app_assoc. reflexivity.
Qed.

(** X4. A subject handed back by [generate_subject_line] is either the
    fallback subject or a generated one that passed the validity test
    and has at most 80 characters. *)
Theorem generated_subject_is_fallback_or_valid (self : OllamaClient)
  (recipient company : option string) (sender : string) (w : World)
  (subject : string) :
  value_of (generate_subject_line self recipient company sender w) = Ok subject ->
  subject = _default_subject sender company
  \/ (_is_valid_subject subject = true /\ String.length subject <= 80).
Proof.
  revert w subject.
  change (returns_only
            (fun subject => subject = _default_subject sender company
                            \/ (_is_valid_subject subject = true
                                /\ String.length subject <= 80))
            (generate_subject_line self recipient company sender)).
  unfold generate_subject_line, generation_call. cbv zeta.
  repeat first
    [ apply returns_only_bind; intros ?
    | apply returns_only_try_except; [ | intros ? ]
    | apply returns_only_ret; left; reflexivity
    | match goal with
      | |- returns_only _ (if ?b then _ else _) => destruct b eqn:?
      | |- returns_only _ (match ?x with _ => _ end) => destruct x
      end ].
  apply returns_only_ret. right. split; [assumption | apply length_clean_subject].
Qed.

Lemma generated_subject_is_fallback_or_valid_witness :
  "Software Engineer Application - Jane Doe" = _default_subject "Jane Doe" None
  \/ (_is_valid_subject "Software Engineer Application - Jane Doe" = true
      /\ String.length "Software Engineer Application - Jane Doe" <= 80).
Proof.
  apply (generated_subject_is_fallback_or_valid default_ollama None None "Jane Doe"
           plain_world "Software Engineer Application - Jane Doe").
  reflexivity.
Defined.

(** X5. When the status probe is answered with a status other than
    200, the subject is the fallback and nothing else is asked of the
    service. *)
Theorem fallback_when_probe_status_is_not_200 (self : OllamaClient)
  (recipient company : option string) (sender : string) (w : World) (r : response) :
  http_service w (length (http_calls w)) (GET (models_url self) 5) = Responds r ->
  status_code r <> 200 ->
  value_of (generate_subject_line self recipient company sender w)
  = Ok (_default_subject sender company)
  /\ http_calls (world_of (generate_subject_line self recipient company sender w))
     = (http_calls w ++ [GET (models_url self) 5])%list.
Proof.
  intros H Hs. apply Nat.eqb_neq in Hs.
  unfold generate_subject_line, is_ollama_running, try_except, bind, requests_get,
    http_exchange.
  rewrite H. cbn [fst snd ret status_code]. rewrite Hs. split; reflexivity.
Qed.

Lemma fallback_when_probe_status_is_not_200_witness :
  value_of (generate_subject_line default_ollama None (Some "Acme") "Jane Doe"
              world_service_unavailable)
  = Ok "Application for Position at Acme - Jane Doe"
  /\ http_calls (world_of (generate_subject_line default_ollama None (Some "Acme")
                             "Jane Doe" world_service_unavailable))
     = [GET "http://localhost:11434/api/tags" 5].
Proof.
  apply (fallback_when_probe_status_is_not_200 default_ollama None (Some "Acme")
           "Jane Doe" world_service_unavailable (Response 503 None) eq_refl).
  discriminate.
Defined.

(** X6. No failure of a request gets out of [generate_subject_line]:
    an exception that does get out is never a [RequestException]
    (refused connection, timeout, body that is not JSON). *)
Theorem request_errors_never_escape (self : OllamaClient)
  (recipient company : option string) (sender : string) (w : World) (e : exn) :
  value_of (generate_subject_line self recipient company sender w) = Raise e ->
  is_RequestException e = false.
Proof.
  apply (generate_subject_line_absorbs_request_errors self recipient company sender w e).
Qed.

Lemma request_errors_never_escape_witness :
  is_RequestException (Exn KeyError "'name'") = false.
Proof.
  apply (request_errors_never_escape default_ollama None None "Jane Doe"
           world_listing_without_name (Exn KeyError "'name'")).
  reflexivity.
Defined.

(** X7. With model listings of the documented shape (an object whose
    [models] is an array of objects with a string [name], or no JSON at
    all), [generate_subject_line] ends with a subject whatever the
    service does otherwise. *)
Theorem subject_on_sound_listings (self : OllamaClient)
  (recipient company : option string) (sender : string) (w : World) :
  sound_listings w ->
  exists subject,
    value_of (generate_subject_line self recipient company sender w) = Ok subject.
Proof.
  apply generate_subject_line_returns_on_sound_listings.
Qed.

Lemma subject_on_sound_listings_witness :
  exists subject,
    value_of (generate_subject_line default_ollama None None "Jane Doe"
                world_model_ready) = Ok subject.
Proof.
  apply (subject_on_sound_listings default_ollama None None "Jane Doe"
           world_model_ready).
  intros n url t r H _. injection H as <-. reflexivity.
Defined.

(** In that world the listing is read twice and names the model, and
    the subject is the generated one. *)
Example subject_of_ready_model :
  let r := generate_subject_line default_ollama None None "Jane Doe" world_model_ready in
  value_of r = Ok "Backend Engineer Application - Jane Doe"
  /\ length (http_calls (world_of r)) = 3
  /\ http_service world_model_ready 0 (GET "http://localhost:11434/api/tags" 5)
     = Responds (Response 200 (Some (JObj [ ("models",
                   JArr [ JObj [ ("name", JStr "mistral:latest") ] ]) ]))).
Proof. repeat split. Qed.

(** ** Delivery, step by step *)

(** X8. [_send_via_smtp] answers [True] exactly when the relay accepts
    all five steps, QUIT included, and the configuration holds the
    address and the password. *)
Theorem send_via_smtp_true_iff (self : RecruitmentEmailAgent)
  (m : ComposedMessage) (to : list string) (w : World) :
  value_of (_send_via_smtp self m to w) = Ok true
  <-> (on_connect (smtp_relay w) = None
       /\ on_starttls (smtp_relay w) = None
       /\ on_login (smtp_relay w) = None
       /\ on_send_message (smtp_relay w) to = None
       /\ on_quit (smtp_relay w) = None
       /\ (exists user,
             subscript (get_config (config_manager self)) "sender_email" = Ok user)
       /\ (exists password,
             subscript (get_config (config_manager self)) "sender_password" = Ok password)).
Proof.
  split.
  - run_delivery w; intros H; try discriminate H.
    repeat split; eauto.
  - intros (Hc & Ht & Hl & Hs & Hq & [u Hu] & [p Hp]).
    unfold _send_via_smtp, smtp_handlers, try_except, bind, SMTP, starttls, login,
      send_message, quit, smtp_step, print, lift, ret, value_of.
    rewrite Hu, Hp.
    cbn [fst snd smtp_relay smtp_calls smtp_conn stdout set_smtp set_stdout].
    rewrite Hc.
    cbn [fst snd smtp_relay smtp_calls smtp_conn stdout set_smtp set_stdout].
    rewrite Ht.
    cbn [fst snd smtp_relay smtp_calls smtp_conn stdout set_smtp set_stdout].
    rewrite Hl.
    cbn [fst snd smtp_relay smtp_calls smtp_conn stdout set_smtp set_stdout].
    rewrite Hs.
    cbn [fst snd smtp_relay smtp_calls smtp_conn stdout set_smtp set_stdout].
    rewrite Hq. reflexivity.
Qed.

(** X9. When the relay has taken the message and QUIT then fails, the
    delivery is reported as failed although the message was handed
    over. *)
Theorem quit_failure_reported_as_failed_delivery (self : RecruitmentEmailAgent)
  (m : ComposedMessage) (to : list string) (w : World) (e : exn)
  (user password : string) :
  subscript (get_config (config_manager self)) "sender_email" = Ok user ->
  subscript (get_config (config_manager self)) "sender_password" = Ok password ->
  on_connect (smtp_relay w) = None ->
  on_starttls (smtp_relay w) = None ->
  on_login (smtp_relay w) = None ->
  on_send_message (smtp_relay w) to = None ->
  on_quit (smtp_relay w) = Some e ->
  value_of (_send_via_smtp self m to w) = Ok false
  /\ smtp_calls (world_of (_send_via_smtp self m to w))
     = (smtp_calls w ++ [ CallSMTP "smtp.gmail.com" 587; CallStarttls;
                          CallLogin user password; CallSendMessage m to; CallQuit ])%list.
Proof.
  intros Hu Hp Hc Ht Hl Hs Hq.
  unfold _send_via_smtp, smtp_handlers, try_except, bind, SMTP, starttls, login,
    send_message, quit, smtp_step, print, lift, ret, value_of, world_of.
  rewrite Hu, Hp.
  cbn [fst snd smtp_relay smtp_calls smtp_conn stdout set_smtp set_stdout].
  rewrite Hc.
  cbn [fst snd smtp_relay smtp_calls smtp_conn stdout set_smtp set_stdout].
  rewrite Ht.
  cbn [fst snd smtp_relay smtp_calls smtp_conn stdout set_smtp set_stdout].
  rewrite Hl.
  cbn [fst snd smtp_relay smtp_calls smtp_conn stdout set_smtp set_stdout].
  rewrite Hs.
  cbn [fst snd smtp_relay smtp_calls smtp_conn stdout set_smtp set_stdout].
  rewrite Hq.
  cbn [fst snd smtp_relay smtp_calls smtp_conn stdout set_smtp set_stdout].
  destruct (cls e);
    cbn [fst snd smtp_relay smtp_calls smtp_conn stdout set_smtp set_stdout];
    (split; [reflexivity | repeat rewrite <- app_assoc; reflexivity]).
Qed.

Lemma quit_failure_reported_as_failed_delivery_witness :
  value_of (_send_via_smtp sample_agent sample_message ["a@b.com"; "x@y.com"]
              world_quit_fails) = Ok false
  /\ smtp_calls (world_of (_send_via_smtp sample_agent sample_message
                             ["a@b.com"; "x@y.com"] world_quit_fails))
     = [ CallSMTP "smtp.gmail.com" 587; CallStarttls;
         CallLogin "jane@example.com" "abcd efgh ijkl mnop";
         CallSendMessage sample_message ["a@b.com"; "x@y.com"]; CallQuit ].
Proof.
  apply (quit_failure_reported_as_failed_delivery sample_agent sample_message
           ["a@b.com"; "x@y.com"] world_quit_fails
           (Exn SMTPServerDisconnected "Connection unexpectedly closed")
           "jane@example.com" "abcd efgh ijkl mnop"); reflexivity.
Defined.

(** X10. One call of [_send_via_smtp] opens exactly one connection, as
    its first call, and tries no step again: the calls it makes after
    the connection are the first few of STARTTLS, LOGIN, the handing
    over of the message and QUIT, each once and in this order. *)
Theorem delivery_connects_exactly_once (self : RecruitmentEmailAgent)
  (m : ComposedMessage) (to : list string) (w : World) :
  exists (n : nat) (user password : string) (rest : list smtp_call),
    rest = firstn n [ CallStarttls; CallLogin user password;
                      CallSendMessage m to; CallQuit ]
    /\ smtp_calls (world_of (_send_via_smtp self m to w))
       = (smtp_calls w ++ CallSMTP "smtp.gmail.com" 587 :: rest)%list
    /\ count_connects rest = 0.
Proof.
  run_delivery w;
    repeat rewrite <- app_assoc; cbn [app];
    first
      [ exists 0, EmptyString, EmptyString; eexists;
        split; [reflexivity | split; reflexivity]
      | exists 1, EmptyString, EmptyString; eexists;
        split; [reflexivity | split; reflexivity]
      | exists 2; do 3 eexists; split; [reflexivity | split; reflexivity]
      | exists 3; do 3 eexists; split; [reflexivity | split; reflexivity]
      | exists 4; do 3 eexists; split; [reflexivity | split; reflexivity] ].
Qed.

(** X11. Neither the credentials nor the message go to a relay that
    refused the connection or STARTTLS: the session stops there. *)
Theorem nothing_sent_without_starttls (self : RecruitmentEmailAgent)
  (m : ComposedMessage) (to : list string) (w : World) :
  on_connect (smtp_relay w) <> None \/ on_starttls (smtp_relay w) <> None ->
  value_of (_send_via_smtp self m to w) = Ok false
  /\ exists made,
       smtp_calls (world_of (_send_via_smtp self m to w)) = (smtp_calls w ++ made)%list
       /\ existsb carries_secret made = false.
Proof.
  intros Hrefused.
  run_delivery w;
    try (exfalso; destruct Hrefused as [H | H]; now apply H);
    (split; [reflexivity|]);
    repeat rewrite <- app_assoc; cbn [app];
    eexists; (split; [reflexivity | reflexivity]).
Qed.

Lemma nothing_sent_without_starttls_witness :
  value_of (_send_via_smtp sample_agent sample_message ["a@b.com"] world_no_starttls)
  = Ok false
  /\ exists made,
       smtp_calls (world_of (_send_via_smtp sample_agent sample_message ["a@b.com"]
                               world_no_starttls)) = ([] ++ made)%list
       /\ existsb carries_secret made = false.
Proof.
  apply (nothing_sent_without_starttls sample_agent sample_message ["a@b.com"]
           world_no_starttls).
  right. discriminate.
Defined.

(** X12. A delivery reported as successful has issued QUIT and closed
    its session. *)
Theorem successful_delivery_has_quit (self : RecruitmentEmailAgent)
  (m : ComposedMessage) (to : list string) (w : World) :
  value_of (_send_via_smtp self m to w) = Ok true ->
  smtp_conn (world_of (_send_via_smtp self m to w)) = Closed
  /\ quits (smtp_calls (world_of (_send_via_smtp self m to w))) = true.
Proof. apply send_via_smtp_success_closes. Qed.

Lemma successful_delivery_has_quit_witness :
  smtp_conn (world_of (_send_via_smtp sample_agent sample_message ["a@b.com"]
                         plain_world)) = Closed
  /\ quits (smtp_calls (world_of (_send_via_smtp sample_agent sample_message
                                    ["a@b.com"] plain_world))) = true.
Proof.
  apply (successful_delivery_has_quit sample_agent sample_message ["a@b.com"]
           plain_world).
  reflexivity.
Defined.

(** ** The pipeline *)

Section NeverReturns.
Context (I : World -> Prop).

Lemma never_returns_bind_left {A B : Type} (m : M A) (k : A -> M B) :
  never_returns I m -> never_returns I (bind m k).
Proof.
  intros Hm w Hw. destruct (Hm w Hw) as [e He]. unfold bind.
  destruct (m w) as [[a|e'] w']; simpl in He; [discriminate|].
  exists e'. reflexivity.
Qed.

Lemma never_returns_bind_right {A B : Type} (m : M A) (k : A -> M B) :
  keeps I m -> (forall a, never_returns I (k a)) -> never_returns I (bind m k).
Proof.
  intros Hm Hk w Hw. unfold bind. specialize (Hm w Hw).
  destruct (m w) as [[a|e] w']; simpl in *.
  - apply Hk. exact Hm.
  - now exists e.
Qed.
End NeverReturns.

Lemma keeps_of_preserves {A X : Type} (f : World -> X) (P : X -> Prop) (m : M A) :
  preserves f m -> keeps (fun w => P (f w)) m.
Proof. intros Hm w Hw. now rewrite Hm. Qed.

(** Without the resume no message is built: the exception of the read
    is printed and raised again. *)
Lemma create_email_message_needs_resume (self : RecruitmentEmailAgent) (to : string)
  (rn cn bcc : option string) (subject body : string) (resume : Path) (e : exn) :
  never_returns (fun w => open_rb w (path_str resume) = Raise e)
    (_create_email_message self to rn cn bcc subject body resume).
Proof.
  intros w Hw.
  unfold _create_email_message, bind, lift, try_except, read_binary, print, raise.
  destruct (subscript _ "sender_name"); [|eexists; reflexivity].
  destruct (subscript _ "sender_email"); [|eexists; reflexivity].
  rewrite Hw. eexists; reflexivity.
Qed.

Lemma compose_email_needs_resume (self : RecruitmentEmailAgent)
  (config : option (dict string)) (to : string) (rn cn bcc : option string)
  (resume : Path) (custom : option string) (e : exn) :
  never_returns (fun w => open_rb w (path_str resume) = Raise e)
    (compose_email self config to rn cn bcc resume custom).
Proof.
  unfold compose_email.
  assert (Hc : console_blind open_rb) by blind.
  assert (Hh : http_blind open_rb) by blind.
  repeat first
    [ apply never_returns_bind_left; apply create_email_message_needs_resume
    | apply never_returns_bind_right;
      [ apply (keeps_of_preserves open_rb (fun f => f (path_str resume) = Raise e));
        repeat first [ apply generate_subject_line_preserves; assumption | frame_step ]
      | intros ? ] ].
Qed.

(** X13. When the resume cannot be read, [send_recruitment_email]
    opens no SMTP session and does not report a success: no email
    leaves without its attachment. *)
Theorem unreadable_resume_never_reaches_smtp (self : RecruitmentEmailAgent)
  (to : string) (rn cn bcc : option string) (resume : Path) (custom : option string)
  (w : World) (e : exn) :
  open_rb w (path_str resume) = Raise e ->
  smtp_calls (world_of (send_recruitment_email self to rn cn bcc resume custom w))
  = smtp_calls w
  /\ value_of (send_recruitment_email self to rn cn bcc resume custom w) <> Ok true.
Proof.
  intros Hopen. unfold send_recruitment_email.
  destruct (truthy_config (get_config (config_manager self))); cbn [negb].
  2:{ split; [reflexivity | discriminate]. }
  set (config := get_config (config_manager self)).
  destruct (compose_email_needs_resume self config to rn cn bcc resume custom e w Hopen)
    as [e' He'].
  pose proof (compose_email_preserves smtp_calls self config to rn cn bcc resume custom
                ltac:(blind) ltac:(blind) w) as Hcalls.
  destruct (compose_email self config to rn cn bcc resume custom w)
    as [[x|e''] w1] eqn:Hcomp; simpl in He', Hcalls; [discriminate|].
  injection He' as ->.
  assert (Hrun : send_attempt self config to rn cn bcc resume custom w = (Raise e', w1)).
  { unfold send_attempt. now rewrite (bind_raise _ _ _ _ _ Hcomp). }
  rewrite (try_raise _ _ _ _ _ Hrun).
  assert (Hlog : forall subject msg,
             preserves smtp_calls
               (print msg ;;
                log_email_activity (log_file self) to cn subject false (Some msg) ;;
                ret false)).
  { intros subject msg. assert (console_blind smtp_calls) by blind.
    repeat first [ apply log_email_activity_preserves; blind | frame_step ]. }
  assert (Hval : forall subject msg,
             returns_only (fun b => b = false)
               (print msg ;;
                log_email_activity (log_file self) to cn subject false (Some msg) ;;
                ret false)).
  { intros subject msg.
    repeat first [ apply returns_only_bind; intros ? | now apply returns_only_ret ]. }
  destruct (is_FileNotFoundError e'); (split;
    [ rewrite <- Hcalls; apply Hlog
    | intros Htrue; apply Hval in Htrue; discriminate Htrue ]).
Qed.

Lemma unreadable_resume_never_reaches_smtp_witness :
  smtp_calls (world_of (send_recruitment_email sample_agent "a@b.com" None None None
                          sample_resume None world_without_resume)) = []
  /\ value_of (send_recruitment_email sample_agent "a@b.com" None None None
                 sample_resume None world_without_resume) <> Ok true.
Proof.
  apply (unreadable_resume_never_reaches_smtp sample_agent "a@b.com" None None None
           sample_resume None world_without_resume
           (Exn FileNotFoundError
                "[Errno 2] No such file or directory: 'resume/jane_doe.pdf'")).
  reflexivity.
Defined.

(** X14. With a subject given by the caller the generator is not
    used: [send_recruitment_email] makes no HTTP request at all. *)
Theorem custom_subject_makes_no_request (self : RecruitmentEmailAgent)
  (to : string) (rn cn bcc : option string) (resume : Path) (custom : option string)
  (w : World) :
  PyStr.truthy_opt custom = true ->
  http_calls (world_of (send_recruitment_email self to rn cn bcc resume custom w))
  = http_calls w.
Proof.
  intros Hcustom. revert w.
  change (preserves http_calls (send_recruitment_email self to rn cn bcc resume custom)).
  assert (Hc : console_blind http_calls) by blind.
  assert (Hs : smtp_blind http_calls) by blind.
  assert (Hd : disk_blind http_calls) by blind.
  unfold send_recruitment_email, send_attempt, compose_email, deliver_and_log.
  rewrite Hcustom.
  repeat first
    [ apply create_email_message_preserves; assumption
    | apply send_via_smtp_preserves; assumption
    | apply log_email_activity_preserves; assumption
    | frame_step
    | match goal with |- preserves _ (let '(_, _) := ?x in _) => destruct x end ].
Qed.

Lemma custom_subject_makes_no_request_witness :
  http_calls (world_of (send_recruitment_email sample_agent "a@b.com" None None None
                          sample_resume (Some "Application - Jane Doe") plain_world))
  = [].
Proof.
  apply (custom_subject_makes_no_request sample_agent "a@b.com" None None None
           sample_resume (Some "Application - Jane Doe") plain_world).
  reflexivity.
Defined.

(** ** What the composed message holds *)

Lemma bind_inv {A B : Type} (m : M A) (k : A -> M B) (w w' : World) (b : B) :
  bind m k w = (Ok b, w') ->
  exists a w1, m w = (Ok a, w1) /\ k a w1 = (Ok b, w').
Proof.
  unfold bind. destruct (m w) as [[a|e] w1]; intros H; [|discriminate].
  now exists a, w1.
Qed.

Lemma create_email_message_fields (self : RecruitmentEmailAgent) (to : string)
  (rn cn bcc : option string) (subject body : string) (resume : Path)
  (w w' : World) (m : ComposedMessage) :
  _create_email_message self to rn cn bcc subject body resume w = (Ok m, w') ->
  msg_to m = to /\ msg_subject m = subject /\ msg_body m = body
  /\ msg_bcc m = (if PyStr.truthy_opt bcc then bcc else None)
  /\ open_rb w (path_str resume) = Ok (snd (msg_attachment m)).
Proof.
  unfold _create_email_message, bind, lift, try_except, read_binary, print, raise, ret.
  destruct (subscript _ "sender_name"); [|discriminate].
  destruct (subscript _ "sender_email"); [|discriminate].
  destruct (open_rb w (path_str resume)) as [payload|e]; [|discriminate].
  intros H. injection H as <- _. repeat split.
Qed.

(** X15. The body of a composed message is the configured template
    rendered with the recipient name, or "Hiring Manager" when none is
    given, the company, or "your organization" when none is given
    (left out for the person-only preference), and the sender name;
    the message carries the subject, the recipient and the bytes of
    the resume. *)
Theorem composed_message_uses_defaults (self : RecruitmentEmailAgent)
  (config : option (dict string)) (to : string) (rn cn bcc : option string)
  (resume : Path) (custom : option string) (w w' : World)
  (subject : string) (m : ComposedMessage) (rcpts : list string) :
  compose_email self config to rn cn bcc resume custom w = (Ok (subject, m, rcpts), w') ->
  exists template sender preference,
    subscript config "email_template" = Ok template
    /\ subscript config "sender_name" = Ok sender
    /\ config_get config "template_preference" = Ok preference
    /\ str_format (format_field w) template
         (if is_person_only preference
          then [ ("name", PyStr.or_else rn "Hiring Manager"); ("sender_name", sender) ]
          else [ ("name", PyStr.or_else rn "Hiring Manager");
                 ("company", PyStr.or_else cn "your organization");
                 ("sender_name", sender) ])
       = Ok (msg_body m)
    /\ msg_subject m = subject
    /\ msg_to m = to
    /\ open_rb w (path_str resume) = Ok (snd (msg_attachment m)).
Proof.
  intros H. unfold compose_email in H.
  apply bind_inv in H as (subject0 & w1 & Hsubject & H).
  assert (Hframe : format_field w1 = format_field w /\ open_rb w1 = open_rb w).
  { assert (Hc1 : console_blind format_field) by blind.
    assert (Hh1 : http_blind format_field) by blind.
    assert (Hc2 : console_blind open_rb) by blind.
    assert (Hh2 : http_blind open_rb) by blind.
    match type of Hsubject with
    | ?phase w = _ =>
        assert (Hf : preserves format_field phase)
          by (repeat first [ apply generate_subject_line_preserves; assumption
                           | frame_step ]);
        assert (Ho : preserves open_rb phase)
          by (repeat first [ apply generate_subject_line_preserves; assumption
                           | frame_step ]);
        specialize (Hf w); specialize (Ho w)
    end.
    rewrite Hsubject in Hf, Ho. now split. }
  destruct Hframe as [Hfmt Hopen]. clear Hsubject.
  apply bind_inv in H as ([] & w2 & Hp & H). unfold print in Hp. injection Hp as <-.
  apply bind_inv in H as (template & w3 & Ht & H). unfold lift in Ht. injection Ht as Ht <-.
  apply bind_inv in H as (preference & w4 & Hpref & H).
  unfold lift in Hpref. injection Hpref as Hpref <-.
  apply bind_inv in H as (body & w5 & Hbody & H).
  assert (Hrender : exists sender,
             subscript config "sender_name" = Ok sender
             /\ str_format (format_field w) template
                  (if is_person_only preference
                   then [ ("name", PyStr.or_else rn "Hiring Manager");
                          ("sender_name", sender) ]
                   else [ ("name", PyStr.or_else rn "Hiring Manager");
                          ("company", PyStr.or_else cn "your organization");
                          ("sender_name", sender) ]) = Ok body
             /\ open_rb w5 = open_rb w).
  { destruct (is_person_only preference);
      apply bind_inv in Hbody as (sender & w6 & Hs & Hbody);
      unfold lift in Hs; injection Hs as Hs <-;
      unfold render in Hbody; cbn [format_field set_stdout] in Hbody;
      injection Hbody as Hbody <-; rewrite Hfmt in Hbody;
      exists sender; repeat split; assumption. }
  destruct Hrender as (sender & Hsender & Hrendered & Hopen5).
  apply bind_inv in H as ([] & w6 & Hp & H). unfold print in Hp. injection Hp as <-.
  apply bind_inv in H as (m0 & w7 & Hcreate & H).
  apply create_email_message_fields in Hcreate as (Hto & Hsub & Hb & _ & Hatt).
  cbn [open_rb set_stdout] in Hatt. rewrite Hopen5 in Hatt.
  apply bind_inv in H as ([] & w8 & _ & H). unfold ret in H.
  injection H as <- <- _ _.
  exists template, sender, preference.
  rewrite Hb. repeat split; assumption.
Qed.

Lemma composed_message_uses_defaults_witness :
  match value_of (compose_email sample_agent (Some sample_config) "a@b.com" None None
                    None sample_resume None plain_world) with
  | Ok (_, m, _) =>
      msg_body m
      = "Dear Hiring Manager, I would like to join your organization. Regards, Jane Doe"
  | Raise _ => False
  end.
Proof.
  destruct (compose_email sample_agent (Some sample_config) "a@b.com" None None None
              sample_resume None plain_world) as [[[[subject m] rcpts]|e] w'] eqn:H;
    cbn [value_of fst].
  - destruct (composed_message_uses_defaults sample_agent (Some sample_config) "a@b.com"
                None None None sample_resume None plain_world w' subject m rcpts H)
      as (template & sender & preference & Ht & Hs & Hp & Hbody & _).
    injection Ht as <-. injection Hs as <-. injection Hp as <-.
    match type of Hbody with
    | ?rendered = _ =>
        let v := eval vm_compute in rendered in change rendered with v in Hbody
    end.
    injection Hbody as <-. reflexivity.
  - vm_compute in H. discriminate H.
Defined.

(** ** The logger, case by case *)

(** X16. On a log file that is absent, holds text that is not JSON or
    holds a JSON array, a write that fails does not make
    [log_email_activity] raise: the text of the exception is printed
    after "Failed to write to log file: " and the call returns.  When
    the file could not be opened, every file is as it was; when the
    write broke after the file was opened, the log file is what the
    broken write has left of it and the other files are as they
    were. *)
Theorem unwritable_log_is_reported_not_raised (lf to : string)
  (company : option string) (subject : string) (ok : bool) (err : option string)
  (w : World) :
  appendable (files w lf) = true -> on_write w lf <> Written ->
  let r := log_email_activity lf to company subject ok err w in
  value_of r = Ok tt
  /\ exists e,
       In ("Failed to write to log file: " ++ text e) (stdout (world_of r))
       /\ (on_write w lf = NotOpened e /\ files (world_of r) = files w
           \/ exists remains,
                on_write w lf = Broken e remains
                /\ files (world_of r) lf = remains
                /\ forall other, other <> lf -> files (world_of r) other = files w other).
Proof.
  intros Ha Hw. cbv zeta.
  destruct (on_write w lf) as [|e|e remains] eqn:Hwrite; [now elim Hw | |].
  - destruct (log_email_activity_not_opened lf to company subject ok err w e Ha Hwrite)
      as (Hv & Hfiles & Hout).
    split; [exact Hv|]. exists e. split; [exact Hout|]. left. now split.
  - destruct (log_email_activity_broken lf to company subject ok err w e remains Ha Hwrite)
      as (Hv & Hfile & Hothers & Hout).
    split; [exact Hv|]. exists e. split; [exact Hout|]. right. now exists remains.
Qed.

Lemma unwritable_log_is_reported_not_raised_witness :
  value_of (log_email_activity "sent_emails.json" "a@b.com" None "Hello there" true None
              world_read_only) = Ok tt
  /\ exists e,
       In ("Failed to write to log file: " ++ text e)
          (stdout (world_of (log_email_activity "sent_emails.json" "a@b.com" None
                               "Hello there" true None world_read_only)))
       /\ (on_write world_read_only "sent_emails.json" = NotOpened e
           /\ files (world_of (log_email_activity "sent_emails.json" "a@b.com" None
                                 "Hello there" true None world_read_only))
              = files world_read_only
           \/ exists remains,
                on_write world_read_only "sent_emails.json" = Broken e remains
                /\ files (world_of (log_email_activity "sent_emails.json" "a@b.com" None
                                      "Hello there" true None world_read_only))
                         "sent_emails.json" = remains
                /\ forall other, other <> "sent_emails.json" ->
                     files (world_of (log_email_activity "sent_emails.json" "a@b.com" None
                                        "Hello there" true None world_read_only)) other
                     = files world_read_only other).
Proof.
  apply (unwritable_log_is_reported_not_raised "sent_emails.json" "a@b.com" None
           "Hello there" true None world_read_only); [reflexivity | discriminate].
Defined.

(** The text printed for a log that may not be opened. *)
Example read_only_log_message :
  In "Failed to write to log file: [Errno 13] Permission denied: 'sent_emails.json'"
     (stdout (world_of (log_email_activity "sent_emails.json" "a@b.com" None
                          "Hello there" true None world_read_only))).
Proof. cbv. tauto. Qed.

(** X17. A log file that holds text that is not JSON, and that can be
    written, is replaced: after the call the file holds the new record
    alone, and the replacement is announced on the console. *)
Theorem corrupt_log_starts_afresh (lf to why : string) (company : option string)
  (subject : string) (ok : bool) (err : option string) (w : World) :
  files w lf = Corrupt why -> on_write w lf = Written ->
  value_of (log_email_activity lf to company subject ok err w) = Ok tt
  /\ files (world_of (log_email_activity lf to company subject ok err w)) lf
     = Document
         (JArr [ JObj [ ("timestamp", JStr (clock w (clock_reads w)));
                        ("recipient", JStr to);
                        ("company", JStr (match company with
                                          | Some (String c name) => String c name
                                          | _ => "Not specified"
                                          end));
                        ("subject", JStr subject);
                        ("success", JBool ok);
                        ("error", match err with
                                  | Some error => JStr error
                                  | None => JNull
                                  end) ] ])
  /\ stdout (world_of (log_email_activity lf to company subject ok err w))
     = (stdout w ++ ["Log file corrupted. Starting fresh log."])%list.
Proof.
  intros Hf Hw. rewrite <- log_entry_explicit.
  unfold log_email_activity, bind, try_except, now_isoformat, os_path_exists,
    json_load, json_dump, lift, print, ret.
  repeat (progress (simpl; rewrite ?Hf)). rewrite Hw. simpl.
  rewrite String.eqb_refl. auto.
Qed.

Lemma corrupt_log_starts_afresh_witness :
  files (world_of (log_email_activity "sent_emails.json" "a@b.com" (Some "Acme")
                     "Hello there" true None world_corrupt_log)) "sent_emails.json"
  = Document (JArr [ JObj [ ("timestamp", JStr "2024-05-01T09:00:00.000000");
                            ("recipient", JStr "a@b.com");
                            ("company", JStr "Acme");
                            ("subject", JStr "Hello there");
                            ("success", JBool true);
                            ("error", JNull) ] ]).
Proof.
  apply (corrupt_log_starts_afresh "sent_emails.json" "a@b.com"
           "Expecting value: line 1 column 1 (char 0)" (Some "Acme")
           "Hello there" true None world_corrupt_log); reflexivity.
Defined.

(** A log file of bytes that are not text is not one of these: the
    read raises [UnicodeDecodeError], which the logger does not
    catch. *)
Example undecodable_log_raises :
  let w := set_files (fun _ => Unreadable (Exn UnicodeDecodeError
             "'utf-8' codec can't decode byte 0xff in position 0: invalid start byte"))
             plain_world in
  value_of (log_email_activity "sent_emails.json" "a@b.com" None "Hello there" true None w)
  = Raise (Exn UnicodeDecodeError
             "'utf-8' codec can't decode byte 0xff in position 0: invalid start byte").
Proof. reflexivity. Qed.

(** X18. [log_email_activity] writes to its log file and to nothing
    else: every other file, the HTTP traffic and the SMTP session are
    as before, and the clock is read once. *)
Theorem log_touches_only_its_file (lf to : string) (company : option string)
  (subject : string) (ok : bool) (err : option string) (w : World) :
  let w' := world_of (log_email_activity lf to company subject ok err w) in
  (forall other, other <> lf -> files w' other = files w other)
  /\ http_calls w' = http_calls w
  /\ smtp_calls w' = smtp_calls w
  /\ smtp_conn w' = smtp_conn w
  /\ clock_reads w' = S (clock_reads w).
Proof.
  cbv zeta.
  unfold log_email_activity, bind, try_except, now_isoformat, os_path_exists,
    json_load, json_dump, lift, print, ret, py_append.
  simpl.
  destruct (files w lf) as [|e|why|j] eqn:Hf; simpl; rewrite ?Hf; simpl;
    try (destruct (is_JSONDecodeError e); simpl);
    try (destruct j; simpl);
    try (destruct (on_write w lf); simpl);
    repeat split; try reflexivity;
    try (intros other Hother; apply String.eqb_neq in Hother; now rewrite Hother).
Qed.

(** ** Regular expressions: the matcher against the language *)

Lemma append_empty (a b : string) :
  (a ++ b)%string = EmptyString -> a = EmptyString /\ b = EmptyString.
Proof. destruct a; simpl; intros H; [now split | discriminate]. Qed.

Lemma append_cons (a b s : string) (c : ascii) :
  (a ++ b)%string = String c s ->
  (a = EmptyString /\ b = String c s)
  \/ exists a', a = String c a' /\ s = (a' ++ b)%string.
Proof.
  destruct a as [|d a]; simpl; intros H.
  - now left.
  - injection H as -> <-. right. now exists a.
Qed.

Lemma append_nil_r (a : string) : (a ++ EmptyString)%string = a.
Proof. induction a as [|c a IH]; simpl; [reflexivity | now rewrite IH]. Qed.

Lemma append_assoc (a b c : string) : ((a ++ b) ++ c)%string = (a ++ (b ++ c))%string.
Proof. induction a as [|x a IH]; simpl; [reflexivity | now rewrite IH]. Qed.

Lemma nullable_matches (r : regex) : nullable r = true <-> matches r EmptyString.
Proof.
  split.
  - induction r; simpl; intros H; try discriminate.
    + constructor.
    + apply andb_true_iff in H as [H1 H2].
      change EmptyString with (EmptyString ++ EmptyString)%string. constructor; auto.
    + apply orb_true_iff in H as [H | H]; [apply MAltL | apply MAltR]; auto.
    + constructor.
  - intros H. remember EmptyString as s eqn:Hs.
    induction H; simpl; try reflexivity; try discriminate.
    + apply append_empty in Hs as [-> ->]. now rewrite IHmatches1, IHmatches2.
    + now rewrite IHmatches.
    + rewrite IHmatches; [apply orb_true_r | assumption].
Qed.

Lemma derivative_sound (c : ascii) (r : regex) :
  forall s, matches (derivative c r) s -> matches r (String c s).
Proof.
  induction r; simpl; intros s H.
  - inversion H.
  - inversion H.
  - destruct (p c) eqn:Hp; inversion H; subst. now constructor.
  - destruct (nullable r1) eqn:Hn.
    + inversion H; subst.
      * match goal with H' : matches (Cat _ _) _ |- _ => inversion H'; subst end.
        change (String c (s1 ++ s2)) with (String c s1 ++ s2)%string.
        constructor; auto.
      * change (String c s) with (EmptyString ++ String c s)%string.
        constructor; [now apply nullable_matches | auto].
    + inversion H; subst.
      change (String c (s1 ++ s2)) with (String c s1 ++ s2)%string.
      constructor; auto.
  - inversion H; subst; [apply MAltL | apply MAltR]; auto.
  - inversion H; subst.
    change (String c (s1 ++ s2)) with (String c s1 ++ s2)%string.
    constructor; auto.
Qed.

Lemma derivative_complete (c : ascii) (r : regex) (t : string) :
  matches r t -> forall u, t = String c u -> matches (derivative c r) u.
Proof.
  induction 1; intros u Ht; simpl.
  - discriminate.
  - injection Ht as -> <-. rewrite H. constructor.
  - apply append_cons in Ht as [[-> ->] | (a' & -> & ->)].
    + assert (Hn : nullable r1 = true) by now apply nullable_matches.
      rewrite Hn. apply MAltR. now apply IHmatches2.
    + specialize (IHmatches1 a' eq_refl).
      destruct (nullable r1); [apply MAltL|]; now constructor.
  - apply MAltL. auto.
  - apply MAltR. auto.
  - discriminate.
  - apply append_cons in Ht as [[-> ->] | (a' & -> & ->)].
    + now apply IHmatches2.
    + constructor; auto.
Qed.

(** The matcher accepts exactly the strings of the language. *)
Lemma re_match_matches (s : string) :
  forall r, re_match r s = true <-> matches r s.
Proof.
  induction s as [|c s IH]; intros r; simpl.
  - apply nullable_matches.
  - rewrite IH. split.
    + apply derivative_sound.
    + intros H. now apply (derivative_complete c r (String c s)).
Qed.

(** The pieces of the pattern. *)
Lemma matches_cat (r1 r2 : regex) (s : string) :
  matches (Cat r1 r2) s
  <-> exists s1 s2, s = (s1 ++ s2)%string /\ matches r1 s1 /\ matches r2 s2.
Proof.
  split.
  - intros H. inversion H; subst. now exists s1, s2.
  - intros (s1 & s2 & -> & H1 & H2). now constructor.
Qed.

Lemma matches_class (p : ascii -> bool) (s : string) :
  matches (Class p) s <-> exists c, s = String c EmptyString /\ p c = true.
Proof.
  split.
  - intros H. inversion H; subst. now exists c.
  - intros (c & -> & Hc). now constructor.
Qed.

Lemma matches_star_class (p : ascii -> bool) (s : string) :
  matches (Star (Class p)) s <-> all_chars p s = true.
Proof.
  split.
  - intros H. remember (Star (Class p)) as r eqn:Hr.
    induction H; try discriminate; [reflexivity|].
    injection Hr as ->. inversion H; subst. simpl.
    rewrite IHmatches2 by reflexivity.
    match goal with Hc : p _ = true |- _ => now rewrite Hc end.
  - induction s as [|c s IH]; simpl; intros H; [constructor|].
    apply andb_true_iff in H as [Hc Hs].
    change (String c s) with (String c EmptyString ++ s)%string.
    constructor; [now constructor | auto].
Qed.

Lemma matches_plus_class (p : ascii -> bool) (s : string) :
  matches (Plus (Class p)) s <-> s <> EmptyString /\ all_chars p s = true.
Proof.
  unfold Plus. rewrite matches_cat. split.
  - intros (s1 & s2 & -> & H1 & H2).
    apply matches_class in H1 as (c & -> & Hc). apply matches_star_class in H2.
    simpl. rewrite Hc, H2. split; [discriminate | reflexivity].
  - intros [Hne H]. destruct s as [|c s]; [now elim Hne|].
    simpl in H. apply andb_true_iff in H as [Hc Hs].
    exists (String c EmptyString), s. split; [reflexivity|]. split.
    + now constructor.
    + now apply matches_star_class.
Qed.

Lemma matches_at_least_2_class (p : ascii -> bool) (s : string) :
  matches (AtLeast2 (Class p)) s <-> 2 <= String.length s /\ all_chars p s = true.
Proof.
  unfold AtLeast2. rewrite matches_cat. split.
  - intros (s1 & s2 & -> & H1 & H2).
    apply matches_class in H1 as (c & -> & Hc).
    apply (matches_plus_class p) in H2 as [Hne H2].
    destruct s2; [now elim Hne|]. simpl. rewrite Hc. simpl in H2. rewrite H2.
    split; [lia | reflexivity].
  - intros [Hlen H]. destruct s as [|c s]; [simpl in Hlen; lia|].
    simpl in H. apply andb_true_iff in H as [Hc Hs].
    exists (String c EmptyString), s. split; [reflexivity|]. split.
    + now constructor.
    + apply (matches_plus_class p). split; [|exact Hs].
      destruct s; [simpl in Hlen; lia | discriminate].
Qed.

Lemma matches_lit (c : ascii) (s : string) :
  matches (Lit c) s <-> s = String c EmptyString.
Proof.
  unfold Lit. rewrite matches_class. split.
  - intros (d & -> & Hd). apply Ascii.eqb_eq in Hd. now subst.
  - intros ->. exists c. split; [reflexivity | apply Ascii.eqb_refl].
Qed.

(** ** validate_email *)

Lemma email_pattern_matches (s : string) :
  re_match email_pattern s = true
  <-> exists local domain tld,
        s = local ++ "@" ++ domain ++ "." ++ tld
        /\ local <> EmptyString /\ all_chars is_local_char local = true
        /\ domain <> EmptyString /\ all_chars is_domain_char domain = true
        /\ 2 <= String.length tld /\ all_chars is_letter tld = true.
Proof.
  rewrite re_match_matches. unfold email_pattern. split.
  - intros H.
    apply matches_cat in H as (local & s1 & -> & Hl & H).
    apply matches_cat in H as (at_ & s2 & -> & Hat & H).
    apply matches_cat in H as (domain & s3 & -> & Hd & H).
    apply matches_cat in H as (dot & tld & -> & Hdot & Ht).
    apply matches_lit in Hat as ->. apply matches_lit in Hdot as ->.
    apply matches_plus_class in Hl as [Hl1 Hl2].
    apply matches_plus_class in Hd as [Hd1 Hd2].
    apply matches_at_least_2_class in Ht as [Ht1 Ht2].
    exists local, domain, tld. repeat split; assumption.
  - intros (local & domain & tld & -> & Hl1 & Hl2 & Hd1 & Hd2 & Ht1 & Ht2).
    apply matches_cat. exists local, ("@" ++ domain ++ "." ++ tld).
    split; [reflexivity|]. split; [now apply matches_plus_class|].
    apply matches_cat. exists "@", (domain ++ "." ++ tld).
    split; [reflexivity|]. split; [now apply matches_lit|].
    apply matches_cat. exists domain, ("." ++ tld).
    split; [reflexivity|]. split; [now apply matches_plus_class|].
    apply matches_cat. exists ".", tld.
    split; [reflexivity|]. split; [now apply matches_lit|].
    now apply matches_at_least_2_class.
Qed.

(** X19. [validate_email] accepts an address exactly when, blanks
    around it removed, it reads local@domain.tld: a non-empty local
    part of letters, digits and [._%+-], a non-empty domain of letters,
    digits, dots and hyphens, and a final part of two letters or more. *)
Theorem validate_email_accepts_exactly (email : string) :
  validate_email email = true
  <-> exists local domain tld,
        PyStr.strip email = local ++ "@" ++ domain ++ "." ++ tld
        /\ local <> EmptyString /\ all_chars is_local_char local = true
        /\ domain <> EmptyString /\ all_chars is_domain_char domain = true
        /\ 2 <= String.length tld /\ all_chars is_letter tld = true.
Proof.
  unfold validate_email.
  destruct email as [|c email]; cbn [PyStr.truthy negb].
  - split; [discriminate|].
    intros (local & domain & tld & H & Hl & _).
    destruct local; [now elim Hl | discriminate H].
  - apply email_pattern_matches.
Qed.

Lemma validate_email_accepts_exactly_witness :
  validate_email " jane.doe@mail.example.com" = true.
Proof.
  apply (proj2 (validate_email_accepts_exactly " jane.doe@mail.example.com")).
  exists "jane.doe", "mail.example", "com". repeat split; try discriminate.
  simpl. lia.
Defined.

Lemma count_char_append (c : ascii) (a b : string) :
  count_char c (a ++ b) = count_char c a + count_char c b.
Proof. induction a as [|d a IH]; simpl; [reflexivity | rewrite IH; lia]. Qed.

Lemma all_chars_append (p : ascii -> bool) (a b : string) :
  all_chars p (a ++ b) = all_chars p a && all_chars p b.
Proof. induction a as [|d a IH]; simpl; [reflexivity | now rewrite IH, andb_assoc]. Qed.

Lemma all_chars_weaken (p q : ascii -> bool) (s : string) :
  (forall c, p c = true -> q c = true) -> all_chars p s = true -> all_chars q s = true.
Proof.
  intros Hpq. induction s as [|c s IH]; simpl; [reflexivity|].
  intros H. apply andb_true_iff in H as [Hc Hs]. now rewrite (Hpq c Hc), IH.
Qed.

Lemma count_char_none (c : ascii) (p : ascii -> bool) (s : string) :
  p c = false -> all_chars p s = true -> count_char c s = 0.
Proof.
  intros Hc. induction s as [|d s IH]; simpl; [reflexivity|].
  intros H. apply andb_true_iff in H as [Hd Hs].
  destruct (Ascii.eqb_spec d c) as [->|_]; [congruence | now rewrite IH].
Qed.

Lemma domain_char_is_local (c : ascii) : is_domain_char c = true -> is_local_char c = true.
Proof.
  unfold is_domain_char, is_local_char.
  destruct (is_letter c), (in_range 48 57 c), (Ascii.eqb c "."), (Ascii.eqb c "-");
    simpl; intros H; try discriminate H; repeat rewrite orb_true_r; reflexivity.
Qed.

Lemma letter_is_domain (c : ascii) : is_letter c = true -> is_domain_char c = true.
Proof. unfold is_domain_char. now intros ->. Qed.

Lemma matched_address_is_plain (s : string) :
  re_match email_pattern s = true ->
  count_char "@" s = 1
  /\ all_chars (fun c => is_local_char c || Ascii.eqb c "@") s = true.
Proof.
  intros H. apply email_pattern_matches in H
    as (local & domain & tld & -> & _ & Hl & _ & Hd & _ & Ht).
  assert (Hd' : all_chars is_local_char domain = true)
    by (revert Hd; apply all_chars_weaken, domain_char_is_local).
  assert (Ht' : all_chars is_local_char tld = true).
  { revert Ht. apply all_chars_weaken. intros c Hc.
    now apply domain_char_is_local, letter_is_domain. }
  split.
  - repeat rewrite count_char_append.
    rewrite (count_char_none "@" is_local_char local eq_refl Hl).
    rewrite (count_char_none "@" is_local_char domain eq_refl Hd').
    rewrite (count_char_none "@" is_local_char tld eq_refl Ht').
    reflexivity.
  - assert (Hw : forall s, all_chars is_local_char s = true ->
                           all_chars (fun c => is_local_char c || Ascii.eqb c "@") s = true).
    { intros s. apply all_chars_weaken. now intros c ->. }
    repeat rewrite all_chars_append.
    rewrite (Hw local Hl), (Hw domain Hd'), (Hw tld Ht'). reflexivity.
Qed.

Lemma validate_email_matches (email : string) :
  validate_email email = true -> re_match email_pattern (PyStr.strip email) = true.
Proof.
  unfold validate_email. destruct (PyStr.truthy email); cbn [negb];
    [trivial | discriminate].
Qed.

(** X20. An accepted address holds exactly one [@], and nothing but
    letters, digits and the characters [._%+-@]: no blank, no control
    character, no character beyond ASCII. *)
Theorem accepted_email_is_plain (email : string) :
  validate_email email = true ->
  count_char "@" (PyStr.strip email) = 1
  /\ all_chars (fun c => is_local_char c || Ascii.eqb c "@") (PyStr.strip email) = true.
Proof.
  intros H. now apply matched_address_is_plain, validate_email_matches.
Qed.

Lemma accepted_email_is_plain_witness :
  count_char "@" (PyStr.strip "jane@example.com ") = 1.
Proof.
  apply (accepted_email_is_plain "jane@example.com "). reflexivity.
Defined.

(** Stripping twice is stripping once. *)
Lemma rstrip_idempotent (s : string) : PyStr.rstrip (PyStr.rstrip s) = PyStr.rstrip s.
Proof.
  induction s as [|c s IH]; simpl; [reflexivity|].
  destruct (PyStr.rstrip s) as [|x r] eqn:Hr.
  - destruct (PyStr.isspace c) eqn:Hc; simpl; [reflexivity | now rewrite Hc].
  - cbn [PyStr.rstrip]. cbn [PyStr.rstrip] in IH. rewrite IH. reflexivity.
Qed.

Lemma lstrip_head (s : string) :
  match PyStr.lstrip s with
  | EmptyString => True
  | String c _ => PyStr.isspace c = false
  end.
Proof.
  induction s as [|c s IH]; simpl; [exact I|].
  destruct (PyStr.isspace c) eqn:Hc; [exact IH | exact Hc].
Qed.

Lemma lstrip_of_rstrip (s : string) :
  match s with
  | EmptyString => True
  | String c _ => PyStr.isspace c = false
  end ->
  PyStr.lstrip (PyStr.rstrip s) = PyStr.rstrip s.
Proof.
  destruct s as [|c s]; [reflexivity|]. intros Hc. cbn [PyStr.rstrip].
  destruct (PyStr.rstrip s); rewrite ?Hc; cbn [PyStr.lstrip]; now rewrite Hc.
Qed.

Lemma strip_idempotent (s : string) : PyStr.strip (PyStr.strip s) = PyStr.strip s.
Proof.
  unfold PyStr.strip.
  rewrite (lstrip_of_rstrip (PyStr.lstrip s) (lstrip_head s)).
  apply rstrip_idempotent.
Qed.

(** X21. Blanks around an address do not change the verdict of
    [validate_email]. *)
Theorem validate_email_ignores_surrounding_blanks (email : string) :
  validate_email (PyStr.strip email) = validate_email email.
Proof.
  unfold validate_email. rewrite strip_idempotent.
  destruct email as [|c email]; [reflexivity|]. cbn [PyStr.truthy negb].
  destruct (PyStr.strip (String c email)); reflexivity.
Qed.

Lemma send_via_smtp_true_iff_witness :
  value_of (_send_via_smtp sample_agent sample_message ["a@b.com"; "x@y.com"] plain_world)
  = Ok true.
Proof.
  apply (proj2 (send_via_smtp_true_iff sample_agent sample_message
                  ["a@b.com"; "x@y.com"] plain_world)).
  repeat split; eexists; reflexivity.
Defined.

(** ** clean_string_for_filename *)

Lemma replace_all_keeps_gone (c : ascii) (chars : list ascii) :
  occurs c "_" = false ->
  forall text, occurs c text = false ->
  occurs c (fold_left (fun text char => PyStr.replace char "_" text) chars text) = false.
Proof.
  intros Hu. induction chars as [|d chars IH]; simpl; intros text H; [exact H|].
  apply IH. now apply occurs_replace_other.
Qed.

Lemma replace_all_removes (c : ascii) (chars : list ascii) :
  occurs c "_" = false -> In c chars ->
  forall text,
    occurs c (fold_left (fun text char => PyStr.replace char "_" text) chars text) = false.
Proof.
  intros Hu. induction chars as [|d chars IH]; simpl; intros Hin text; [now elim Hin|].
  destruct Hin as [-> | Hin].
  - apply replace_all_keeps_gone; [exact Hu|]. now apply occurs_replace_gone.
  - now apply IH.
Qed.

Lemma occurs_in_list (c : ascii) (s : string) :
  occurs c s = true -> In c (list_ascii_of_string s).
Proof.
  induction s as [|d s IH]; simpl; [discriminate|].
  intros H. apply orb_true_iff in H as [H | H].
  - left. now apply Ascii.eqb_eq.
  - right. now apply IH.
Qed.

(** X22. The name made by [clean_string_for_filename] has at most 50
    characters, holds none of the nine characters of [invalid_chars]
    (angle brackets, colon, double quote, slash, backslash, bar,
    question mark, star) and does not start with a blank. *)
Theorem clean_filename_is_safe (text : string) :
  String.length (clean_string_for_filename text) <= 50
  /\ (forall c, occurs c invalid_chars = true ->
                occurs c (clean_string_for_filename text) = false)
  /\ match clean_string_for_filename text with
     | EmptyString => True
     | String c _ => PyStr.isspace c = false
     end.
Proof.
  unfold clean_string_for_filename. split; [|split].
  - rewrite length_take. lia.
  - intros c Hc. apply occurs_take, occurs_strip, replace_all_removes.
    + destruct (Ascii.eqb_spec c "_") as [->|Hne]; [discriminate Hc|].
      cbn [occurs]. rewrite orb_false_r.
      apply Ascii.eqb_neq. congruence.
    + now apply occurs_in_list.
  - set (t := fold_left _ _ text). unfold PyStr.strip.
    pose proof (lstrip_head t) as Hhead.
    destruct (PyStr.lstrip t) as [|c r]; [exact I|].
    cbn [PyStr.rstrip].
    destruct (PyStr.rstrip r); rewrite ?Hhead; cbn [PyStr.take]; exact Hhead.
Qed.

(** The cut at 50 characters comes after the strip, so a name can end
    with a blank. *)
Example clean_filename_can_end_with_blank :
  clean_string_for_filename
    "Curriculum Vitae of Jane Doe - Software Engineer, 2024 edition"
  = "Curriculum Vitae of Jane Doe - Software Engineer, ".
Proof. reflexivity. Qed.

(** ** test_email_setup *)

(** X23. [test_email_setup] never raises and never hands a message to
    the relay; it answers [True] only after QUIT has closed the
    session, and without a configuration it makes no call at all. *)
Theorem test_email_setup_sends_no_message (self : RecruitmentEmailAgent) (w : World) :
  exists b calls,
    value_of (test_email_setup self w) = Ok b
    /\ smtp_calls (world_of (test_email_setup self w)) = (smtp_calls w ++ calls)%list
    /\ existsb sends_message calls = false
    /\ (b = true ->
        smtp_conn (world_of (test_email_setup self w)) = Closed /\ quits calls = true)
    /\ (truthy_config (get_config (config_manager self)) = false -> calls = []).
Proof.
  unfold test_email_setup.
  destruct (truthy_config (get_config (config_manager self))) eqn:Hconfig;
    cbn [negb].
  - unfold test_handlers, try_except, bind, SMTP, starttls, login, quit, smtp_step,
      print, lift, ret, value_of, world_of;
      cbn [fst snd smtp_relay smtp_calls smtp_conn stdout set_smtp set_stdout];
      repeat
        match goal with
        | |- context [match ?o (smtp_relay w) with _ => _ end] =>
            let E := fresh "E" in
            destruct (o (smtp_relay w)) as [?e|] eqn:E;
            cbn [fst snd smtp_relay smtp_calls smtp_conn stdout set_smtp set_stdout]
        | |- context [match cls ?e with _ => _ end] =>
            let E := fresh "E" in
            destruct (cls e) eqn:E;
            cbn [fst snd smtp_relay smtp_calls smtp_conn stdout set_smtp set_stdout]
        | |- context [match subscript ?c ?k with _ => _ end] =>
            let E := fresh "E" in
            destruct (subscript c k) eqn:E;
            cbn [fst snd smtp_relay smtp_calls smtp_conn stdout set_smtp set_stdout]
        end;
      repeat rewrite <- app_assoc; cbn [app];
      eexists; eexists;
      (split; [reflexivity|]); (split; [reflexivity|]); (split; [reflexivity|]);
      (split; [intros H; first [discriminate H | split; reflexivity]
              | intros H; discriminate H]).
  - exists false, []. unfold bind, print, ret, value_of, world_of.
    cbn [fst snd smtp_calls set_stdout]. rewrite app_nil_r.
    repeat split; try reflexivity; try easy.
Qed.

(** ** confirm_action and get_user_input *)

Lemma fst_again {A : Type} (shown : list console_event)
  (rest : asked A * list console_event) : fst (again shown rest) = fst rest.
Proof. reflexivity. Qed.

Lemma snd_again {A : Type} (shown : list console_event)
  (rest : asked A * list console_event) :
  snd (again shown rest) = (shown ++ snd rest)%list.
Proof. reflexivity. Qed.

Lemma among_yes_is_answer (r : string) :
  among r ["y"; "yes"] = true -> among r ["y"; "yes"; "n"; "no"; ""] = true.
Proof.
  unfold among. cbn [existsb].
  destruct (String.eqb r "y"), (String.eqb r "yes"); simpl; congruence.
Qed.

Lemma among_no_is_answer (r : string) :
  among r ["n"; "no"; ""] = true -> among r ["y"; "yes"; "n"; "no"; ""] = true.
Proof.
  unfold among. cbn [existsb].
  destruct (String.eqb r "y"), (String.eqb r "yes"); simpl; congruence.
Qed.

Lemma among_neither (r : string) :
  among r ["y"; "yes"] = false -> among r ["n"; "no"; ""] = false ->
  among r ["y"; "yes"; "n"; "no"; ""] = false.
Proof.
  unfold among. cbn [existsb].
  destruct (String.eqb r "y"), (String.eqb r "yes"); simpl; congruence.
Qed.

(** X24. [confirm_action] is decided by the first line that reads y,
    yes, n, no or nothing (capitals and blanks around it apart): the
    answer is [True] exactly when that line is y or yes, the lines
    after it stay unread, and every line before it is none of the
    five.  When no line is one of them the call ends in [EOFError]. *)
Theorem confirm_action_decided_by_first_answer (message : string)
  (stdin : list string) :
  match fst (confirm_action message stdin) with
  | Answered b unread =>
      exists skipped line,
        stdin = (skipped ++ line :: unread)%list
        /\ Forall (fun l => among (PyStr.strip (PyStr.lower l))
                                  ["y"; "yes"; "n"; "no"; ""] = false) skipped
        /\ among (PyStr.strip (PyStr.lower line)) ["y"; "yes"; "n"; "no"; ""] = true
        /\ b = among (PyStr.strip (PyStr.lower line)) ["y"; "yes"]
  | EOFError =>
      Forall (fun l => among (PyStr.strip (PyStr.lower l))
                             ["y"; "yes"; "n"; "no"; ""] = false) stdin
  | Raised _ => False
  end.
Proof.
  induction stdin as [|line stdin IH]; cbn [confirm_action fst]; [constructor|].
  destruct (among (PyStr.strip (PyStr.lower line)) ["y"; "yes"]) eqn:Hyes.
  - cbn [fst]. exists [], line. rewrite Hyes.
    repeat split; [constructor | now apply among_yes_is_answer].
  - destruct (among (PyStr.strip (PyStr.lower line)) ["n"; "no"; ""]) eqn:Hno.
    + cbn [fst]. exists [], line. rewrite Hyes.
      repeat split; [constructor | now apply among_no_is_answer].
    + rewrite fst_again.
      destruct (fst (confirm_action message stdin)) as [b unread| |e].
      * destruct IH as (skipped & answer & -> & Hskipped & Hanswer & Hb).
        exists (line :: skipped), answer.
        repeat split; try assumption.
        constructor; [now apply among_neither | assumption].
      * constructor; [now apply among_neither | assumption].
      * exact IH.
Qed.

(** A line of blanks is the default answer: no. *)
Lemma lower_of_blank (c : ascii) : PyStr.isspace c = true -> PyStr.lower_char c = c.
Proof.
  unfold PyStr.isspace, PyStr.lower_char. intros H.
  destruct ((65 <=? nat_of_ascii c) && (nat_of_ascii c <=? 90)
            || (192 <=? nat_of_ascii c) && (nat_of_ascii c <=? 222)
               && negb (nat_of_ascii c =? 215)) eqn:E; [|reflexivity].
  exfalso.
  repeat first [ rewrite orb_true_iff in * | rewrite andb_true_iff in *
               | rewrite Nat.leb_le in * | rewrite Nat.eqb_eq in * ].
  lia.
Qed.

Lemma strip_of_blanks (s : string) :
  all_chars PyStr.isspace s = true -> PyStr.strip (PyStr.lower s) = EmptyString.
Proof.
  unfold PyStr.strip. induction s as [|c s IH]; cbn [all_chars PyStr.lower PyStr.lstrip];
    [reflexivity|].
  intros H. apply andb_true_iff in H as [Hc Hs].
  rewrite (lower_of_blank c Hc), Hc. now apply IH.
Qed.

Lemma get_user_input_answer (prompt : string) (validate : string -> bool)
  (error_msg : string) (stdin : list string) :
  match get_user_input prompt (Some validate) error_msg stdin with
  | (Answered value unread, shown) =>
      exists skipped line,
        stdin = (skipped ++ line :: unread)%list
        /\ value = PyStr.strip line
        /\ validate value = true
        /\ Forall (fun l => validate (PyStr.strip l) = false) skipped
        /\ shown = (flat_map (fun _ => [Prompt prompt; Printed error_msg]) skipped
                    ++ [Prompt prompt])%list
  | (EOFError, shown) =>
      Forall (fun l => validate (PyStr.strip l) = false) stdin
      /\ shown = (flat_map (fun _ => [Prompt prompt; Printed error_msg]) stdin
                  ++ [Prompt prompt])%list
  | (Raised _, _) => False
  end.
Proof.
  induction stdin as [|line stdin IH]; cbn [get_user_input].
  - split; [constructor | reflexivity].
  - destruct (validate (PyStr.strip line)) eqn:Hline.
    + exists [], line. repeat split; [assumption | constructor].
    + unfold again.
      destruct (get_user_input prompt (Some validate) error_msg stdin)
        as [[value unread| |e] shown]; cbn [fst snd].
      * destruct IH as (skipped & answer & -> & Hvalue & Hvalid & Hskipped & ->).
        exists (line :: skipped), answer.
        repeat split; try assumption. now constructor.
      * destruct IH as [Hall ->]. split; [now constructor | reflexivity].
      * exact IH.
Qed.

(** X25. With a validator, [get_user_input] returns the first line
    that the validator accepts once the blanks around it are removed,
    and returns it without those blanks; every line before it was
    refused and answered by one error message, the lines after it stay
    unread.  When every line is refused the call ends in
    [EOFError]. *)
Theorem get_user_input_returns_first_accepted (prompt : string)
  (validate : string -> bool) (error_msg : string) (stdin : list string) :
  match get_user_input prompt (Some validate) error_msg stdin with
  | (Answered value unread, shown) =>
      exists skipped line,
        stdin = (skipped ++ line :: unread)%list
        /\ value = PyStr.strip line
        /\ validate value = true
        /\ Forall (fun l => validate (PyStr.strip l) = false) skipped
        /\ shown = (flat_map (fun _ => [Prompt prompt; Printed error_msg]) skipped
                    ++ [Prompt prompt])%list
  | (EOFError, shown) =>
      Forall (fun l => validate (PyStr.strip l) = false) stdin
      /\ shown = (flat_map (fun _ => [Prompt prompt; Printed error_msg]) stdin
                  ++ [Prompt prompt])%list
  | (Raised _, _) => False
  end.
Proof. apply get_user_input_answer. Qed.

Lemma confirm_action_blank_line_is_no (message line : string) (stdin : list string) :
  all_chars PyStr.isspace line = true ->
  fst (confirm_action message (line :: stdin)) = Answered false stdin.
Proof.
  intros H. cbn [confirm_action]. now rewrite (strip_of_blanks line H).
Qed.

(** X26. The recipient that [main] obtains from [get_user_input] with
    [validate_email] as validator is, as returned, a well-formed
    address: it matches the address pattern itself, has no blank
    around it, holds exactly one [@] and nothing but letters, digits
    and the characters [._%+-@]. *)
Theorem prompted_recipient_is_plain (prompt error_msg value : string)
  (stdin unread : list string) (shown : list console_event) :
  get_user_input prompt (Some validate_email) error_msg stdin
  = (Answered value unread, shown) ->
  re_match email_pattern value = true
  /\ PyStr.strip value = value
  /\ count_char "@" value = 1
  /\ all_chars (fun c => is_local_char c || Ascii.eqb c "@") value = true.
Proof.
  intros H.
  pose proof (get_user_input_answer prompt validate_email error_msg stdin) as Hspec.
  rewrite H in Hspec. destruct Hspec as (skipped & line & _ & Hvalue & Hvalid & _).
  assert (Hstrip : PyStr.strip value = value)
    by (rewrite Hvalue; apply strip_idempotent).
  apply validate_email_matches in Hvalid. rewrite Hstrip in Hvalid.
  split; [exact Hvalid|]. split; [exact Hstrip|].
  now apply matched_address_is_plain.
Qed.

Lemma prompted_recipient_is_plain_witness :
  re_match email_pattern "jane@example.com" = true
  /\ PyStr.strip "jane@example.com" = "jane@example.com"
  /\ count_char "@" "jane@example.com" = 1
  /\ all_chars (fun c => is_local_char c || Ascii.eqb c "@") "jane@example.com" = true.
Proof.
  apply (prompted_recipient_is_plain "Recipient email: "
           "Invalid email format. Please try again." "jane@example.com"
           ["jane"; "  jane@example.com  "; "y"] ["y"]
           [Prompt "Recipient email: ";
            Printed "Invalid email format. Please try again.";
            Prompt "Recipient email: "]).
  reflexivity.
Defined.

(** ** select_resume_file *)

Section SelectResumeFileProperties.

Variable py_int : string -> option Z.
Variable stat_line : Path -> result string.

Lemma show_files_raises (resume_files : list Path) :
  forall i e,
    fst (show_files stat_line i resume_files) = Some e ->
    exists file, In file resume_files /\ stat_line file = Raise e.
Proof.
  induction resume_files as [|file rest IH]; intros i e; cbn [show_files fst];
    [discriminate|].
  destruct (stat_line file) as [line|e'] eqn:Hstat; cbn [fst].
  - intros H. destruct (IH _ _ H) as (f & Hin & Hf).
    exists f. split; [now right | exact Hf].
  - intros H. injection H as <-. exists file. split; [now left | exact Hstat].
Qed.

Lemma ask_choice_answer (resume_files : list Path) (stdin : list string) :
  match fst (ask_choice py_int resume_files stdin) with
  | Answered (Some file) unread =>
      exists skipped line number,
        stdin = (skipped ++ line :: unread)%list
        /\ py_int (PyStr.strip line) = Some number
        /\ (1 <= number <= Z.of_nat (length resume_files))%Z
        /\ nth_error resume_files (Z.to_nat (number - 1)) = Some file
  | Answered None _ => False
  | EOFError => True
  | Raised _ => False
  end.
Proof.
  induction stdin as [|line stdin IH]; cbn [ask_choice fst]; [exact I|].
  assert (Hagain :
    match fst (ask_choice py_int resume_files stdin) with
    | Answered (Some file) unread =>
        exists skipped line0 number,
          (line :: stdin) = (skipped ++ line0 :: unread)%list
          /\ py_int (PyStr.strip line0) = Some number
          /\ (1 <= number <= Z.of_nat (length resume_files))%Z
          /\ nth_error resume_files (Z.to_nat (number - 1)) = Some file
    | Answered None _ => False
    | EOFError => True
    | Raised _ => False
    end).
  { destruct (fst (ask_choice py_int resume_files stdin)) as [[file|] unread| |e];
      try exact IH.
    destruct IH as (skipped & line0 & number & -> & H).
    now exists (line :: skipped), line0, number. }
  destruct (String.eqb (PyStr.strip line) ""); [now rewrite fst_again|].
  destruct (py_int (PyStr.strip line)) as [number|] eqn:Hint; [|now rewrite fst_again].
  destruct ((0 <=? number - 1)%Z && (number - 1 <? Z.of_nat (length resume_files))%Z)
    eqn:Hrange; [|now rewrite fst_again].
  apply andb_true_iff in Hrange as [Hlow Hhigh].
  apply Z.leb_le in Hlow. apply Z.ltb_lt in Hhigh.
  destruct (nth_error resume_files (Z.to_nat (number - 1))) as [file|] eqn:Hnth;
    cbn [fst].
  - exists [], line, number. repeat split; try assumption; lia.
  - apply nth_error_None in Hnth. lia.
Qed.

(** X27. [select_resume_file] hands back a file of the list it was
    given, or nothing when the list is empty.  With two files or more
    the file is the one at the position typed, counted from 1, and the
    number typed lies between 1 and the number of files: 0 and negative
    numbers select nothing, and no [IndexError] can arise.  The only
    exception besides [EOFError] is the one of a failing
    [file.stat()]. *)
Theorem select_resume_file_picks_from_list (resume_files : list Path)
  (stdin : list string) :
  match fst (select_resume_file py_int stat_line resume_files stdin) with
  | Answered None _ => resume_files = []
  | Answered (Some file) unread =>
      In file resume_files
      /\ (2 <= length resume_files ->
          exists skipped line number,
            stdin = (skipped ++ line :: unread)%list
            /\ py_int (PyStr.strip line) = Some number
            /\ (1 <= number <= Z.of_nat (length resume_files))%Z
            /\ nth_error resume_files (Z.to_nat (number - 1)) = Some file)
  | EOFError => 2 <= length resume_files
  | Raised e => exists file, In file resume_files /\ stat_line file = Raise e
  end.
Proof.
  destruct resume_files as [|first [|second rest]].
  - reflexivity.
  - cbn [select_resume_file fst]. split; [now left|]. cbn [length]. lia.
  - cbn [select_resume_file]. set (files := first :: second :: rest).
    destruct (show_files stat_line 1 files) as [[e|] shown] eqn:Hshow.
    + cbn [fst]. apply (show_files_raises files 1 e). now rewrite Hshow.
    + rewrite fst_again. pose proof (ask_choice_answer files stdin) as Hask.
      destruct (fst (ask_choice py_int files stdin)) as [[file|] unread| |e'].
      * split; [|intros _; exact Hask].
        destruct Hask as (_ & _ & number & _ & _ & _ & Hnth).
        now apply nth_error_In in Hnth.
      * elim Hask.
      * subst files. cbn [length]. lia.
      * elim Hask.
Qed.

End SelectResumeFileProperties.

(** ** The setup from files *)

Lemma lookup_dict_set {V : Type} (k : string) (v : V) (d : dict V) :
  lookup k (dict_set k v d) = Some v.
Proof.
  induction d as [|[k' v'] d IH]; cbn [dict_set lookup].
  - now rewrite String.eqb_refl.
  - destruct (String.eqb k k') eqn:E; cbn [lookup]; rewrite E; [reflexivity | exact IH].
Qed.

Lemma lookup_dict_set_other {V : Type} (k k0 : string) (v : V) (d : dict V) :
  k0 <> k -> lookup k0 (dict_set k v d) = lookup k0 d.
Proof.
  intros Hne. induction d as [|[k' v'] d IH]; cbn [dict_set lookup].
  - destruct (String.eqb_spec k0 k); [contradiction | reflexivity].
  - destruct (String.eqb_spec k k') as [->|_]; cbn [lookup].
    + destruct (String.eqb_spec k0 k'); [contradiction | reflexivity].
    + now rewrite IH.
Qed.

Lemma keys_dict_set {V : Type} (k k0 : string) (v : V) (d : dict V) :
  In k0 (map fst (dict_set k v d)) -> k0 = k \/ In k0 (map fst d).
Proof.
  induction d as [|[k' v'] d IH]; cbn [dict_set map fst In].
  - intros [<- | []]. now left.
  - destruct (String.eqb_spec k k') as [->|_]; cbn [map fst In].
    + intros [<- | H]; right; [now left | now right].
    + intros [<- | H]; [right; now left|].
      destruct (IH H) as [-> | H']; [now left | right; now right].
Qed.

Lemma dict_set_keeps_keys_distinct {V : Type} (k : string) (v : V) (d : dict V) :
  NoDup (map fst d) -> NoDup (map fst (dict_set k v d)).
Proof.
  induction d as [|[k' v'] d IH]; cbn [dict_set map fst]; intros H.
  - constructor; [intros [] | constructor].
  - destruct (String.eqb_spec k k') as [->|Hne]; cbn [map fst]; [exact H|].
    inversion H as [|? ? Hnotin Hrest]; subst. constructor; [|now apply IH].
    intros Hin. apply keys_dict_set in Hin as [-> | Hin]; [now apply Hne | now apply Hnotin].
Qed.

Lemma dict_set_keeps {V : Type} (P : string * V -> Prop) (k : string) (v : V)
  (d : dict V) : P (k, v) -> Forall P d -> Forall P (dict_set k v d).
Proof.
  intros Hkv. induction d as [|[k' v'] d IH]; cbn [dict_set]; intros H.
  - now constructor.
  - inversion H; subst.
    destruct (String.eqb_spec k k') as [->|_]; constructor; auto.
Qed.

Lemma occurs_split_head (c : ascii) (s : string) :
  occurs c (PyStr.split_head c s) = false.
Proof.
  induction s as [|d s IH]; cbn [PyStr.split_head occurs]; [reflexivity|].
  destruct (Ascii.eqb d c) eqn:E; cbn [occurs]; [reflexivity | now rewrite E, IH].
Qed.

(** What the loop over the lines keeps true of the dictionary. *)
Lemma setup_lines_keep_details_tidy (lines : list string) :
  forall details,
    NoDup (map fst details)
    /\ Forall (fun kv => PyStr.strip (fst kv) = fst kv
                         /\ PyStr.strip (snd kv) = snd kv
                         /\ occurs "=" (fst kv) = false) details ->
    NoDup (map fst (fold_left setup_line lines details))
    /\ Forall (fun kv => PyStr.strip (fst kv) = fst kv
                         /\ PyStr.strip (snd kv) = snd kv
                         /\ occurs "=" (fst kv) = false)
              (fold_left setup_line lines details).
Proof.
  induction lines as [|line lines IH]; cbn [fold_left]; intros details [Hkeys Hall];
    [now split|].
  apply IH. unfold setup_line.
  destruct (PyStr.truthy (PyStr.strip line)
            && negb (PyStr.startswith (PyStr.strip line) "#")
            && occurs "=" (PyStr.strip line)); [|now split].
  split.
  - now apply dict_set_keeps_keys_distinct.
  - apply dict_set_keeps; [|exact Hall]. cbn [fst snd].
    repeat split; try apply strip_idempotent.
    apply occurs_strip, occurs_split_head.
Qed.

Lemma no_field_missing (details : dict string) :
  filter (fun field => negb (PyStr.truthy_opt (lookup field details))) required_fields = [] ->
  Forall (fun field => PyStr.truthy_opt (lookup field details) = true) required_fields.
Proof.
  unfold required_fields. cbn [filter].
  destruct (PyStr.truthy_opt (lookup "GMAIL_EMAIL" details)) eqn:Hemail;
    destruct (PyStr.truthy_opt (lookup "GMAIL_APP_PASSWORD" details)) eqn:Hpassword;
    destruct (PyStr.truthy_opt (lookup "SENDER_NAME" details)) eqn:Hname;
    cbn [negb]; intros H; try discriminate H.
  repeat constructor; assumption.
Qed.

(** A run of [read_setup_details]: it ends with a value and touches
    the console only. *)
Lemma read_setup_details_run (texts : string -> text_file) (w : World) :
  exists r out,
    read_setup_details texts w = (Ok r, set_stdout out w)
    /\ match r with
       | Some details =>
           (exists content,
               texts "setup_details.txt" = Text content
               /\ details = fold_left setup_line (file_lines content) [])
           /\ Forall (fun field => PyStr.truthy_opt (lookup field details) = true)
                     required_fields
       | None => True
       end.
Proof.
  unfold read_setup_details.
  destruct (texts "setup_details.txt") as [|e|content].
  - exists None. eexists. split; [|exact I].
    rewrite !bind_print. unfold ret, set_stdout. cbn [stdout]. reflexivity.
  - exists None. eexists. split; [|exact I].
    rewrite !bind_print. unfold ret, set_stdout. cbn [stdout]. reflexivity.
  - set (details := fold_left setup_line (file_lines content) []).
    destruct (filter _ required_fields) as [|missing others] eqn:Hmissing.
    + exists (Some details), (stdout w). split.
      * unfold ret, set_stdout. now destruct w.
      * split; [now exists content | now apply no_field_missing].
    + exists None. eexists. split; [|exact I].
      rewrite !bind_print. unfold ret, set_stdout. cbn [stdout]. reflexivity.
Qed.

(** X28. [read_setup_details] never raises.  The dictionary it returns
    holds a non-empty value for each of [GMAIL_EMAIL],
    [GMAIL_APP_PASSWORD] and [SENDER_NAME]; its keys are distinct, its
    keys and values have no blank around them, and no key holds an
    equals sign: a line is cut at its first one. *)
Theorem read_setup_details_result (texts : string -> text_file) (w : World) :
  exists r,
    value_of (read_setup_details texts w) = Ok r
    /\ match r with
       | Some details =>
           Forall (fun field => PyStr.truthy_opt (lookup field details) = true)
                  required_fields
           /\ NoDup (map fst details)
           /\ Forall (fun kv => PyStr.strip (fst kv) = fst kv
                                /\ PyStr.strip (snd kv) = snd kv
                                /\ occurs "=" (fst kv) = false) details
       | None => True
       end.
Proof.
  destruct (read_setup_details_run texts w) as (r & out & Hrun & Hr).
  exists r. rewrite Hrun. split; [reflexivity|].
  destruct r as [details|]; [|exact I].
  destruct Hr as [(content & _ & ->) Hfields]. split; [exact Hfields|].
  apply setup_lines_keep_details_tidy. split; constructor.
Qed.

(** A run of [read_email_template]. *)
Lemma read_email_template_run (texts : string -> text_file) (preference : string)
  (w : World) :
  exists r out,
    read_email_template texts preference w = (Ok r, set_stdout out w)
    /\ match r with
       | Some template =>
           PyStr.truthy template = true
           /\ exists content,
               texts (get_default template_files preference
                                  "template_person_company.txt") = Text content
               /\ template = PyStr.strip content
       | None => True
       end.
Proof.
  unfold read_email_template.
  destruct (texts _) as [|e|content] eqn:Htext.
  - exists None. eexists. split; [|exact I].
    cbn [template_files map print_each fst snd].
    rewrite !bind_print. unfold ret, set_stdout. cbn [stdout]. reflexivity.
  - exists None. eexists. split; [|exact I].
    rewrite !bind_print. unfold ret, set_stdout. cbn [stdout]. reflexivity.
  - destruct (PyStr.truthy (PyStr.strip content)) eqn:Hfull; cbn [negb].
    + exists (Some (PyStr.strip content)), (stdout w). split.
      * unfold ret, set_stdout. now destruct w.
      * split; [exact Hfull | now exists content].
    + exists None. eexists. split; [|exact I].
      rewrite !bind_print. unfold ret, set_stdout. cbn [stdout]. reflexivity.
Qed.

Lemma truthy_field (details : dict string) (field : string) :
  PyStr.truthy_opt (lookup field details) = true ->
  exists v, subscript (Some details) field = Ok v /\ PyStr.truthy v = true.
Proof.
  unfold subscript. destruct (lookup field details) as [v|]; cbn [PyStr.truthy_opt];
    [|discriminate].
  intros H. now exists v.
Qed.

(** X29. [setup_first_time] never raises.  When it returns a
    configuration, the manager holds it and the configuration file
    holds it; it has the six keys of a configuration, and the sender's
    address, password and name and the template are not empty.  When it
    returns [None], the manager is as it was and so is every file but
    the configuration file; that one is as it was too, unless the
    write broke after the file was opened: then it is what the broken
    write has left of it. *)
Theorem setup_first_time_result (self : ConfigManager) (texts : string -> text_file)
  (w : World) :
  exists r,
    value_of (setup_first_time self texts w) = Ok r
    /\ match r with
       | (Some c, self') =>
           self' = mkConfigManager (config_file self) (Some c)
           /\ files (world_of (setup_first_time self texts w)) (config_file self)
              = Document (json_of_dict c)
           /\ map fst c = [ "sender_email"; "sender_password"; "sender_name";
                            "email_template"; "template_preference"; "setup_date" ]
           /\ Forall (fun key => PyStr.truthy_opt (lookup key c) = true)
                     [ "sender_email"; "sender_password"; "sender_name";
                       "email_template" ]
       | (None, self') =>
           self' = self
           /\ (forall other, other <> config_file self ->
                 files (world_of (setup_first_time self texts w)) other = files w other)
           /\ (files (world_of (setup_first_time self texts w)) (config_file self)
               = files w (config_file self)
               \/ exists e remains,
                    on_write w (config_file self) = Broken e remains
                    /\ files (world_of (setup_first_time self texts w)) (config_file self)
                       = remains)
       end.
Proof.
  unfold setup_first_time. rewrite !bind_print.
  match goal with
  | |- context [bind (read_setup_details texts) _ ?w1] =>
      destruct (read_setup_details_run texts w1) as (details & out & Hrun & Hdetails);
      rewrite (bind_ok _ _ _ _ _ Hrun)
  end.
  destruct details as [[|entry details]|]; cbn [truthy_config negb];
    try (exists (None, self); split; [reflexivity | split; [reflexivity | split; auto]]).
  set (d := entry :: details) in *.
  destruct Hdetails as [_ Hfields].
  rewrite bind_print.
  match goal with
  | |- context [bind (read_email_template texts ?p) _ ?w1] =>
      destruct (read_email_template_run texts p w1)
        as (template & out' & Hrun' & Htemplate);
      rewrite (bind_ok _ _ _ _ _ Hrun')
  end.
  destruct template as [template|];
    [|exists (None, self); split; [reflexivity | split; [reflexivity | split; auto]]].
  destruct Htemplate as [Hfull _].
  inversion Hfields as [|? ? Hemail Hfields1]; subst.
  inversion Hfields1 as [|? ? Hpassword Hfields2]; subst.
  inversion Hfields2 as [|? ? Hname _]; subst.
  apply truthy_field in Hemail as (email & Hemail & Hemail').
  apply truthy_field in Hpassword as (password & Hpassword & Hpassword').
  apply truthy_field in Hname as (sender & Hname & Hname').
  rewrite Hemail, Hpassword, Hname.
  unfold now_str, now_isoformat, json_dump, try_except, bind, lift, print, ret,
    value_of, world_of.
  cbn [fst snd on_write files clock clock_reads stdout
       set_stdout set_clock_reads set_files].
  destruct (on_write w (config_file self)) as [|e|e remains] eqn:Hwrite.
  - eexists. split; [reflexivity|].
    cbn [fst snd files set_stdout set_files]. rewrite String.eqb_refl.
    repeat split; try reflexivity.
    repeat constructor; cbn [lookup String.eqb Ascii.eqb Bool.eqb PyStr.truthy_opt];
      assumption.
  - exists (None, self). split; [reflexivity | split; [reflexivity | split; auto]].
  - exists (None, self). split; [reflexivity|]. split; [reflexivity|].
    cbn [fst snd files set_stdout set_files]. split.
    + intros other Hother. apply String.eqb_neq in Hother. now rewrite Hother.
    + right. exists e, remains. rewrite String.eqb_refl. now split.
Qed.

(** X30. With a configuration loaded, [update_template] never raises,
    and it changes the template in memory before it writes the file:
    it answers whether the write succeeded, and in every case the
    manager holds the new template afterwards.  After a successful
    write the configuration file holds the configuration with the new
    template.  After a failed one memory and file disagree: the file is
    as it was when it could not be opened, and what the broken write
    has left of it otherwise.  No other file is touched. *)
Theorem update_template_changes_memory_first (self : ConfigManager)
  (new_template : string) (c : dict string) (w : World) :
  config self = Some c -> c <> [] ->
  exists self',
    value_of (update_template self new_template w)
    = Ok (written w (config_file self), self')
    /\ config self' = Some (dict_set "email_template" new_template c)
    /\ subscript (config self') "email_template" = Ok new_template
    /\ forall path,
         files (world_of (update_template self new_template w)) path
         = if String.eqb path (config_file self)
           then file_after_write w (config_file self)
                  (json_of_dict (dict_set "email_template" new_template c))
           else files w path.
Proof.
  intros Hconfig Hfull. unfold update_template. rewrite Hconfig.
  destruct c as [|entry c]; [now elim Hfull|].
  set (c' := dict_set "email_template" new_template (entry :: c)).
  exists (mkConfigManager (config_file self) (Some c')).
  unfold json_dump, try_except, bind, print, ret, value_of, world_of, written,
    file_after_write.
  destruct (on_write w (config_file self)) as [|e|e remains];
    cbn [fst snd files set_stdout set_files config];
    (split; [reflexivity|]); (split; [reflexivity|]);
    (split; [unfold subscript, c'; now rewrite lookup_dict_set|]);
    intros path; destruct (String.eqb_spec path (config_file self)) as [->|_];
    reflexivity.
Qed.

Lemma update_template_changes_memory_first_witness :
  exists self',
    value_of (update_template (mkConfigManager "email_config.json" (Some sample_config))
                "Hello {name}" world_read_only)
    = Ok (false, self')
    /\ config self' = Some (dict_set "email_template" "Hello {name}" sample_config)
    /\ subscript (config self') "email_template" = Ok "Hello {name}"
    /\ forall path,
         files (world_of (update_template
                            (mkConfigManager "email_config.json" (Some sample_config))
                            "Hello {name}" world_read_only)) path
         = if String.eqb path "email_config.json"
           then files world_read_only "email_config.json"
           else files world_read_only path.
Proof.
  apply (update_template_changes_memory_first
           (mkConfigManager "email_config.json" (Some sample_config))
           "Hello {name}" sample_config world_read_only); [reflexivity | discriminate].
Defined.

(** A write of the configuration that breaks leaves a file that is no
    configuration, while the manager holds the new template and the
    call answers [False]. *)
Example update_template_broken_write :
  let w := mkWorld (http_service plain_world) (http_calls plain_world)
             (smtp_relay plain_world) (smtp_conn plain_world) (smtp_calls plain_world)
             (open_rb plain_world)
             (fun _ => Document (json_of_dict sample_config))
             (fun _ => Broken (Exn OSError "[Errno 28] No space left on device")
                              (Corrupt "Expecting value: line 1 column 1 (char 0)"))
             (clock plain_world) (clock_reads plain_world)
             (format_field plain_world) (stdout plain_world) in
  let r := update_template (mkConfigManager "email_config.json" (Some sample_config))
             "Hello {name}" w in
  (exists self', value_of r = Ok (false, self')
                 /\ subscript (config self') "email_template" = Ok "Hello {name}")
  /\ files w "email_config.json" = Document (json_of_dict sample_config)
  /\ files (world_of r) "email_config.json"
     = Corrupt "Expecting value: line 1 column 1 (char 0)".
Proof. cbv zeta. split; [eexists; split; reflexivity | split; reflexivity]. Qed.
